(** * hrcrm backend: a shallow embedding of [backend/app.py]

    The program is a FastAPI application with five routes over two SQLAlchemy
    tables.  The embedding follows the file top to bottom: the exceptions the
    stack can raise, the ORM classes and their tables, the pydantic schemas,
    the session (unit of work) and the query builder, the [get_db]
    dependency, the five path operation functions and the routing layer that
    injects the session, validates the request and serialises the response.

    What the libraries do is modelled as they document it:
    - the database is the PostgreSQL of the default [DATABASE_URL]: a table
      keeps its rows in insertion order; an [Integer] primary key draws from
      a sequence that starts at 1 and ends at 2147483647; a unique index
      refuses a second row with the same value, and a value that does not
      fit in an entry of the index; OFFSET and LIMIT are bigint values and
      must not be negative; a text value holds no NUL character;
    - the driver refuses to send a string that holds a NUL character;
    - the ORM leaves an attribute whose value is [None] out of the INSERT, so
      that the column default applies to it;
    - a request body is a JSON object whose members are strings or [null];
      a string is the sequence of the bytes of its UTF-8 encoding;
    - requests are served one after the other. *)

From Stdlib Require Import ZArith String Ascii List Lia.
From stdpp Require Import base option list gmap strings.

Open Scope string_scope.
Open Scope list_scope.

(** ** Exceptions and outcomes *)

(** What a call can raise: the [HTTPException] of the source, the errors of
    the framework boundary (request and response validation), the errors of
    the database and of the ORM, and the [ValueError] of the driver. *)
Inductive Exn : Type :=
| HTTPException (status_code : Z) (detail : string)
| RequestValidationError (field : string)
| ResponseValidationError (field : string)
| ProgrammingError (relation : string)
| IntegrityError (constraint : string)
| DataError (msg : string)
| OperationalError (msg : string)
| InvalidRequestError (msg : string)
| ValueError (msg : string).

Inductive Outcome (A : Type) : Type :=
| Returned (a : A)
| Raised (e : Exn).
Arguments Returned {A} a.
Arguments Raised {A} e.

(** The status code the framework answers with. *)
Definition http_status (e : Exn) : Z :=
  match e with
  | HTTPException c _ => c
  | RequestValidationError _ => 422
  | _ => 500
  end.

Definition client_error (e : Exn) : Prop := (400 <= http_status e < 500)%Z.

(** ** Text *)

(** Whether a Python string holds the character NUL. *)
Fixpoint has_NUL (s : string) : bool :=
  match s with
  | EmptyString => false
  | String c rest => Ascii.eqb c Ascii.zero || has_NUL rest
  end.

(** A value of a [String] column: a string without NUL. *)
Module Text.
Record t : Type := make { chars : string; no_NUL : has_NUL chars = false }.
End Text.

(** The driver adapting a Python string into a parameter of a statement: it
    raises [ValueError] on a string that holds NUL, before anything is sent
    to the database. *)
Definition adapt (s : string) : Outcome Text.t :=
  match decide (has_NUL s = false) with
  | left clean => Returned (Text.make s clean)
  | right _ =>
      Raised (ValueError "A string literal cannot contain NUL (0x00) characters.")
  end.

(** [None] is sent as NULL. *)
Definition adapt_option (o : option string) : Outcome (option Text.t) :=
  match o with
  | None => Returned None
  | Some s =>
      match adapt s with
      | Returned x => Returned (Some x)
      | Raised e => Raised e
      end
  end.

(** A text written in this file; the strings it is used on hold no NUL. *)
Definition text (s : string) : Text.t :=
  match adapt s with
  | Returned x => x
  | Raised _ => Text.make EmptyString eq_refl
  end.

(** ** ORM classes and tables *)

(** A row of table [vacancies]: the [nullable=False] columns carry a value. *)
Module VacancyRow.
Record t : Type :=
  { id : Z; title : Text.t; description : option Text.t; status : Text.t }.
End VacancyRow.

(** A row of table [candidates]. *)
Module CandidateRow.
Record t : Type :=
  { id : Z; full_name : Text.t; email : Text.t;
    phone : option Text.t; city : option Text.t }.
End CandidateRow.

(** An instance of class [Vacancy] as Python holds it: [id] is [None] until
    the instance is flushed, and [status] is whatever the constructor got. *)
Module Vacancy.
Record t : Type :=
  { id : option Z; title : string;
    description : option string; status : option string }.

(** The constructor, with the keyword arguments the source passes. *)
Definition init (title : string) (description status : option string) : t :=
  {| id := None; title := title; description := description; status := status |}.

Definition load (r : VacancyRow.t) : t :=
  {| id := Some (VacancyRow.id r);
     title := Text.chars (VacancyRow.title r);
     description := Text.chars <$> VacancyRow.description r;
     status := Some (Text.chars (VacancyRow.status r)) |}.
End Vacancy.

Module Candidate.
Record t : Type :=
  { id : option Z; full_name : string; email : string;
    phone : option string; city : option string }.

(** The constructor, with the keyword arguments the source passes. *)
Definition init (full_name email : string) (phone city : option string) : t :=
  {| id := None; full_name := full_name; email := email;
     phone := phone; city := city |}.

Definition load (r : CandidateRow.t) : t :=
  {| id := Some (CandidateRow.id r);
     full_name := Text.chars (CandidateRow.full_name r);
     email := Text.chars (CandidateRow.email r);
     phone := Text.chars <$> CandidateRow.phone r;
     city := Text.chars <$> CandidateRow.city r |}.
End Candidate.

(** Any mapped instance. *)
Inductive Instance : Type :=
| AVacancy (v : Vacancy.t)
| ACandidate (c : Candidate.t).

(** A table: its rows in insertion order, and the next value of the sequence
    behind its [Integer, primary_key=True] column. *)
Record Table (R : Type) : Type := { rows : list R; serial : Z }.
Arguments rows {R} _.
Arguments serial {R} _.

Definition empty_table {R : Type} : Table R := {| rows := []; serial := 1 |}.

(** The database behind [engine]: a table is [None] until it is created. *)
Record Database : Type :=
  { vacancies : option (Table VacancyRow.t);
    candidates : option (Table CandidateRow.t) }.

(** ** Pydantic schemas *)

(** A member of a JSON request body: absent, [null], or a string. *)
Inductive Field : Type := Missing | Null | Str (s : string).

(** [name: str] *)
Definition required (name : string) (f : Field) : Outcome string :=
  match f with
  | Str s => Returned s
  | _ => Raised (RequestValidationError name)
  end.

(** [name: Optional[str] = dflt]: the default is taken only when the member
    is absent; an explicit [null] is the value [None]. *)
Definition optional (dflt : option string) (f : Field) : option string :=
  match f with
  | Missing => dflt
  | Null => None
  | Str s => Some s
  end.

Module VacancyBody.
Record t : Type := { title : Field; description : Field; status : Field }.
End VacancyBody.

Module VacancyCreate.
Record t : Type :=
  { title : string; description : option string; status : option string }.

Definition validate (b : VacancyBody.t) : Outcome t :=
  match required "title" (VacancyBody.title b) with
  | Raised e => Raised e
  | Returned ttl =>
      Returned {| title := ttl;
                  description := optional None (VacancyBody.description b);
                  status := optional (Some "open") (VacancyBody.status b) |}
  end.

(** The keyword arguments [vacancy.dict()], given to the constructor. *)
Definition construct (vacancy : t) : Vacancy.t :=
  Vacancy.init (title vacancy) (description vacancy) (status vacancy).
End VacancyCreate.

Module VacancyRead.
Record t : Type :=
  { id : Z; title : string; description : option string; status : string }.

(** [orm_mode]: the response is read off the attributes of the instance;
    [id: int] and [status: str] do not accept [None]. *)
Definition from_orm (obj : Instance) : Outcome t :=
  match obj with
  | AVacancy v =>
      match Vacancy.id v, Vacancy.status v with
      | Some i, Some s =>
          Returned {| id := i; title := Vacancy.title v;
                      description := Vacancy.description v; status := s |}
      | None, _ => Raised (ResponseValidationError "id")
      | Some _, None => Raised (ResponseValidationError "status")
      end
  | ACandidate _ => Raised (ResponseValidationError "title")
  end.
End VacancyRead.

Module CandidateBody.
Record t : Type :=
  { full_name : Field; email : Field; phone : Field; city : Field }.
End CandidateBody.

Module CandidateCreate.
Record t : Type :=
  { full_name : string; email : string;
    phone : option string; city : option string }.

Definition validate (b : CandidateBody.t) : Outcome t :=
  match required "full_name" (CandidateBody.full_name b) with
  | Raised e => Raised e
  | Returned n =>
      match required "email" (CandidateBody.email b) with
      | Raised e => Raised e
      | Returned m =>
          Returned {| full_name := n; email := m;
                      phone := optional None (CandidateBody.phone b);
                      city := optional None (CandidateBody.city b) |}
      end
  end.

(** The keyword arguments [candidate.dict()], given to the constructor. *)
Definition construct (candidate : t) : Candidate.t :=
  Candidate.init (full_name candidate) (email candidate)
    (phone candidate) (city candidate).
End CandidateCreate.

Module CandidateRead.
Record t : Type :=
  { id : Z; full_name : string; email : string;
    phone : option string; city : option string }.

Definition from_orm (obj : Instance) : Outcome t :=
  match obj with
  | ACandidate c =>
      match Candidate.id c with
      | Some i =>
          Returned {| id := i; full_name := Candidate.full_name c;
                      email := Candidate.email c;
                      phone := Candidate.phone c; city := Candidate.city c |}
      | None => Raised (ResponseValidationError "id")
      end
  | AVacancy _ => Raised (ResponseValidationError "full_name")
  end.
End CandidateRead.

(** ** The world, and computations that can raise *)

(** An instance a session tracks: [pending] until its INSERT has been
    flushed.  The session and the endpoint hold the same Python object, so an
    endpoint refers to it by its position in the session. *)
Record Tracked : Type := { inst : Instance; pending : bool }.

(** The unit of work of one [Session] object. *)
Record UnitOfWork : Type := { tracked : list Tracked }.

(** The database, and the sessions that are open, by identity. *)
Record World : Type :=
  { database : Database; sessions : gmap nat UnitOfWork }.

(** A Python call: it may change the world, and returns or raises; what it
    changed before raising stays changed. *)
Definition M (A : Type) : Type := World -> World * Outcome A.

Definition ret {A : Type} (a : A) : M A := fun w => (w, Returned a).

Definition raise {A : Type} (e : Exn) : M A := fun w => (w, Raised e).

Definition lift {A : Type} (o : Outcome A) : M A := fun w => (w, o).

Definition bind {A B : Type} (m : M A) (k : A -> M B) : M B :=
  fun w =>
    match m w with
    | (w1, Returned a) => k a w1
    | (w1, Raised e) => (w1, Raised e)
    end.

Notation "x <- m ;; k" := (bind m (fun x => k))
  (at level 100, m at next level, right associativity).
Notation "m ;;; k" := (bind m (fun _ => k))
  (at level 100, right associativity).

(** [try: body finally: fin]: [fin] runs whatever [body] did; the outcome is
    that of [body], unless [fin] itself raises. *)
Definition try_finally {A : Type} (body : M A) (fin : M unit) : M A :=
  fun w =>
    match body w with
    | (w1, r) =>
        match fin w1 with
        | (w2, Returned _) => (w2, r)
        | (w2, Raised e) => (w2, Raised e)
        end
    end.

(** ** The storage layer *)

(** The largest value of an [Integer] column and of its sequence. *)
Definition max_serial : Z := 2147483647.

Definition in_integer (i : Z) : bool :=
  (- max_serial - 1 <=? i)%Z && (i <=? max_serial)%Z.

(** The sequence behind a primary key: it hands out its value and moves on,
    and it does not move back when the INSERT that drew from it fails; past
    its largest value it refuses. *)
Definition nextval {R : Type} (t : Table R) : Outcome (Z * Table R) :=
  if (max_serial <? serial t)%Z
  then Raised (DataError "nextval: reached maximum value of sequence")
  else Returned (serial t, {| rows := rows t; serial := serial t + 1 |}).

(** The primary key of a new row: the one the instance carries, which has to
    fit the column, or else the next value of the sequence. *)
Definition primary_key {R : Type} (given : option Z) (t : Table R)
  : Outcome (Z * Table R) :=
  match given with
  | Some i =>
      if in_integer i then Returned (i, t)
      else Raised (DataError "integer out of range")
  | None => nextval t
  end.

Definition append_row {R : Type} (r : R) (t : Table R) : Table R :=
  {| rows := rows t ++ [r]; serial := serial t |}.

(** The column default of [Vacancy.status]. *)
Definition status_default : string := "open".

(** The values of the INSERT of a vacancy, as the driver adapts them.  The
    ORM leaves an attribute that is [None] out of the statement, so the
    column takes its default: [status_default] for [status], NULL for
    [description] (and the sequence for [id], below). *)
Definition vacancy_values (v : Vacancy.t) : Outcome (Z -> VacancyRow.t) :=
  match adapt (Vacancy.title v) with
  | Raised e => Raised e
  | Returned title =>
      match adapt_option (Vacancy.description v) with
      | Raised e => Raised e
      | Returned description =>
          match adapt (default status_default (Vacancy.status v)) with
          | Raised e => Raised e
          | Returned status =>
              Returned (fun i => {| VacancyRow.id := i;
                                    VacancyRow.title := title;
                                    VacancyRow.description := description;
                                    VacancyRow.status := status |})
          end
      end
  end.

Definition candidate_values (c : Candidate.t) : Outcome (Z -> CandidateRow.t) :=
  match adapt (Candidate.full_name c) with
  | Raised e => Raised e
  | Returned full_name =>
      match adapt (Candidate.email c) with
      | Raised e => Raised e
      | Returned email =>
          match adapt_option (Candidate.phone c) with
          | Raised e => Raised e
          | Returned phone =>
              match adapt_option (Candidate.city c) with
              | Raised e => Raised e
              | Returned city =>
                  Returned (fun i => {| CandidateRow.id := i;
                                        CandidateRow.full_name := full_name;
                                        CandidateRow.email := email;
                                        CandidateRow.phone := phone;
                                        CandidateRow.city := city |})
              end
          end
      end
  end.

(** The emails a table stores. *)
Definition emails (t : Table CandidateRow.t) : list string :=
  (fun r => Text.chars (CandidateRow.email r)) <$> rows t.

(** INSERT INTO vacancies.  The driver adapts the values, the primary key is
    drawn, and the primary key index rejects an [id] that is already
    stored. *)
Definition insert_vacancy (v : Vacancy.t) (t : Table VacancyRow.t)
  : Table VacancyRow.t * Outcome VacancyRow.t :=
  match vacancy_values v with
  | Raised e => (t, Raised e)
  | Returned row =>
      match primary_key (Vacancy.id v) t with
      | Raised e => (t, Raised e)
      | Returned (i, t1) =>
          if bool_decide (i ∈ VacancyRow.id <$> rows t1)
          then (t1, Raised (IntegrityError "vacancies_pkey"))
          else (append_row (row i) t1, Returned (row i))
      end
  end.

(** An entry of a btree index is at most a third of a page, 2704 bytes, of
    which 12 are its headers: an address of up to 2692 bytes fits.  (The
    server tries to compress a longer one before it gives up; the model takes
    the address as it is sent.) *)
Definition max_index_entry : nat := 2692.

Definition index_entry_fits (s : string) : bool :=
  (String.length s <=? max_index_entry)%nat.

(** INSERT INTO candidates.  Besides the primary key, the unique index on
    [email] rejects an address that is already stored, and one that does not
    fit in an entry of the index. *)
Definition insert_candidate (c : Candidate.t) (t : Table CandidateRow.t)
  : Table CandidateRow.t * Outcome CandidateRow.t :=
  match candidate_values c with
  | Raised e => (t, Raised e)
  | Returned row =>
      match primary_key (Candidate.id c) t with
      | Raised e => (t, Raised e)
      | Returned (i, t1) =>
          if bool_decide (i ∈ CandidateRow.id <$> rows t1)
          then (t1, Raised (IntegrityError "candidates_pkey"))
          else if bool_decide (Candidate.email c ∈ emails t1)
          then (t1, Raised (IntegrityError "ix_candidates_email"))
          else if index_entry_fits (Candidate.email c)
          then (append_row (row i) t1, Returned (row i))
          else (t1, Raised (OperationalError "index row size exceeds btree maximum"))
      end
  end.

(** The INSERT of one instance, on the table of its class; the instance comes
    back with the primary key it was given.  The driver refuses the values
    before the database is asked for the table. *)
Definition INSERT (i : Instance) (d : Database) : Database * Outcome Instance :=
  match i with
  | AVacancy v =>
      match vacancy_values v, vacancies d with
      | Raised e, _ => (d, Raised e)
      | Returned _, None => (d, Raised (ProgrammingError "vacancies"))
      | Returned _, Some t =>
          match insert_vacancy v t with
          | (t1, Returned r) =>
              ({| vacancies := Some t1; candidates := candidates d |},
               Returned (AVacancy {| Vacancy.id := Some (VacancyRow.id r);
                                     Vacancy.title := Vacancy.title v;
                                     Vacancy.description := Vacancy.description v;
                                     Vacancy.status := Vacancy.status v |}))
          | (t1, Raised e) =>
              ({| vacancies := Some t1; candidates := candidates d |}, Raised e)
          end
      end
  | ACandidate c =>
      match candidate_values c, candidates d with
      | Raised e, _ => (d, Raised e)
      | Returned _, None => (d, Raised (ProgrammingError "candidates"))
      | Returned _, Some t =>
          match insert_candidate c t with
          | (t1, Returned r) =>
              ({| vacancies := vacancies d; candidates := Some t1 |},
               Returned (ACandidate {| Candidate.id := Some (CandidateRow.id r);
                                       Candidate.full_name := Candidate.full_name c;
                                       Candidate.email := Candidate.email c;
                                       Candidate.phone := Candidate.phone c;
                                       Candidate.city := Candidate.city c |}))
          | (t1, Raised e) =>
              ({| vacancies := vacancies d; candidates := Some t1 |}, Raised e)
          end
      end
  end.

(** SELECT by primary key, to load an instance again. *)
Definition SELECT_pk (i : Instance) (d : Database) : Outcome Instance :=
  match i with
  | AVacancy v =>
      match vacancies d, Vacancy.id v with
      | None, _ => Raised (ProgrammingError "vacancies")
      | Some t, Some k =>
          match List.find (fun r => bool_decide (VacancyRow.id r = k)) (rows t) with
          | Some r => Returned (AVacancy (Vacancy.load r))
          | None => Raised (InvalidRequestError "Could not refresh instance")
          end
      | Some _, None => Raised (InvalidRequestError "Could not refresh instance")
      end
  | ACandidate c =>
      match candidates d, Candidate.id c with
      | None, _ => Raised (ProgrammingError "candidates")
      | Some t, Some k =>
          match List.find (fun r => bool_decide (CandidateRow.id r = k)) (rows t) with
          | Some r => Returned (ACandidate (Candidate.load r))
          | None => Raised (InvalidRequestError "Could not refresh instance")
          end
      | Some _, None => Raised (InvalidRequestError "Could not refresh instance")
      end
  end.

(** The flush of a unit of work: one INSERT per pending instance, in the
    order they were added, stopping at the first that raises. *)
Fixpoint flush (objs : list Tracked) (d : Database)
  : Database * Outcome (list Tracked) :=
  match objs with
  | [] => (d, Returned [])
  | o :: rest =>
      if pending o then
        match INSERT (inst o) d with
        | (d1, Raised e) => (d1, Raised e)
        | (d1, Returned i) =>
            match flush rest d1 with
            | (d2, Raised e) => (d2, Raised e)
            | (d2, Returned rest') =>
                (d2, Returned ({| inst := i; pending := false |} :: rest'))
            end
        end
      else
        match flush rest d with
        | (d1, Raised e) => (d1, Raised e)
        | (d1, Returned rest') => (d1, Returned (o :: rest'))
        end
  end.

(** ROLLBACK: the rows go back to what they were; the sequences stay where
    the failed transaction left them. *)
Definition rollback_table {R : Type} (before after : option (Table R))
  : option (Table R) :=
  match before, after with
  | Some b, Some a => Some {| rows := rows b; serial := serial a |}
  | _, _ => before
  end.

Definition rollback (before after : Database) : Database :=
  {| vacancies := rollback_table (vacancies before) (vacancies after);
     candidates := rollback_table (candidates before) (candidates after) |}.

(** ** The query builder *)

Module Query.
(** A criterion [column == value], with the Python string it compares to. *)
Record criterion (R : Type) : Type :=
  { column : R -> Text.t; value : string }.
Arguments column {R} _.
Arguments value {R} _.

(** A query on one mapped class: where its rows live, how a row becomes an
    instance, and the criteria collected so far.  Nothing is read until
    [all] or [first]. *)
Record t (R : Type) : Type :=
  { relation : string;
    from : Database -> option (Table R);
    load : R -> Instance;
    where_ : list (criterion R);
    offset_ : option Z;
    limit_ : option Z }.
Arguments relation {R} _.
Arguments from {R} _.
Arguments load {R} _.
Arguments where_ {R} _.
Arguments offset_ {R} _.
Arguments limit_ {R} _.

Definition filter {R : Type} (crit : criterion R) (q : t R) : t R :=
  {| relation := relation q; from := from q; load := load q;
     where_ := where_ q ++ [crit];
     offset_ := offset_ q; limit_ := limit_ q |}.

Definition offset {R : Type} (n : Z) (q : t R) : t R :=
  {| relation := relation q; from := from q; load := load q;
     where_ := where_ q; offset_ := Some n; limit_ := limit_ q |}.

Definition limit {R : Type} (n : Z) (q : t R) : t R :=
  {| relation := relation q; from := from q; load := load q;
     where_ := where_ q; offset_ := offset_ q; limit_ := Some n |}.

(** A row passes when every criterion holds of it. *)
Definition passes {R : Type} (q : t R) (r : R) : bool :=
  forallb (fun c => bool_decide (Text.chars (column c r) = value c)) (where_ q).

(** The strings the statement carries as parameters. *)
Definition parameters {R : Type} (q : t R) : list string :=
  value <$> where_ q.

(** OFFSET and LIMIT are bigint values. *)
Definition max_bigint : Z := 9223372036854775807.

Definition in_bigint (n : Z) : bool :=
  (- max_bigint - 1 <=? n)%Z && (n <=? max_bigint)%Z.

Definition out_of_range (o : option Z) : bool :=
  match o with
  | Some n => negb (in_bigint n)
  | None => false
  end.

Definition negative (o : option Z) : bool :=
  match o with
  | Some n => (n <? 0)%Z
  | None => false
  end.

Definition skip_rows {R : Type} (o : option Z) (l : list R) : list R :=
  match o with
  | Some n => drop (Z.to_nat n) l
  | None => l
  end.

Definition keep_rows {R : Type} (o : option Z) (l : list R) : list R :=
  match o with
  | Some n => take (Z.to_nat n) l
  | None => l
  end.

(** SELECT ... WHERE ... LIMIT ... OFFSET ...: the rows that pass, in
    insertion order, without the first [offset_] of them and then at most
    [limit_] of them.  The driver refuses a parameter that holds NUL; the
    database refuses a relation that does not exist, an OFFSET or LIMIT that
    is no bigint, and a negative OFFSET or LIMIT. *)
Definition select {R : Type} (q : t R) (d : Database) : Outcome (list Instance) :=
  if existsb has_NUL (parameters q)
  then Raised (ValueError "A string literal cannot contain NUL (0x00) characters.")
  else
    match from q d with
    | None => Raised (ProgrammingError (relation q))
    | Some tb =>
        if out_of_range (offset_ q) || out_of_range (limit_ q)
        then Raised (DataError "bigint out of range")
        else if negative (offset_ q)
        then Raised (DataError "OFFSET must not be negative")
        else if negative (limit_ q)
        then Raised (DataError "LIMIT must not be negative")
        else Returned (load q <$>
               keep_rows (limit_ q)
                 (skip_rows (offset_ q) (List.filter (passes q) (rows tb))))
    end.

(** [all()]: run the query; the world stays as it is. *)
Definition all {R : Type} (q : t R) : M (list Instance) :=
  fun w => (w, select q (database w)).

(** [first()]: the query with LIMIT 1; its row, or [None]. *)
Definition first {R : Type} (q : t R) : M (option Instance) :=
  l <- all (limit 1 q) ;; ret (head l).
End Query.

(** ** The session *)

Definition no_work : UnitOfWork := {| tracked := [] |}.

(** [SessionLocal()]: a new session object. *)
Definition SessionLocal : M nat :=
  fun w =>
    let db := fresh (dom (sessions w)) in
    ({| database := database w;
        sessions := <[db := no_work]> (sessions w) |}, Returned db).

Module Session.
Definition work (db : nat) (w : World) : UnitOfWork :=
  default no_work (sessions w !! db).

(** [db.query(Vacancy)] *)
Definition query_Vacancy (db : nat) : Query.t VacancyRow.t :=
  {| Query.relation := "vacancies";
     Query.from := vacancies;
     Query.load := fun r => AVacancy (Vacancy.load r);
     Query.where_ := [];
     Query.offset_ := None;
     Query.limit_ := None |}.

(** [db.query(Candidate)] *)
Definition query_Candidate (db : nat) : Query.t CandidateRow.t :=
  {| Query.relation := "candidates";
     Query.from := candidates;
     Query.load := fun r => ACandidate (Candidate.load r);
     Query.where_ := [];
     Query.offset_ := None;
     Query.limit_ := None |}.

(** [db.add(obj)]: the session now tracks the instance as pending.  The
    number returned stands for the reference the caller keeps to it. *)
Definition add (db : nat) (obj : Instance) : M nat :=
  fun w =>
    let u := work db w in
    ({| database := database w;
        sessions :=
          <[db := {| tracked := tracked u ++ [{| inst := obj; pending := true |}] |}]>
            (sessions w) |},
     Returned (length (tracked u))).

(** [db.commit()]: flush, then COMMIT; when an INSERT raises, ROLLBACK and
    raise again, the instances staying as they were. *)
Definition commit (db : nat) : M unit :=
  fun w =>
    match flush (tracked (work db w)) (database w) with
    | (d, Returned objs) =>
        ({| database := d;
            sessions := <[db := {| tracked := objs |}]> (sessions w) |},
         Returned tt)
    | (d, Raised e) =>
        ({| database := rollback (database w) d; sessions := sessions w |},
         Raised e)
    end.

(** [db.refresh(obj)]: load the attributes of a persistent instance again. *)
Definition refresh (db : nat) (obj : nat) : M unit :=
  fun w =>
    let u := work db w in
    match tracked u !! obj with
    | None => (w, Raised (InvalidRequestError "Instance is not persistent"))
    | Some o =>
        if pending o
        then (w, Raised (InvalidRequestError "Instance is not persistent"))
        else
          match SELECT_pk (inst o) (database w) with
          | Raised e => (w, Raised e)
          | Returned i =>
              ({| database := database w;
                  sessions :=
                    <[db := {| tracked :=
                                 <[obj := {| inst := i; pending := false |}]>
                                   (tracked u) |}]> (sessions w) |},
               Returned tt)
          end
    end.

(** Reading the instance behind a reference. *)
Definition instance (db : nat) (obj : nat) : M Instance :=
  fun w =>
    match tracked (work db w) !! obj with
    | Some o => (w, Returned (inst o))
    | None => (w, Raised (InvalidRequestError "Instance is not tracked"))
    end.

(** [db.close()]: the session lets go of its instances and its connection. *)
Definition close (db : nat) : M unit :=
  fun w =>
    ({| database := database w; sessions := delete db (sessions w) |},
     Returned tt).
End Session.

(** ** Schema creation *)

(** CREATE TABLE, which the database refuses for a relation that exists. *)
Definition CREATE_TABLE_candidates : M unit :=
  fun w =>
    match candidates (database w) with
    | Some _ => (w, Raised (ProgrammingError "candidates"))
    | None =>
        ({| database := {| vacancies := vacancies (database w);
                           candidates := Some empty_table |};
            sessions := sessions w |}, Returned tt)
    end.

Definition CREATE_TABLE_vacancies : M unit :=
  fun w =>
    match vacancies (database w) with
    | Some _ => (w, Raised (ProgrammingError "vacancies"))
    | None =>
        ({| database := {| vacancies := Some empty_table;
                           candidates := candidates (database w) |};
            sessions := sessions w |}, Returned tt)
    end.

Definition has_table {R : Type} (from : Database -> option (Table R)) : M bool :=
  fun w => (w, Returned (bool_decide (is_Some (from (database w))))).

(** [Base.metadata.create_all(bind=engine)]: for each table of the metadata,
    look whether it exists and create it when it does not. *)
Definition create_all : M unit :=
  c <- has_table candidates ;;
  (if c then ret tt else CREATE_TABLE_candidates) ;;;
  v <- has_table vacancies ;;
  (if v then ret tt else CREATE_TABLE_vacancies).

(** ** The dependency and the path operation functions *)

(** [get_db] is a generator: it makes a session, yields it to the framework,
    which calls the endpoint with it, and is resumed (or thrown into) when
    the endpoint is done, so that its [finally] closes the session. *)
Definition get_db {A : Type} (endpoint : nat -> M A) : M A :=
  db <- SessionLocal ;;
  try_finally (endpoint db) (Session.close db).

Definition health : M (list (string * string)) :=
  ret [("status", "ok")].

Definition list_vacancies (skip limit : option Z) (db : nat)
  : M (list Instance) :=
  let skip := default 0%Z skip in
  let limit := default 100%Z limit in
  Query.all (Query.limit limit (Query.offset skip (Session.query_Vacancy db))).

Definition create_vacancy (vacancy : VacancyCreate.t) (db : nat) : M Instance :=
  let db_vacancy := AVacancy (VacancyCreate.construct vacancy) in
  db_vacancy <- Session.add db db_vacancy ;;
  Session.commit db ;;;
  Session.refresh db db_vacancy ;;;
  Session.instance db db_vacancy.

Definition list_candidates (skip limit : option Z) (db : nat)
  : M (list Instance) :=
  let skip := default 0%Z skip in
  let limit := default 100%Z limit in
  Query.all (Query.limit limit (Query.offset skip (Session.query_Candidate db))).

Definition create_candidate (candidate : CandidateCreate.t) (db : nat)
  : M Instance :=
  existing <-
    Query.first
      (Query.filter
         {| Query.column := CandidateRow.email;
            Query.value := CandidateCreate.email candidate |}
         (Session.query_Candidate db)) ;;
  match existing with
  | Some _ =>
      raise (HTTPException 400 "Candidate with this email already exists")
  | None =>
      let db_candidate := ACandidate (CandidateCreate.construct candidate) in
      db_candidate <- Session.add db db_candidate ;;
      Session.commit db ;;;
      Session.refresh db db_candidate ;;;
      Session.instance db db_candidate
  end.

(** ** The routes *)

Inductive Request : Type :=
| GET_health
| GET_vacancies (skip limit : option Z)
| POST_vacancies (body : VacancyBody.t)
| GET_candidates (skip limit : option Z)
| POST_candidates (body : CandidateBody.t).

Inductive Response : Type :=
| JSON_object (members : list (string * string))
| JSON_vacancies (l : list VacancyRead.t)
| JSON_vacancy (v : VacancyRead.t)
| JSON_candidates (l : list CandidateRead.t)
| JSON_candidate (c : CandidateRead.t).

(** [response_model=List[...]]: every instance through the schema. *)
Fixpoint each {A B : Type} (f : A -> Outcome B) (l : list A) : Outcome (list B) :=
  match l with
  | [] => Returned []
  | a :: rest =>
      match f a with
      | Raised e => Raised e
      | Returned b =>
          match each f rest with
          | Raised e => Raised e
          | Returned bs => Returned (b :: bs)
          end
      end
  end.

(** One request.  The framework enters the dependencies of the endpoint,
    validates the body against the request schema, calls the endpoint, puts
    what it returns through the response model, and leaves the dependencies,
    whatever happened in between. *)
Definition handle (r : Request) : M Response :=
  match r with
  | GET_health =>
      p <- health ;; ret (JSON_object p)
  | GET_vacancies skip limit =>
      get_db (fun db =>
        l <- list_vacancies skip limit db ;;
        l <- lift (each VacancyRead.from_orm l) ;;
        ret (JSON_vacancies l))
  | POST_vacancies body =>
      get_db (fun db =>
        vacancy <- lift (VacancyCreate.validate body) ;;
        v <- create_vacancy vacancy db ;;
        v <- lift (VacancyRead.from_orm v) ;;
        ret (JSON_vacancy v))
  | GET_candidates skip limit =>
      get_db (fun db =>
        l <- list_candidates skip limit db ;;
        l <- lift (each CandidateRead.from_orm l) ;;
        ret (JSON_candidates l))
  | POST_candidates body =>
      get_db (fun db =>
        candidate <- lift (CandidateCreate.validate body) ;;
        c <- create_candidate candidate db ;;
        c <- lift (CandidateRead.from_orm c) ;;
        ret (JSON_candidate c))
  end.

(** The process starts by importing the module, which creates the schema. *)
Definition startup : M unit := create_all.

(** A server run: the requests one after the other. *)
Fixpoint serve (rs : list Request) (w : World) : World * list (Outcome Response) :=
  match rs with
  | [] => (w, [])
  | r :: rest =>
      let '(w1, o) := handle r w in
      let '(w2, os) := serve rest w1 in
      (w2, o :: os)
  end.

(** A database nobody has touched, and no session. *)
Definition blank : World :=
  {| database := {| vacancies := None; candidates := None |};
     sessions := ∅ |}.

(** The world the first request finds. *)
Definition booted : World := fst (startup blank).

(** ** Vocabulary of the specification *)

(** No two stored candidates share an email. *)
Definition unique_emails (d : Database) : Prop :=
  forall t, candidates d = Some t -> NoDup (emails t).

(** The sequence of a table is ahead of every key stored in it, and keys are
    positive: what the sequence will issue has not been issued. *)
Definition sequence_ahead {R : Type} (key : R -> Z) (t : Table R) : bool :=
  (0 <? serial t)%Z && forallb (fun r => (0 <? key r)%Z && (key r <? serial t)%Z) (rows t).

(** Every row of the table before is a row of the table after, at the place
    it had: rows are only ever added, behind the others. *)
Definition kept {R : Type} (before after : option (Table R)) : Prop :=
  forall t, before = Some t ->
    exists t' added, after = Some t' /\ rows t' = rows t ++ added.

Definition records_kept (d d' : Database) : Prop :=
  kept (vacancies d) (vacancies d') /\ kept (candidates d) (candidates d').

(** The worlds a running server can be in. *)
Inductive reachable : World -> Prop :=
| reachable_booted : reachable booted
| reachable_handle r w : reachable w -> reachable (fst (handle r w)).

Definition read_vacancy (r : VacancyRow.t) : VacancyRead.t :=
  {| VacancyRead.id := VacancyRow.id r;
     VacancyRead.title := Text.chars (VacancyRow.title r);
     VacancyRead.description := Text.chars <$> VacancyRow.description r;
     VacancyRead.status := Text.chars (VacancyRow.status r) |}.

Definition read_candidate (r : CandidateRow.t) : CandidateRead.t :=
  {| CandidateRead.id := CandidateRow.id r;
     CandidateRead.full_name := Text.chars (CandidateRow.full_name r);
     CandidateRead.email := Text.chars (CandidateRow.email r);
     CandidateRead.phone := Text.chars <$> CandidateRow.phone r;
     CandidateRead.city := Text.chars <$> CandidateRow.city r |}.

(** Both tables exist and their sequences are ahead of their keys. *)
Definition sound (d : Database) : Prop :=
  exists tv tc,
    vacancies d = Some tv /\ candidates d = Some tc /\
    sequence_ahead VacancyRow.id tv = true /\
    sequence_ahead CandidateRow.id tc = true.

(** The identifiers that answers to POST /vacancies have carried. *)
Fixpoint issued_vacancy_ids (os : list (Outcome Response)) : list Z :=
  match os with
  | [] => []
  | Returned (JSON_vacancy v) :: rest => VacancyRead.id v :: issued_vacancy_ids rest
  | _ :: rest => issued_vacancy_ids rest
  end.

(** An instance that has not been given a primary key. *)
Definition transient (i : Instance) : Prop :=
  match i with
  | AVacancy v => Vacancy.id v = None
  | ACandidate c => Candidate.id c = None
  end.


(** The sequences never move back. *)
Definition advanced {R : Type} (before after : option (Table R)) : Prop :=
  forall t, before = Some t ->
    exists t', after = Some t' /\ (serial t <= serial t')%Z.

(** A small world to try the statements on: two vacancies, one candidate. *)
Definition sample_vacancies : Table VacancyRow.t :=
  {| rows := [ {| VacancyRow.id := 1; VacancyRow.title := text "Engineer";
                  VacancyRow.description := None;
                  VacancyRow.status := text "open" |};
               {| VacancyRow.id := 2; VacancyRow.title := text "Recruiter";
                  VacancyRow.description := Some (text "Sourcing");
                  VacancyRow.status := text "closed" |} ];
     serial := 3 |}.

Definition sample_candidates : Table CandidateRow.t :=
  {| rows := [ {| CandidateRow.id := 1;
                  CandidateRow.full_name := text "Ada King";
                  CandidateRow.email := text "ada@example.org";
                  CandidateRow.phone := None;
                  CandidateRow.city := Some (text "London") |} ];
     serial := 2 |}.

Definition sample_world : World :=
  {| database := {| vacancies := Some sample_vacancies;
                    candidates := Some sample_candidates |};
     sessions := ∅ |}.

Definition sample_payload (email : string) : CandidateCreate.t :=
  {| CandidateCreate.full_name := "Ada Lovelace";
     CandidateCreate.email := email;
     CandidateCreate.phone := None;
     CandidateCreate.city := None |}.

Definition sample_body (email : string) : CandidateBody.t :=
  {| CandidateBody.full_name := Str "Ada Lovelace";
     CandidateBody.email := Str email;
     CandidateBody.phone := Missing;
     CandidateBody.city := Null |}.

(** The keys of a table grow along its rows. *)
Definition ascending {R : Type} (key : R -> Z) (t : Table R) : Prop :=
  forall i j ri rj,
    i < j -> rows t !! i = Some ri -> rows t !! j = Some rj ->
    (key ri < key rj)%Z.

(** The answers a request can get from a server that has booted: a value;
    the refusal of a stored email; the refusal of a body that does not
    validate, on the field that fails; the refusal by the driver of a string
    that holds NUL; the refusal by the database of a page that is no bigint
    or is negative, of an INSERT when the sequence has ended, or of an
    address that does not fit in the index. *)
Definition foreseen (o : Outcome Response) : Prop :=
  match o with
  | Returned _ => True
  | Raised (HTTPException c d) =>
      c = 400%Z /\ d = "Candidate with this email already exists"
  | Raised (RequestValidationError f) =>
      f = "title" \/ f = "full_name" \/ f = "email"
  | Raised (ValueError m) =>
      m = "A string literal cannot contain NUL (0x00) characters."
  | Raised (DataError m) =>
      m = "bigint out of range" \/
      m = "OFFSET must not be negative" \/
      m = "LIMIT must not be negative" \/
      m = "nextval: reached maximum value of sequence"
  | Raised (OperationalError m) =>
      m = "index row size exceeds btree maximum"
  | Raised _ => False
  end.

(** In both tables the primary keys grow along the rows. *)
Definition ids_ascending (d : Database) : Prop :=
  (forall t, vacancies d = Some t -> ascending VacancyRow.id t) /\
  (forall t, candidates d = Some t -> ascending CandidateRow.id t).


(** Whether a member of a body is a string that holds NUL. *)
Definition field_has_NUL (f : Field) : bool :=
  match f with
  | Str s => has_NUL s
  | _ => false
  end.

(** The value the sequence of a table will hand out next. *)
Definition next_id {R : Type} (o : option (Table R)) : Z :=
  match o with
  | Some t => serial t
  | None => 1
  end.

(** The identifiers that answers to POST /candidates have carried. *)
Fixpoint issued_candidate_ids (os : list (Outcome Response)) : list Z :=
  match os with
  | [] => []
  | Returned (JSON_candidate c) :: rest =>
      CandidateRead.id c :: issued_candidate_ids rest
  | _ :: rest => issued_candidate_ids rest
  end.

(** Whether an optional attribute is a string that holds NUL. *)
Definition option_has_NUL (o : option string) : bool :=
  match o with
  | Some s => has_NUL s
  | None => false
  end.

(** * Proofs *)

(** ** Running an endpoint under [get_db] *)

Lemma world_eta (w : World) :
  {| database := database w; sessions := sessions w |} = w.
Proof. by destruct w. Qed.

Lemma fresh_session (w : World) : sessions w !! fresh (dom (sessions w)) = None.
Proof. apply not_elem_of_dom, is_fresh. Qed.

(** An endpoint that only reads: the world comes back as it was. *)
Lemma get_db_reader {A : Type} (f : Database -> Outcome A) (endpoint : nat -> M A) :
  (forall db w, endpoint db w = (w, f (database w))) ->
  forall w, get_db endpoint w = (w, f (database w)).
Proof.
  intros Hend w. unfold get_db, bind, SessionLocal, try_finally.
  rewrite Hend. cbn.
  rewrite delete_insert_id by apply fresh_session.
  by rewrite world_eta.
Qed.

(** Steps that do not touch the world can be taken out of the dependency:
    validation before the endpoint, the response model after it. *)
Lemma get_db_pure_head {A B : Type} (o : Outcome A) (k : A -> nat -> M B)
    (w : World) :
  get_db (fun db => a <- lift o ;; k a db) w = (a <- lift o ;; get_db (k a)) w.
Proof.
  destruct o as [a|e]; [reflexivity|].
  unfold get_db, bind, SessionLocal, try_finally, lift. cbn.
  rewrite delete_insert_id by apply fresh_session.
  by rewrite world_eta.
Qed.

Lemma get_db_pure_tail {A B : Type} (endpoint : nat -> M A) (k : A -> M B)
    (f : A -> Outcome B) :
  (forall a w, k a w = (w, f a)) ->
  forall w,
    get_db (fun db => a <- endpoint db ;; k a) w =
    (a <- get_db endpoint ;; k a) w.
Proof.
  intros Hk w. unfold get_db, bind, SessionLocal, try_finally.
  destruct (endpoint _ _) as [w1 [a|e]]; cbn; [|reflexivity].
  by rewrite !Hk.
Qed.

(** The routes, with the pure steps taken out. *)
Lemma handle_steps (r : Request) (w : World) :
  handle r w =
  match r with
  | GET_health =>
      p <- health ;; ret (JSON_object p)
  | GET_vacancies skip limit =>
      l <- get_db (list_vacancies skip limit) ;;
      l <- lift (each VacancyRead.from_orm l) ;;
      ret (JSON_vacancies l)
  | POST_vacancies body =>
      vacancy <- lift (VacancyCreate.validate body) ;;
      v <- get_db (create_vacancy vacancy) ;;
      v <- lift (VacancyRead.from_orm v) ;;
      ret (JSON_vacancy v)
  | GET_candidates skip limit =>
      l <- get_db (list_candidates skip limit) ;;
      l <- lift (each CandidateRead.from_orm l) ;;
      ret (JSON_candidates l)
  | POST_candidates body =>
      candidate <- lift (CandidateCreate.validate body) ;;
      c <- get_db (create_candidate candidate) ;;
      c <- lift (CandidateRead.from_orm c) ;;
      ret (JSON_candidate c)
  end w.
Proof.
  destruct r as [|skip limit|body|skip limit|body]; cbn [handle].
  - reflexivity.
  - apply (get_db_pure_tail _ _
             (fun l => match each VacancyRead.from_orm l with
                       | Returned l => Returned (JSON_vacancies l)
                       | Raised e => Raised e
                       end)).
    intros l w0. unfold bind, lift, ret. by destruct (each _ l).
  - rewrite get_db_pure_head. unfold bind at 1 3. unfold lift at 1 3.
    destruct (VacancyCreate.validate body) as [vacancy|e]; [|reflexivity].
    apply (get_db_pure_tail _ _
             (fun v => match VacancyRead.from_orm v with
                       | Returned v => Returned (JSON_vacancy v)
                       | Raised e => Raised e
                       end)).
    intros v w0. unfold bind, lift, ret. by destruct (VacancyRead.from_orm v).
  - apply (get_db_pure_tail _ _
             (fun l => match each CandidateRead.from_orm l with
                       | Returned l => Returned (JSON_candidates l)
                       | Raised e => Raised e
                       end)).
    intros l w0. unfold bind, lift, ret. by destruct (each _ l).
  - rewrite get_db_pure_head. unfold bind at 1 3. unfold lift at 1 3.
    destruct (CandidateCreate.validate body) as [candidate|e]; [|reflexivity].
    apply (get_db_pure_tail _ _
             (fun c => match CandidateRead.from_orm c with
                       | Returned c => Returned (JSON_candidate c)
                       | Raised e => Raised e
                       end)).
    intros c w0. unfold bind, lift, ret. by destruct (CandidateRead.from_orm c).
Qed.

Lemma get_db_list_vacancies skip limit w :
  get_db (list_vacancies skip limit) w =
  (w, Query.select
        (Query.limit (default 100%Z limit)
           (Query.offset (default 0%Z skip) (Session.query_Vacancy 0)))
        (database w)).
Proof.
  apply (get_db_reader (fun d => Query.select _ d)). reflexivity.
Qed.

Lemma get_db_list_candidates skip limit w :
  get_db (list_candidates skip limit) w =
  (w, Query.select
        (Query.limit (default 100%Z limit)
           (Query.offset (default 0%Z skip) (Session.query_Candidate 0)))
        (database w)).
Proof.
  apply (get_db_reader (fun d => Query.select _ d)). reflexivity.
Qed.

(** The tail the two creating endpoints share: add, commit, refresh, and
    read the instance back.  Only the session [db] and the database move. *)
Lemma persist_run (obj : Instance) (db : nat) (w : World) :
  sessions w !! db = Some no_work ->
  exists u,
    (ref <- Session.add db obj ;;
     Session.commit db ;;;
     Session.refresh db ref ;;;
     Session.instance db ref) w =
    match INSERT obj (database w) with
    | (d1, Returned i) =>
        ({| database := d1; sessions := <[db := u]> (sessions w) |},
         SELECT_pk i d1)
    | (d1, Raised e) =>
        ({| database := rollback (database w) d1;
            sessions := <[db := u]> (sessions w) |}, Raised e)
    end.
Proof.
  intros Hdb.
  unfold bind, Session.add, Session.commit, Session.refresh, Session.instance,
    Session.work.
  cbn. rewrite Hdb. cbn. rewrite lookup_insert_eq. cbn.
  destruct (INSERT obj (database w)) as [d1 [i|e]]; cbn.
  - rewrite insert_insert_eq, lookup_insert_eq. cbn.
    destruct (SELECT_pk i d1) as [i'|e]; cbn.
    + rewrite insert_insert_eq, lookup_insert_eq. cbn. eauto.
    + eauto.
  - eauto.
Qed.

Lemma close_after_insert (d : Database) (u : UnitOfWork) (w : World) :
  {| database := d;
     sessions :=
       delete (fresh (dom (sessions w)))
         (<[fresh (dom (sessions w)) := u]>
            (<[fresh (dom (sessions w)) := no_work]> (sessions w))) |} =
  {| database := d; sessions := sessions w |}.
Proof.
  rewrite insert_insert_eq, delete_insert_id by apply fresh_session.
  reflexivity.
Qed.

Lemma get_db_create_vacancy (vacancy : VacancyCreate.t) (w : World) :
  get_db (create_vacancy vacancy) w =
  match INSERT (AVacancy (VacancyCreate.construct vacancy)) (database w) with
  | (d1, Returned i) =>
      ({| database := d1; sessions := sessions w |}, SELECT_pk i d1)
  | (d1, Raised e) =>
      ({| database := rollback (database w) d1; sessions := sessions w |},
       Raised e)
  end.
Proof.
  unfold get_db, create_vacancy, SessionLocal.
  unfold bind at 1. unfold try_finally.
  set (k := fresh (dom (sessions w))).
  set (w1 := {| database := database w;
                sessions := <[k := no_work]> (sessions w) |}).
  destruct (persist_run (AVacancy (VacancyCreate.construct vacancy)) k w1)
    as [u Hu].
  { apply lookup_insert_eq. }
  rewrite Hu. subst w1. cbn [database sessions].
  destruct (INSERT _ (database w)) as [d1 [i|e]];
    cbn [Session.close database sessions]; subst k;
    by rewrite close_after_insert.
Qed.

Lemma get_db_create_candidate (candidate : CandidateCreate.t) (w : World) :
  get_db (create_candidate candidate) w =
  match
    Query.select
      (Query.limit 1
         (Query.filter
            {| Query.column := CandidateRow.email;
               Query.value := CandidateCreate.email candidate |}
            (Session.query_Candidate 0)))
      (database w)
  with
  | Raised e => (w, Raised e)
  | Returned (_ :: _) =>
      (w, Raised (HTTPException 400 "Candidate with this email already exists"))
  | Returned [] =>
      match INSERT (ACandidate (CandidateCreate.construct candidate)) (database w) with
      | (d1, Returned i) =>
          ({| database := d1; sessions := sessions w |}, SELECT_pk i d1)
      | (d1, Raised e) =>
          ({| database := rollback (database w) d1; sessions := sessions w |},
           Raised e)
      end
  end.
Proof.
  unfold get_db, create_candidate, SessionLocal.
  unfold bind at 1. unfold try_finally.
  set (k := fresh (dom (sessions w))).
  set (w1 := {| database := database w;
                sessions := <[k := no_work]> (sessions w) |}).
  unfold bind at 1. unfold Query.first, bind at 1, Query.all, ret.
  change (database w1) with (database w).
  change (Session.query_Candidate k) with (Session.query_Candidate 0).
  destruct (Query.select _ (database w)) as [[|x l]|e]; cbn [head].
  - destruct (persist_run (ACandidate (CandidateCreate.construct candidate)) k w1)
      as [u Hu].
    { apply lookup_insert_eq. }
    rewrite Hu. subst w1. cbn [database sessions].
    destruct (INSERT _ (database w)) as [d1 [i|e]];
      cbn [Session.close database sessions]; subst k;
      by rewrite close_after_insert.
  - subst w1 k. cbn. rewrite delete_insert_id by apply fresh_session.
    by rewrite world_eta.
  - subst w1 k. cbn. rewrite delete_insert_id by apply fresh_session.
    by rewrite world_eta.
Qed.

(** ** Text *)

Lemma adapt_Returned (s : string) (x : Text.t) :
  adapt s = Returned x -> Text.chars x = s.
Proof.
  unfold adapt. destruct (decide (has_NUL s = false)); [|done].
  by intros [= <-].
Qed.

Lemma adapt_clean (s : string) :
  has_NUL s = false -> exists x, adapt s = Returned x /\ Text.chars x = s.
Proof.
  intros Hclean. unfold adapt.
  destruct (decide (has_NUL s = false)) as [H|H]; [|done].
  by eexists.
Qed.

Lemma adapt_Raised (s : string) (e : Exn) :
  adapt s = Raised e ->
  has_NUL s = true /\
  e = ValueError "A string literal cannot contain NUL (0x00) characters.".
Proof.
  unfold adapt. destruct (decide (has_NUL s = false)) as [H|H]; [done|].
  intros [= <-]. split; [|done]. by destruct (has_NUL s).
Qed.

Lemma adapt_option_Returned (o : option string) (x : option Text.t) :
  adapt_option o = Returned x -> Text.chars <$> x = o.
Proof.
  destruct o as [s|]; cbn; [|by intros [= <-]].
  destruct (adapt s) as [y|e] eqn:Hy; [|done].
  intros [= <-]. cbn. by rewrite (adapt_Returned s y Hy).
Qed.

Lemma adapt_option_clean (o : option string) :
  option_has_NUL o = false ->
  exists x, adapt_option o = Returned x /\ Text.chars <$> x = o.
Proof.
  destruct o as [s|]; cbn; [|by eexists].
  intros (y & -> & Hy)%adapt_clean. eexists. split; [done|]. cbn. by rewrite Hy.
Qed.

Lemma adapt_option_Raised (o : option string) (e : Exn) :
  adapt_option o = Raised e ->
  option_has_NUL o = true /\
  e = ValueError "A string literal cannot contain NUL (0x00) characters.".
Proof.
  destruct o as [s|]; cbn; [|done].
  destruct (adapt s) as [y|e'] eqn:Hy; [done|].
  intros [= <-]. by apply adapt_Raised.
Qed.

Lemma stored_text_clean (x : Text.t) : has_NUL (Text.chars x) = false.
Proof. by destruct x. Qed.

(** ** The storage layer *)

Lemma sequence_ahead_spec {R : Type} (key : R -> Z) (t : Table R) :
  sequence_ahead key t = true <->
  (0 < serial t)%Z /\ Forall (fun r => (0 < key r < serial t)%Z) (rows t).
Proof.
  unfold sequence_ahead.
  rewrite andb_true_iff, Z.ltb_lt, forallb_forall, Forall_forall.
  split; intros [Hs Hr]; split; try done; intros r Hin.
  - apply list_elem_of_In, Hr in Hin.
    apply andb_true_iff in Hin as [H1 H2].
    apply Z.ltb_lt in H1, H2. lia.
  - apply list_elem_of_In, Hr in Hin.
    apply andb_true_iff. rewrite !Z.ltb_lt. lia.
Qed.

Lemma serial_not_stored {R : Type} (key : R -> Z) (t : Table R) :
  sequence_ahead key t = true -> serial t ∉ key <$> rows t.
Proof.
  intros [_ Hr]%sequence_ahead_spec Hin.
  apply list_elem_of_fmap in Hin as (r & Heq & Hin).
  rewrite Forall_forall in Hr. apply Hr in Hin. lia.
Qed.

Lemma find_appended {R : Type} (key : R -> Z) (l : list R) (r : R) :
  key r ∉ key <$> l ->
  List.find (fun x => bool_decide (key x = key r)) (l ++ [r]) = Some r.
Proof.
  induction l as [|x l IH]; cbn; intros Hnot.
  - by rewrite bool_decide_eq_true_2.
  - rewrite not_elem_of_cons in Hnot. destruct Hnot as [Hne Hnot].
    rewrite bool_decide_eq_false_2 by congruence. auto.
Qed.

(** What the values of an INSERT are, read back as strings. *)
Lemma vacancy_values_Returned (v : Vacancy.t) (row : Z -> VacancyRow.t) :
  vacancy_values v = Returned row ->
  forall i,
    read_vacancy (row i) =
    {| VacancyRead.id := i;
       VacancyRead.title := Vacancy.title v;
       VacancyRead.description := Vacancy.description v;
       VacancyRead.status := default status_default (Vacancy.status v) |}.
Proof.
  unfold vacancy_values.
  destruct (adapt (Vacancy.title v)) as [x|] eqn:Hx; [|done].
  destruct (adapt_option (Vacancy.description v)) as [y|] eqn:Hy; [|done].
  destruct (adapt (default _ _)) as [z|] eqn:Hz; [|done].
  intros [= <-] i. unfold read_vacancy. cbn.
  by rewrite (adapt_Returned _ _ Hx), (adapt_option_Returned _ _ Hy),
    (adapt_Returned _ _ Hz).
Qed.

Lemma vacancy_values_clean (v : Vacancy.t) :
  has_NUL (Vacancy.title v) = false ->
  option_has_NUL (Vacancy.description v) = false ->
  option_has_NUL (Vacancy.status v) = false ->
  exists row, vacancy_values v = Returned row.
Proof.
  intros (x & Hx & _)%adapt_clean (y & Hy & _)%adapt_option_clean Hs.
  assert (has_NUL (default status_default (Vacancy.status v)) = false) as Hz.
  { by destruct (Vacancy.status v). }
  apply adapt_clean in Hz as (z & Hz & _).
  unfold vacancy_values. rewrite Hx, Hy, Hz. by eexists.
Qed.

Lemma vacancy_values_Raised (v : Vacancy.t) (e : Exn) :
  vacancy_values v = Raised e ->
  e = ValueError "A string literal cannot contain NUL (0x00) characters." /\
  (has_NUL (Vacancy.title v) = true \/
   option_has_NUL (Vacancy.description v) = true \/
   option_has_NUL (Vacancy.status v) = true).
Proof.
  unfold vacancy_values.
  destruct (adapt (Vacancy.title v)) as [x|e1] eqn:Hx.
  2:{ intros [= <-]. apply adapt_Raised in Hx as [? ?]. auto. }
  destruct (adapt_option (Vacancy.description v)) as [y|e2] eqn:Hy.
  2:{ intros [= <-]. apply adapt_option_Raised in Hy as [? ?]. auto. }
  destruct (adapt (default _ _)) as [z|e3] eqn:Hz; [done|].
  intros [= <-]. apply adapt_Raised in Hz as [Hz ?]. split; [done|].
  right. right. by destruct (Vacancy.status v).
Qed.

Lemma candidate_values_Returned (c : Candidate.t) (row : Z -> CandidateRow.t) :
  candidate_values c = Returned row ->
  forall i,
    read_candidate (row i) =
    {| CandidateRead.id := i;
       CandidateRead.full_name := Candidate.full_name c;
       CandidateRead.email := Candidate.email c;
       CandidateRead.phone := Candidate.phone c;
       CandidateRead.city := Candidate.city c |}.
Proof.
  unfold candidate_values.
  destruct (adapt (Candidate.full_name c)) as [x|] eqn:Hx; [|done].
  destruct (adapt (Candidate.email c)) as [y|] eqn:Hy; [|done].
  destruct (adapt_option (Candidate.phone c)) as [z|] eqn:Hz; [|done].
  destruct (adapt_option (Candidate.city c)) as [u|] eqn:Hu; [|done].
  intros [= <-] i. unfold read_candidate. cbn.
  by rewrite (adapt_Returned _ _ Hx), (adapt_Returned _ _ Hy),
    (adapt_option_Returned _ _ Hz), (adapt_option_Returned _ _ Hu).
Qed.

Lemma candidate_values_clean (c : Candidate.t) :
  has_NUL (Candidate.full_name c) = false ->
  has_NUL (Candidate.email c) = false ->
  option_has_NUL (Candidate.phone c) = false ->
  option_has_NUL (Candidate.city c) = false ->
  exists row, candidate_values c = Returned row.
Proof.
  intros (x & Hx & _)%adapt_clean (y & Hy & _)%adapt_clean
    (z & Hz & _)%adapt_option_clean (u & Hu & _)%adapt_option_clean.
  unfold candidate_values. rewrite Hx, Hy, Hz, Hu. by eexists.
Qed.

Lemma candidate_values_Raised (c : Candidate.t) (e : Exn) :
  candidate_values c = Raised e ->
  e = ValueError "A string literal cannot contain NUL (0x00) characters." /\
  (has_NUL (Candidate.full_name c) = true \/
   has_NUL (Candidate.email c) = true \/
   option_has_NUL (Candidate.phone c) = true \/
   option_has_NUL (Candidate.city c) = true).
Proof.
  unfold candidate_values.
  destruct (adapt (Candidate.full_name c)) as [x|e1] eqn:Hx.
  2:{ intros [= <-]. apply adapt_Raised in Hx as [? ?]. auto. }
  destruct (adapt (Candidate.email c)) as [y|e2] eqn:Hy.
  2:{ intros [= <-]. apply adapt_Raised in Hy as [? ?]. auto. }
  destruct (adapt_option (Candidate.phone c)) as [z|e3] eqn:Hz.
  2:{ intros [= <-]. apply adapt_option_Raised in Hz as [? ?]. auto. }
  destruct (adapt_option (Candidate.city c)) as [u|e4] eqn:Hu; [done|].
  intros [= <-]. apply adapt_option_Raised in Hu as [? ?]. auto 6.
Qed.

Lemma read_candidate_email (r : CandidateRow.t) :
  Text.chars (CandidateRow.email r) = CandidateRead.email (read_candidate r).
Proof. reflexivity. Qed.

(** What drawing a primary key does to a table. *)
Lemma primary_key_Returned {R : Type} (given : option Z) (t t1 : Table R) (i : Z) :
  primary_key given t = Returned (i, t1) ->
  rows t1 = rows t /\
  (serial t <= serial t1 <= serial t + 1)%Z /\
  (given = None ->
   i = serial t /\ serial t1 = (serial t + 1)%Z /\ (serial t <= max_serial)%Z).
Proof.
  destruct given as [k|]; cbn.
  - destruct (in_integer k); [|done]. intros [= <- <-]. repeat split; lia || done.
  - unfold nextval. destruct (Z.ltb_spec max_serial (serial t)); [done|].
    intros [= <- <-]. cbn. repeat split; lia.
Qed.

Lemma primary_key_new {R : Type} (t : Table R) :
  (serial t <= max_serial)%Z ->
  primary_key None t =
  Returned (serial t, {| rows := rows t; serial := serial t + 1 |}).
Proof.
  intros Hleft. cbn. unfold nextval.
  by destruct (Z.ltb_spec max_serial (serial t)); [lia|].
Qed.

(** A primary key that is given must be an [integer]. *)
Lemma primary_key_given {R : Type} (i : Z) (t : Table R) :
  ((-2147483648 <= i <= 2147483647)%Z ->
   primary_key (Some i) t = Returned (i, t)) /\
  ((i < -2147483648 \/ 2147483647 < i)%Z ->
   primary_key (Some i) t = Raised (DataError "integer out of range")).
Proof.
  unfold primary_key, in_integer, max_serial.
  destruct (_ <=? i)%Z eqn:Hlow; destruct (i <=? _)%Z eqn:Hhigh;
    rewrite ?Z.leb_le, ?Z.leb_gt in Hlow, Hhigh; cbn [andb];
    split; intros Hi; first [done | lia].
Qed.

(** What an INSERT does to its table, by its outcome. *)
Lemma insert_vacancy_Raised (v : Vacancy.t) (t : Table VacancyRow.t) (e : Exn) :
  (insert_vacancy v t).2 = Raised e ->
  rows (insert_vacancy v t).1 = rows t /\
  (serial t <= serial (insert_vacancy v t).1 <= serial t + 1)%Z.
Proof.
  unfold insert_vacancy.
  destruct (vacancy_values v) as [row|]; [|cbn; intros _; split; [done|lia]].
  destruct (primary_key _ t) as [[i t1]|] eqn:Hpk;
    [|cbn; intros _; split; [done|lia]].
  apply primary_key_Returned in Hpk as (Hrows & Hserial & _).
  case_bool_decide; [|done]. cbn. intros _. split; [done|lia].
Qed.

Lemma insert_vacancy_Returned (v : Vacancy.t) (t : Table VacancyRow.t)
    (r : VacancyRow.t) :
  (insert_vacancy v t).2 = Returned r ->
  rows (insert_vacancy v t).1 = rows t ++ [r] /\
  (VacancyRow.id r ∉ VacancyRow.id <$> rows t) /\
  read_vacancy r =
    {| VacancyRead.id := VacancyRow.id r;
       VacancyRead.title := Vacancy.title v;
       VacancyRead.description := Vacancy.description v;
       VacancyRead.status := default status_default (Vacancy.status v) |} /\
  (serial t <= serial (insert_vacancy v t).1 <= serial t + 1)%Z /\
  (Vacancy.id v = None ->
   VacancyRow.id r = serial t /\
   serial (insert_vacancy v t).1 = (serial t + 1)%Z /\
   (serial t <= max_serial)%Z).
Proof.
  unfold insert_vacancy.
  destruct (vacancy_values v) as [row|] eqn:Hrow; [|done].
  destruct (primary_key _ t) as [[i t1]|] eqn:Hpk; [|done].
  apply primary_key_Returned in Hpk as (Hrows & Hserial & Hnew).
  case_bool_decide as Hpk; [done|]. cbn. intros [= <-].
  rewrite Hrows in *. rewrite (vacancy_values_Returned v row Hrow).
  assert (VacancyRow.id (row i) = i) as Hi.
  { by pose proof (f_equal VacancyRead.id (vacancy_values_Returned v row Hrow i)). }
  rewrite Hi. split; [done|]. split; [done|]. split; [done|].
  split; [lia|]. intros Hnone. destruct (Hnew Hnone) as (? & ? & ?).
  repeat split; done || lia.
Qed.

Lemma insert_vacancy_new (v : Vacancy.t) (t : Table VacancyRow.t) :
  Vacancy.id v = None ->
  has_NUL (Vacancy.title v) = false ->
  option_has_NUL (Vacancy.description v) = false ->
  option_has_NUL (Vacancy.status v) = false ->
  (serial t <= max_serial)%Z ->
  serial t ∉ VacancyRow.id <$> rows t ->
  exists r,
    insert_vacancy v t =
      ({| rows := rows t ++ [r]; serial := serial t + 1 |}, Returned r) /\
    read_vacancy r =
      {| VacancyRead.id := serial t;
         VacancyRead.title := Vacancy.title v;
         VacancyRead.description := Vacancy.description v;
         VacancyRead.status := default status_default (Vacancy.status v) |}.
Proof.
  intros Hid Ht Hd Hs Hleft Hfresh.
  destruct (vacancy_values_clean v Ht Hd Hs) as [row Hrow].
  unfold insert_vacancy. rewrite Hrow, Hid, primary_key_new by done.
  cbn [rows]. rewrite bool_decide_eq_false_2 by done.
  exists (row (serial t)). split; [done|].
  apply (vacancy_values_Returned v row Hrow).
Qed.

Lemma insert_candidate_Raised
    (c : Candidate.t) (t : Table CandidateRow.t) (e : Exn) :
  (insert_candidate c t).2 = Raised e ->
  rows (insert_candidate c t).1 = rows t /\
  (serial t <= serial (insert_candidate c t).1 <= serial t + 1)%Z.
Proof.
  unfold insert_candidate.
  destruct (candidate_values c) as [row|]; [|cbn; intros _; split; [done|lia]].
  destruct (primary_key _ t) as [[i t1]|] eqn:Hpk;
    [|cbn; intros _; split; [done|lia]].
  apply primary_key_Returned in Hpk as (Hrows & Hserial & _).
  repeat case_bool_decide; [| |destruct (index_entry_fits _); [done|]];
    cbn; intros _; (split; [done|lia]).
Qed.

Lemma insert_candidate_Returned
    (c : Candidate.t) (t : Table CandidateRow.t) (r : CandidateRow.t) :
  (insert_candidate c t).2 = Returned r ->
  rows (insert_candidate c t).1 = rows t ++ [r] /\
  (CandidateRow.id r ∉ CandidateRow.id <$> rows t) /\
  (Candidate.email c ∉ emails t) /\
  read_candidate r =
    {| CandidateRead.id := CandidateRow.id r;
       CandidateRead.full_name := Candidate.full_name c;
       CandidateRead.email := Candidate.email c;
       CandidateRead.phone := Candidate.phone c;
       CandidateRead.city := Candidate.city c |} /\
  (serial t <= serial (insert_candidate c t).1 <= serial t + 1)%Z /\
  (Candidate.id c = None ->
   CandidateRow.id r = serial t /\
   serial (insert_candidate c t).1 = (serial t + 1)%Z /\
   (serial t <= max_serial)%Z) /\
  index_entry_fits (Candidate.email c) = true.
Proof.
  unfold insert_candidate.
  destruct (candidate_values c) as [row|] eqn:Hrow; [|done].
  destruct (primary_key _ t) as [[i t1]|] eqn:Hpk; [|done].
  apply primary_key_Returned in Hpk as (Hrows & Hserial & Hnew).
  case_bool_decide as Hpk; [done|]. case_bool_decide as Hemail; [done|].
  destruct (index_entry_fits (Candidate.email c)) eqn:Hfits; [|done].
  cbn. intros [= <-]. unfold emails in *.
  rewrite Hrows in *. rewrite (candidate_values_Returned c row Hrow).
  assert (CandidateRow.id (row i) = i) as Hi.
  { by pose proof (f_equal CandidateRead.id (candidate_values_Returned c row Hrow i)). }
  rewrite Hi. split; [done|]. split; [done|]. split; [done|]. split; [done|].
  split; [lia|]. split; [|done].
  intros Hnone. destruct (Hnew Hnone) as (? & ? & ?).
  repeat split; done || lia.
Qed.

Lemma insert_candidate_new (c : Candidate.t) (t : Table CandidateRow.t) :
  Candidate.id c = None ->
  has_NUL (Candidate.full_name c) = false ->
  has_NUL (Candidate.email c) = false ->
  option_has_NUL (Candidate.phone c) = false ->
  option_has_NUL (Candidate.city c) = false ->
  (serial t <= max_serial)%Z ->
  serial t ∉ CandidateRow.id <$> rows t ->
  Candidate.email c ∉ emails t ->
  index_entry_fits (Candidate.email c) = true ->
  exists r,
    insert_candidate c t =
      ({| rows := rows t ++ [r]; serial := serial t + 1 |}, Returned r) /\
    read_candidate r =
      {| CandidateRead.id := serial t;
         CandidateRead.full_name := Candidate.full_name c;
         CandidateRead.email := Candidate.email c;
         CandidateRead.phone := Candidate.phone c;
         CandidateRead.city := Candidate.city c |}.
Proof.
  intros Hid Hn He Hp Hc Hleft Hfresh Hnew Hfits.
  destruct (candidate_values_clean c Hn He Hp Hc) as [row Hrow].
  unfold insert_candidate. rewrite Hrow, Hid, primary_key_new by done.
  unfold emails in *. cbn [rows]. rewrite !bool_decide_eq_false_2 by done.
  rewrite Hfits.
  exists (row (serial t)). split; [done|].
  apply (candidate_values_Returned c row Hrow).
Qed.

Lemma index_entry_fits_spec (s : string) :
  index_entry_fits s = true <-> String.length s <= 2692.
Proof. unfold index_entry_fits, max_index_entry. apply Nat.leb_le. Qed.

(** Whatever an INSERT does, it leaves the rows alone or adds one behind. *)
Lemma insert_vacancy_rows (v : Vacancy.t) (t : Table VacancyRow.t) :
  (exists e, (insert_vacancy v t).2 = Raised e /\
             rows (insert_vacancy v t).1 = rows t) \/
  (exists r, (insert_vacancy v t).2 = Returned r /\
             rows (insert_vacancy v t).1 = rows t ++ [r]).
Proof.
  destruct (insert_vacancy v t).2 as [r|e] eqn:Ho.
  - right. exists r. split; [done|]. by apply insert_vacancy_Returned.
  - left. exists e. split; [done|]. by eapply insert_vacancy_Raised.
Qed.

Lemma insert_candidate_rows (c : Candidate.t) (t : Table CandidateRow.t) :
  (exists e, (insert_candidate c t).2 = Raised e /\
             rows (insert_candidate c t).1 = rows t) \/
  (exists r, (insert_candidate c t).2 = Returned r /\
             rows (insert_candidate c t).1 = rows t ++ [r] /\
             Text.chars (CandidateRow.email r) = Candidate.email c /\
             Candidate.email c ∉ emails t).
Proof.
  destruct (insert_candidate c t).2 as [r|e] eqn:Ho.
  - right. exists r. split; [done|].
    destruct (insert_candidate_Returned c t r Ho) as (? & _ & ? & Hread & _).
    split; [done|]. split; [|done].
    by rewrite read_candidate_email, Hread.
  - left. exists e. split; [done|]. by eapply insert_candidate_Raised.
Qed.

(** The unique index at work: an address that is stored is refused, and no
    row is added. *)
Lemma insert_candidate_duplicate (c : Candidate.t) (t : Table CandidateRow.t) :
  Candidate.email c ∈ emails t ->
  exists e, (insert_candidate c t).2 = Raised e /\
            rows (insert_candidate c t).1 = rows t.
Proof.
  intros Hdup.
  destruct (insert_candidate_rows c t) as [H|(r & _ & _ & _ & Hnew)]; done.
Qed.

(** ** Queries *)

Lemma in_bigint_spec (n : Z) :
  Query.in_bigint n = true <->
  (- Query.max_bigint - 1 <= n <= Query.max_bigint)%Z.
Proof.
  unfold Query.in_bigint. rewrite andb_true_iff, !Z.leb_le. done.
Qed.

Lemma select_page {R : Type} (q : Query.t R) (d : Database) (tb : Table R)
    (skip limit : Z) :
  existsb has_NUL (Query.parameters q) = false ->
  Query.from q d = Some tb ->
  (0 <= skip <= Query.max_bigint)%Z -> (0 <= limit <= Query.max_bigint)%Z ->
  Query.select (Query.limit limit (Query.offset skip q)) d =
  Returned (Query.load q <$>
    take (Z.to_nat limit)
      (drop (Z.to_nat skip) (List.filter (Query.passes q) (rows tb)))).
Proof.
  intros Hpar Hfrom Hskip Hlimit. unfold Query.select.
  change (Query.parameters (Query.limit limit (Query.offset skip q)))
    with (Query.parameters q).
  rewrite Hpar. cbn. rewrite Hfrom.
  rewrite !(proj2 (in_bigint_spec _)) by (unfold Query.max_bigint in *; lia).
  cbn. destruct (Z.ltb_spec skip 0); [lia|].
  destruct (Z.ltb_spec limit 0); [lia|].
  reflexivity.
Qed.

Lemma filter_passes_all {R : Type} (q : Query.t R) (l : list R) :
  Query.where_ q = [] -> List.filter (Query.passes q) l = l.
Proof.
  intros Hq. induction l as [|r l IH]; cbn; [done|].
  unfold Query.passes at 1. rewrite Hq. cbn. by rewrite IH.
Qed.

Lemma each_vacancy_rows (l : list VacancyRow.t) :
  each VacancyRead.from_orm ((fun r => AVacancy (Vacancy.load r)) <$> l) =
  Returned (read_vacancy <$> l).
Proof. induction l as [|r l IH]; cbn; [done|]. by rewrite IH. Qed.

Lemma each_candidate_rows (l : list CandidateRow.t) :
  each CandidateRead.from_orm ((fun r => ACandidate (Candidate.load r)) <$> l) =
  Returned (read_candidate <$> l).
Proof. induction l as [|r l IH]; cbn; [done|]. by rewrite IH. Qed.

Lemma handle_GET_vacancies (w : World) (t : Table VacancyRow.t) (skip limit : Z) :
  vacancies (database w) = Some t ->
  (0 <= skip <= Query.max_bigint)%Z -> (0 <= limit <= Query.max_bigint)%Z ->
  handle (GET_vacancies (Some skip) (Some limit)) w =
  (w, Returned (JSON_vacancies
        (read_vacancy <$> take (Z.to_nat limit) (drop (Z.to_nat skip) (rows t))))).
Proof.
  intros Ht Hskip Hlimit. rewrite handle_steps. unfold bind.
  rewrite get_db_list_vacancies. cbn [default].
  rewrite (select_page _ _ t) by done.
  rewrite filter_passes_all by done. cbn [Session.query_Vacancy Query.load].
  unfold lift, ret. by rewrite each_vacancy_rows.
Qed.

Lemma handle_GET_candidates (w : World) (t : Table CandidateRow.t) (skip limit : Z) :
  candidates (database w) = Some t ->
  (0 <= skip <= Query.max_bigint)%Z -> (0 <= limit <= Query.max_bigint)%Z ->
  handle (GET_candidates (Some skip) (Some limit)) w =
  (w, Returned (JSON_candidates
        (read_candidate <$> take (Z.to_nat limit) (drop (Z.to_nat skip) (rows t))))).
Proof.
  intros Ht Hskip Hlimit. rewrite handle_steps. unfold bind.
  rewrite get_db_list_candidates. cbn [default].
  rewrite (select_page _ _ t) by done.
  rewrite filter_passes_all by done. cbn [Session.query_Candidate Query.load].
  unfold lift, ret. by rewrite each_candidate_rows.
Qed.

(** The query of [create_candidate]: the driver refuses an email that holds
    NUL; otherwise, with LIMIT 1, the query finds a row exactly when the
    address is stored. *)
Lemma select_by_email_NUL (d : Database) (e : string) :
  has_NUL e = true ->
  Query.select
    (Query.limit 1
       (Query.filter {| Query.column := CandidateRow.email; Query.value := e |}
          (Session.query_Candidate 0))) d =
  Raised (ValueError "A string literal cannot contain NUL (0x00) characters.").
Proof. intros He. unfold Query.select. cbn. by rewrite He. Qed.

Lemma select_by_email (d : Database) (t : Table CandidateRow.t) (e : string) :
  has_NUL e = false ->
  candidates d = Some t ->
  exists l,
    Query.select
      (Query.limit 1
         (Query.filter {| Query.column := CandidateRow.email; Query.value := e |}
            (Session.query_Candidate 0))) d = Returned l /\
    (l = [] <-> e ∉ emails t).
Proof.
  intros He Ht. unfold Query.select. cbn. rewrite He, Ht. cbn.
  eexists. split; [reflexivity|].
  unfold emails. induction (rows t) as [|r l IH]; cbn.
  - split; [intros _; apply not_elem_of_nil | done].
  - unfold Query.passes at 1. cbn. case_bool_decide as Hr; cbn.
    + split; [done|]. intros Hnot. exfalso. apply Hnot. subst e. left.
    + rewrite not_elem_of_cons. split.
      * intros Hnil. split; [congruence|]. apply IH.
        destruct (List.filter _ l); [done|]. cbn in Hnil. done.
      * intros [_ Hnot]. apply IH in Hnot.
        destruct (List.filter _ l); [done|]. cbn in Hnot. done.
Qed.

Lemma stored_email_clean (t : Table CandidateRow.t) (e : string) :
  e ∈ emails t -> has_NUL e = false.
Proof.
  unfold emails. intros (r & -> & _)%list_elem_of_fmap.
  apply stored_text_clean.
Qed.

(** ** The claims *)

(** C6. [health] returns the fixed payload with member [status] equal to
    [ok] in every world: it returns, never raises, and the world (database
    and sessions) is what it was, on the function and on its route alike. *)
Theorem health_fixed_payload (w : World) :
  health w = (w, Returned [("status", "ok")]) /\
  handle GET_health w = (w, Returned (JSON_object [("status", "ok")])).
Proof. split; reflexivity. Qed.

(** C8. Schema creation never raises; a table that exists is left exactly as
    it is, with its rows and its sequence; when both tables exist the world
    does not change at all; and running it twice in succession is running it
    once. *)
Theorem create_all_idempotent (w : World) :
  exists w1,
    create_all w = (w1, Returned tt) /\
    create_all w1 = (w1, Returned tt) /\
    (create_all ;;; create_all) w = create_all w /\
    is_Some (vacancies (database w1)) /\
    is_Some (candidates (database w1)) /\
    (forall t, vacancies (database w) = Some t ->
               vacancies (database w1) = Some t) /\
    (forall t, candidates (database w) = Some t ->
               candidates (database w1) = Some t) /\
    sessions w1 = sessions w /\
    (is_Some (vacancies (database w)) ->
     is_Some (candidates (database w)) -> w1 = w).
Proof.
  destruct w as [[[tv|] [tc|]] ss]; eexists; (split; [reflexivity|]);
    cbn; repeat split; eauto; try done;
    try (by intros [? ?]); by intros _ [? ?].
Qed.

(** C5. On a database whose table [vacancies] holds the rows [rows t], and
    for [skip] and [limit] that are non-negative and fit the bigint the
    database takes them as (at most 9223372036854775807), GET /vacancies
    answers with the page [take limit (drop skip (rows t))]: at most [limit]
    records, exactly [min limit (length - skip)] of them, and the record at
    place [i] of the page is the stored record at place [skip + i].  An
    absent [skip] is 0 and an absent [limit] is 100.  When exactly two
    vacancies are stored, [skip=0] and [limit=1] give exactly one record, the
    first one stored.  The world is unchanged. *)
Theorem list_vacancies_page (w : World) (t : Table VacancyRow.t) (skip limit : Z) :
  vacancies (database w) = Some t ->
  (0 <= skip <= Query.max_bigint)%Z -> (0 <= limit <= Query.max_bigint)%Z ->
  let page := take (Z.to_nat limit) (drop (Z.to_nat skip) (rows t)) in
  handle (GET_vacancies (Some skip) (Some limit)) w =
    (w, Returned (JSON_vacancies (read_vacancy <$> page))) /\
  length page <= Z.to_nat limit /\
  length page = Nat.min (Z.to_nat limit) (length (rows t) - Z.to_nat skip) /\
  (forall i, i < length page -> page !! i = rows t !! (Z.to_nat skip + i)) /\
  handle (GET_vacancies None None) w =
    handle (GET_vacancies (Some 0%Z) (Some 100%Z)) w /\
  handle (GET_vacancies None (Some limit)) w =
    handle (GET_vacancies (Some 0%Z) (Some limit)) w /\
  handle (GET_vacancies (Some skip) None) w =
    handle (GET_vacancies (Some skip) (Some 100%Z)) w /\
  (length (rows t) = 2 ->
   exists r, rows t !! 0 = Some r /\
     handle (GET_vacancies (Some 0%Z) (Some 1%Z)) w =
       (w, Returned (JSON_vacancies [read_vacancy r]))).
Proof.
  intros Ht Hskip Hlimit page.
  assert (Hlen : length page =
                 Nat.min (Z.to_nat limit) (length (rows t) - Z.to_nat skip)).
  { subst page. by rewrite length_take, length_drop. }
  split; [by apply handle_GET_vacancies|].
  split; [lia|]. split; [done|].
  split.
  { intros i Hi. subst page.
    rewrite lookup_take_lt by lia. apply lookup_drop. }
  repeat split.
  intros Htwo. rewrite (handle_GET_vacancies w t 0 1) by done.
  destruct (rows t) as [|r [|r' [|? ?]]]; try done.
  exists r. done.
Qed.

(** C1. On a database that stores a candidate with the email of the payload,
    [create_candidate] under its dependency raises the HTTP error 400, a
    client error, with the detail "Candidate with this email already exists",
    and the world it leaves is the world it found: nothing is inserted, the
    stored candidates and their number are the same, and so it is for the
    route POST /candidates on a body that validates to that payload. *)
Theorem create_candidate_duplicate_email
    (w : World) (t : Table CandidateRow.t) (candidate : CandidateCreate.t) :
  candidates (database w) = Some t ->
  CandidateCreate.email candidate ∈ emails t ->
  let conflict := HTTPException 400 "Candidate with this email already exists" in
  get_db (create_candidate candidate) w = (w, Raised conflict) /\
  client_error conflict /\
  candidates (database (get_db (create_candidate candidate) w).1) = Some t /\
  (forall body,
     CandidateCreate.validate body = Returned candidate ->
     handle (POST_candidates body) w = (w, Raised conflict)).
Proof.
  intros Ht Hdup conflict.
  assert (Hrun : get_db (create_candidate candidate) w = (w, Raised conflict)).
  { rewrite get_db_create_candidate.
    destruct (select_by_email (database w) t (CandidateCreate.email candidate)
                (stored_email_clean t _ Hdup) Ht)
      as (l & -> & Hl).
    destruct l as [|x l]; [|done].
    exfalso. by apply Hl. }
  split; [done|]. split; [unfold client_error; cbn; lia|].
  split; [by rewrite Hrun|].
  intros body Hbody. rewrite handle_steps. unfold bind, lift.
  by rewrite Hbody, Hrun.
Qed.

(** ** What a request can do to the database *)

Lemma kept_refl {R : Type} (o : option (Table R)) : kept o o.
Proof. intros t Ht. exists t, []. by rewrite app_nil_r. Qed.

Lemma records_kept_refl (d : Database) : records_kept d d.
Proof. split; apply kept_refl. Qed.

Lemma kept_trans {R : Type} (a b c : option (Table R)) :
  kept a b -> kept b c -> kept a c.
Proof.
  intros Hab Hbc t Ht.
  destruct (Hab t Ht) as (t1 & l1 & Hb & Hr1).
  destruct (Hbc t1 Hb) as (t2 & l2 & Hc & Hr2).
  exists t2, (l1 ++ l2). split; [done|]. by rewrite Hr2, Hr1, app_assoc.
Qed.

Lemma records_kept_trans (a b c : Database) :
  records_kept a b -> records_kept b c -> records_kept a c.
Proof. intros [? ?] [? ?]. split; eapply kept_trans; eauto. Qed.

(** An INSERT either leaves the database as it is and raises, or is the
    INSERT on the table of the class. *)
Lemma INSERT_AVacancy (v : Vacancy.t) (d : Database) :
  (exists e, INSERT (AVacancy v) d = (d, Raised e)) \/
  (exists t,
     vacancies d = Some t /\
     INSERT (AVacancy v) d =
     ({| vacancies := Some (insert_vacancy v t).1; candidates := candidates d |},
      match (insert_vacancy v t).2 with
      | Returned r =>
          Returned (AVacancy {| Vacancy.id := Some (VacancyRow.id r);
                                Vacancy.title := Vacancy.title v;
                                Vacancy.description := Vacancy.description v;
                                Vacancy.status := Vacancy.status v |})
      | Raised e => Raised e
      end)).
Proof.
  cbn. destruct (vacancy_values v); [|eauto].
  destruct (vacancies d) as [t|]; [|eauto].
  right. exists t. split; [done|]. by destruct (insert_vacancy v t) as [t1 [r|e]].
Qed.

Lemma INSERT_ACandidate (c : Candidate.t) (d : Database) :
  (exists e, INSERT (ACandidate c) d = (d, Raised e)) \/
  (exists t,
     candidates d = Some t /\
     INSERT (ACandidate c) d =
     ({| vacancies := vacancies d; candidates := Some (insert_candidate c t).1 |},
      match (insert_candidate c t).2 with
      | Returned r =>
          Returned (ACandidate {| Candidate.id := Some (CandidateRow.id r);
                                  Candidate.full_name := Candidate.full_name c;
                                  Candidate.email := Candidate.email c;
                                  Candidate.phone := Candidate.phone c;
                                  Candidate.city := Candidate.city c |})
      | Raised e => Raised e
      end)).
Proof.
  cbn. destruct (candidate_values c); [|eauto].
  destruct (candidates d) as [t|]; [|eauto].
  right. exists t. split; [done|]. by destruct (insert_candidate c t) as [t1 [r|e]].
Qed.

Lemma INSERT_kept (i : Instance) (d : Database) : records_kept d (INSERT i d).1.
Proof.
  destruct i as [v|c].
  - destruct (INSERT_AVacancy v d) as [[e ->] | (t & Ht & ->)];
      [apply records_kept_refl|].
    split; cbn; [|apply kept_refl].
    rewrite Ht. intros t0 [= <-].
    destruct (insert_vacancy_rows v t) as [(e & _ & Hr)|(r & _ & Hr)];
      eexists _, _; (split; [done|]); rewrite Hr; [by rewrite app_nil_r | done].
  - destruct (INSERT_ACandidate c d) as [[e ->] | (t & Ht & ->)];
      [apply records_kept_refl|].
    split; cbn; [apply kept_refl|].
    rewrite Ht. intros t0 [= <-].
    destruct (insert_candidate_rows c t) as [(e & _ & Hr)|(r & _ & Hr & _)];
      eexists _, _; (split; [done|]); rewrite Hr; [by rewrite app_nil_r | done].
Qed.

Lemma INSERT_unique (i : Instance) (d : Database) :
  unique_emails d -> unique_emails (INSERT i d).1.
Proof.
  intros Hu. destruct i as [v|c].
  - by destruct (INSERT_AVacancy v d) as [[e ->] | (t & Ht & ->)].
  - destruct (INSERT_ACandidate c d) as [[e ->] | (t & Ht & ->)]; [done|].
    specialize (Hu t Ht). cbn. intros t0 [= <-]. unfold emails in *.
    destruct (insert_candidate_rows c t) as [(e & _ & Hr)|(r & _ & Hr & He & Hn)];
      rewrite Hr; [done|].
    rewrite fmap_app. cbn. apply NoDup_app. repeat split; try done.
    + intros x Hx ->%list_elem_of_singleton. by rewrite He in Hx.
    + apply NoDup_singleton.
Qed.

Lemma rollback_kept (d d1 : Database) : records_kept d (rollback d d1).
Proof.
  split; cbn; intros t Ht; rewrite Ht; unfold rollback_table.
  - destruct (vacancies d1); eexists _, []; by rewrite app_nil_r.
  - destruct (candidates d1); eexists _, []; by rewrite app_nil_r.
Qed.

Lemma rollback_unique (d d1 : Database) :
  unique_emails d -> unique_emails (rollback d d1).
Proof.
  intros Hu t. cbn. unfold rollback_table.
  destruct (candidates d) as [b|] eqn:Hb; [|done].
  specialize (Hu b Hb).
  destruct (candidates d1); intros [= <-]; done.
Qed.

(** Every request leaves the sessions as they were, and leaves the database
    as it was, or as the INSERT of one new instance made it, or as the
    ROLLBACK of such an INSERT made it. *)
Lemma handle_effect (r : Request) (w : World) :
  sessions (handle r w).1 = sessions w /\
  (database (handle r w).1 = database w \/
   exists i, transient i /\
     (database (handle r w).1 = (INSERT i (database w)).1 \/
      database (handle r w).1 = rollback (database w) (INSERT i (database w)).1)).
Proof.
  destruct (handle r w) as [w' o] eqn:Hh. cbn [fst].
  rewrite handle_steps in Hh.
  destruct r as [|skip limit|body|skip limit|body];
    unfold bind, lift, ret, health in Hh.
  - cbn in Hh. simplify_eq. auto.
  - rewrite get_db_list_vacancies in Hh.
    destruct (Query.select _ _) as [l|e]; cbn in Hh; [|simplify_eq; auto].
    destruct (each _ l); cbn in Hh; simplify_eq; auto.
  - destruct (VacancyCreate.validate body) as [vc|e]; [|simplify_eq; auto].
    rewrite get_db_create_vacancy in Hh.
    destruct (INSERT _ (database w)) as [d1 [i|e]] eqn:Hins.
    + destruct (SELECT_pk i d1) as [i'|e]; cbn in Hh;
        [destruct (VacancyRead.from_orm i'); cbn in Hh|];
        simplify_eq; cbn; (split; [done|]); right;
        exists (AVacancy (VacancyCreate.construct vc)); (split; [done|]);
        left; by rewrite Hins.
    + simplify_eq. cbn. split; [done|]. right.
      exists (AVacancy (VacancyCreate.construct vc)). split; [done|].
      right. by rewrite Hins.
  - rewrite get_db_list_candidates in Hh.
    destruct (Query.select _ _) as [l|e]; cbn in Hh; [|simplify_eq; auto].
    destruct (each _ l); cbn in Hh; simplify_eq; auto.
  - destruct (CandidateCreate.validate body) as [cc|e]; [|simplify_eq; auto].
    rewrite get_db_create_candidate in Hh.
    destruct (Query.select _ _) as [[|x l]|e]; [|simplify_eq; auto..].
    destruct (INSERT _ (database w)) as [d1 [i|e]] eqn:Hins.
    + destruct (SELECT_pk i d1) as [i'|e]; cbn in Hh;
        [destruct (CandidateRead.from_orm i'); cbn in Hh|];
        simplify_eq; cbn; (split; [done|]); right;
        exists (ACandidate (CandidateCreate.construct cc)); (split; [done|]);
        left; by rewrite Hins.
    + simplify_eq. cbn. split; [done|]. right.
      exists (ACandidate (CandidateCreate.construct cc)). split; [done|].
      right. by rewrite Hins.
Qed.

Lemma handle_GET_world (w : World) :
  (handle GET_health w).1 = w /\
  (forall skip limit, (handle (GET_vacancies skip limit) w).1 = w) /\
  (forall skip limit, (handle (GET_candidates skip limit) w).1 = w).
Proof.
  split; [done|].
  split; intros skip limit; rewrite handle_steps; unfold bind, lift, ret.
  - rewrite get_db_list_vacancies.
    destruct (Query.select _ _) as [l|e]; [|done]. by destruct (each _ l).
  - rewrite get_db_list_candidates.
    destruct (Query.select _ _) as [l|e]; [|done]. by destruct (each _ l).
Qed.

Lemma handle_kept (r : Request) (w : World) :
  records_kept (database w) (database (handle r w).1).
Proof.
  destruct (handle_effect r w) as [_ [-> | [i [_ [-> | ->]]]]].
  - apply records_kept_refl.
  - apply INSERT_kept.
  - apply rollback_kept.
Qed.

Lemma handle_unique (r : Request) (w : World) :
  unique_emails (database w) -> unique_emails (database (handle r w).1).
Proof.
  intros Hu. destruct (handle_effect r w) as [_ [-> | [i [_ [-> | ->]]]]].
  - done.
  - by apply INSERT_unique.
  - by apply rollback_unique.
Qed.

Lemma serve_app (rs : list Request) (r : Request) (w : World) :
  (serve (rs ++ [r]) w).1 = (handle r (serve rs w).1).1.
Proof.
  revert w. induction rs as [|r0 rs IH]; intros w; cbn.
  - by destruct (handle r w).
  - destruct (handle r0 w) as [w1 o]. specialize (IH w1).
    destruct (serve (rs ++ [r]) w1), (serve rs w1). done.
Qed.

(** An invariant of [handle] that holds at boot holds all along a run. *)
Lemma serve_invariant (P : World -> Prop) :
  P booted ->
  (forall r w, P w -> P (handle r w).1) ->
  forall rs, P (serve rs booted).1.
Proof.
  intros H0 Hstep rs. induction rs as [|r rs IH] using rev_ind; [done|].
  rewrite serve_app. by apply Hstep.
Qed.

Lemma serve_kept (rs : list Request) (w : World) :
  records_kept (database w) (database (serve rs w).1).
Proof.
  revert w. induction rs as [|r rs IH]; intros w; cbn.
  - apply records_kept_refl.
  - pose proof (handle_kept r w) as Hr. destruct (handle r w) as [w1 o].
    specialize (IH w1). destruct (serve rs w1) as [w2 os].
    by apply (records_kept_trans _ (database w1)).
Qed.

Lemma startup_kept (w : World) :
  records_kept (database w) (database (startup w).1).
Proof.
  destruct w as [[[tv|] [tc|]] ss]; cbn; split; cbn;
    try apply kept_refl; by intros t [=].
Qed.

(** The worlds that can be reached are the worlds of the runs. *)
Lemma reachable_serve (w : World) :
  reachable w <-> exists rs, w = (serve rs booted).1.
Proof.
  split.
  - induction 1 as [|r w _ [rs ->]].
    + by exists [].
    + exists (rs ++ [r]). by rewrite serve_app.
  - intros [rs ->]. induction rs as [|r rs IH] using rev_ind.
    + constructor.
    + rewrite serve_app. by constructor.
Qed.

(** C7. No request updates or deletes a stored record.  For every request
    and every world, each table that exists before still exists after, and
    its rows after are its rows before followed by the rows added: a record
    stored at some place before is stored at that place after, with the same
    identifier and the same fields.  So it is after any number of requests,
    and after schema creation.  The reading requests, GET /health,
    GET /vacancies and GET /candidates, leave the whole world as it was, also
    when they raise. *)
Theorem records_never_updated_or_deleted (r : Request) (w : World) :
  records_kept (database w) (database (handle r w).1) /\
  (forall t i row,
     vacancies (database w) = Some t -> rows t !! i = Some row ->
     exists t', vacancies (database (handle r w).1) = Some t' /\
                rows t' !! i = Some row) /\
  (forall t i row,
     candidates (database w) = Some t -> rows t !! i = Some row ->
     exists t', candidates (database (handle r w).1) = Some t' /\
                rows t' !! i = Some row) /\
  (forall rs, records_kept (database w) (database (serve rs w).1)) /\
  records_kept (database w) (database (startup w).1) /\
  (handle GET_health w).1 = w /\
  (forall skip limit, (handle (GET_vacancies skip limit) w).1 = w) /\
  (forall skip limit, (handle (GET_candidates skip limit) w).1 = w).
Proof.
  pose proof (handle_kept r w) as [Hv Hc].
  split; [by split|].
  split; [|split; [|split; [intros rs; apply serve_kept|
                            split; [apply startup_kept | apply handle_GET_world]]]].
  - intros t i row Ht Hrow. destruct (Hv t Ht) as (t' & added & Ht' & Hr).
    exists t'. split; [done|]. rewrite Hr. by apply lookup_app_l_Some.
  - intros t i row Ht Hrow. destruct (Hc t Ht) as (t' & added & Ht' & Hr).
    exists t'. split; [done|]. rewrite Hr. by apply lookup_app_l_Some.
Qed.

(** C2. Every request keeps the emails of the stored candidates pairwise
    distinct: when they are distinct before a request they are distinct
    after it.  The storage layer enforces it: the INSERT of a candidate whose
    email is stored raises and adds no row.  They are distinct at boot, and
    so all along every run of the server. *)
Theorem unique_email_preserved (r : Request) (w : World) :
  unique_emails (database w) ->
  unique_emails (database (handle r w).1) /\
  (forall c t,
     Candidate.email c ∈ emails t ->
     exists e, (insert_candidate c t).2 = Raised e /\
               rows (insert_candidate c t).1 = rows t) /\
  (forall rs, unique_emails (database (serve rs booted).1)).
Proof.
  intros Hu. split; [by apply handle_unique|].
  split; [apply insert_candidate_duplicate|].
  apply (serve_invariant (fun w => unique_emails (database w))).
  - intros t [= <-]. apply NoDup_nil_2.
  - apply handle_unique.
Qed.

(** C9. The session [get_db] makes for an endpoint is open while the endpoint
    runs and is closed when [get_db] is done, whatever the endpoint did: the
    outcome of [get_db] is the outcome of the endpoint, returned or raised,
    and the session is not among the open ones afterwards.  Every request
    leaves the open sessions as they were, so none is open between the
    requests of a run. *)
Theorem session_released :
  (forall (A : Type) (endpoint : nat -> M A) (w : World),
     let db := fresh (dom (sessions w)) in
     let w1 := {| database := database w;
                  sessions := <[db := no_work]> (sessions w) |} in
     sessions w !! db = None /\
     sessions w1 !! db = Some no_work /\
     (get_db endpoint w).2 = (endpoint db w1).2 /\
     sessions (get_db endpoint w).1 !! db = None) /\
  (forall r w, sessions (handle r w).1 = sessions w) /\
  (forall rs, sessions (serve rs booted).1 = ∅).
Proof.
  split; [|split].
  - intros A endpoint w db w1.
    split; [apply fresh_session|]. split; [apply lookup_insert_eq|].
    unfold get_db, bind, SessionLocal, try_finally. fold db. fold w1.
    destruct (endpoint db w1) as [w2 o]. cbn.
    split; [done|]. apply lookup_delete_eq.
  - intros r w. apply handle_effect.
  - apply (serve_invariant (fun w => sessions w = ∅)); [done|].
    intros r w <-. apply handle_effect.
Qed.

(** ** Soundness of the database along a run *)

Lemma sequence_ahead_mono {R : Type} (key : R -> Z) (t : Table R) (s : Z) :
  sequence_ahead key t = true -> (serial t <= s)%Z ->
  sequence_ahead key {| rows := rows t; serial := s |} = true.
Proof.
  rewrite !sequence_ahead_spec. cbn. intros [Hs Hr] Hle. split; [lia|].
  eapply Forall_impl; [exact Hr|]. cbn. intros r. lia.
Qed.

Lemma sequence_ahead_append {R : Type} (key : R -> Z) (t : Table R) (r : R) :
  sequence_ahead key t = true -> key r = serial t ->
  sequence_ahead key {| rows := rows t ++ [r]; serial := serial t + 1 |} = true.
Proof.
  rewrite !sequence_ahead_spec. cbn. intros [Hs Hr] Hk. split; [lia|].
  apply Forall_app. split.
  - eapply Forall_impl; [exact Hr|]. cbn. intros x. lia.
  - apply Forall_singleton. lia.
Qed.

Lemma insert_vacancy_sound (v : Vacancy.t) (t : Table VacancyRow.t) :
  Vacancy.id v = None ->
  sequence_ahead VacancyRow.id t = true ->
  sequence_ahead VacancyRow.id (insert_vacancy v t).1 = true /\
  (serial t <= serial (insert_vacancy v t).1)%Z.
Proof.
  intros Hid Hseq. destruct (insert_vacancy v t) as [t1 [r|e]] eqn:Hins.
  - pose proof (insert_vacancy_Returned v t r) as Hr. rewrite Hins in Hr.
    destruct (Hr eq_refl) as (Hrows & _ & _ & _ & Hnew).
    destruct (Hnew Hid) as (Hkey & Hserial & _). cbn in *.
    split; [|lia]. destruct t1 as [rows1 serial1]. cbn in *. subst.
    by apply sequence_ahead_append.
  - pose proof (insert_vacancy_Raised v t e) as Hr. rewrite Hins in Hr.
    destruct (Hr eq_refl) as (Hrows & Hserial). cbn in *.
    split; [|lia]. destruct t1 as [rows1 serial1]. cbn in *. subst.
    apply (sequence_ahead_mono _ t); [done|lia].
Qed.

Lemma insert_candidate_sound (c : Candidate.t) (t : Table CandidateRow.t) :
  Candidate.id c = None ->
  sequence_ahead CandidateRow.id t = true ->
  sequence_ahead CandidateRow.id (insert_candidate c t).1 = true /\
  (serial t <= serial (insert_candidate c t).1)%Z.
Proof.
  intros Hid Hseq. destruct (insert_candidate c t) as [t1 [r|e]] eqn:Hins.
  - pose proof (insert_candidate_Returned c t r) as Hr. rewrite Hins in Hr.
    destruct (Hr eq_refl) as (Hrows & _ & _ & _ & _ & Hnew & _).
    destruct (Hnew Hid) as (Hkey & Hserial & _). cbn in *.
    split; [|lia]. destruct t1 as [rows1 serial1]. cbn in *. subst.
    by apply sequence_ahead_append.
  - pose proof (insert_candidate_Raised c t e) as Hr. rewrite Hins in Hr.
    destruct (Hr eq_refl) as (Hrows & Hserial). cbn in *.
    split; [|lia]. destruct t1 as [rows1 serial1]. cbn in *. subst.
    apply (sequence_ahead_mono _ t); [done|lia].
Qed.

Lemma INSERT_sound (i : Instance) (d : Database) :
  transient i -> sound d ->
  sound (INSERT i d).1 /\ sound (rollback d (INSERT i d).1) /\
  advanced (vacancies d) (vacancies (INSERT i d).1) /\
  advanced (vacancies d) (vacancies (rollback d (INSERT i d).1)).
Proof.
  intros Hi Hs.
  assert (Hsame : sound d /\ sound (rollback d d) /\
                  advanced (vacancies d) (vacancies d) /\
                  advanced (vacancies d) (vacancies (rollback d d))).
  { destruct Hs as (tv & tc & Hv & Hc & Hsv & Hsc).
    split; [by exists tv, tc|]. unfold rollback. rewrite Hv, Hc. cbn.
    split; [exists tv, tc; by destruct tv, tc|].
    split; intros t [= <-]; eexists; (split; [done|]); cbn; lia. }
  destruct Hs as (tv & tc & Hv & Hc & Hsv & Hsc).
  destruct i as [v|c]; cbn in Hi.
  - destruct (INSERT_AVacancy v d) as [[e ->] | (t & Ht & ->)]; [done|].
    assert (t = tv) as -> by congruence.
    destruct (insert_vacancy_sound v tv Hi Hsv) as [Hs1 Hle].
    cbn [fst]. set (t1 := (insert_vacancy v tv).1) in *.
    split; [by exists t1, tc|].
    split.
    { unfold rollback. cbn. rewrite Hv, Hc. cbn.
      eexists _, _. repeat split; [by apply (sequence_ahead_mono _ tv)|].
      by destruct tc. }
    unfold rollback; cbn; rewrite Hv; cbn;
      split; intros t [= <-]; eexists; split; done.
  - destruct (INSERT_ACandidate c d) as [[e ->] | (t & Ht & ->)]; [done|].
    assert (t = tc) as -> by congruence.
    destruct (insert_candidate_sound c tc Hi Hsc) as [Hs1 Hle].
    cbn [fst]. set (t1 := (insert_candidate c tc).1) in *.
    split; [by exists tv, t1|].
    split.
    { unfold rollback. cbn. rewrite Hv, Hc. cbn.
      eexists _, _. repeat split; [by destruct tv|].
      by apply (sequence_ahead_mono _ tc). }
    unfold rollback; cbn; rewrite Hv; cbn;
      split; intros t [= <-]; eexists; split; try done; cbn; lia.
Qed.

Lemma advanced_refl {R : Type} (o : option (Table R)) : advanced o o.
Proof. intros t Ht. by exists t. Qed.

Lemma handle_sound (r : Request) (w : World) :
  sound (database w) ->
  sound (database (handle r w).1) /\
  advanced (vacancies (database w)) (vacancies (database (handle r w).1)).
Proof.
  intros Hs. destruct (handle_effect r w) as [_ [-> | [i [Hi [-> | ->]]]]].
  - split; [done | apply advanced_refl].
  - destruct (INSERT_sound i (database w) Hi Hs) as (? & ? & ? & ?). done.
  - destruct (INSERT_sound i (database w) Hi Hs) as (? & ? & ? & ?). done.
Qed.

Lemma booted_sound : sound (database booted).
Proof. by exists empty_table, empty_table. Qed.

(** ** The creating routes *)

Lemma table_eta {R : Type} (t : Table R) (l : list R) (s : Z) :
  rows t = l -> serial t = s -> t = {| rows := l; serial := s |}.
Proof. destruct t. cbn. by intros -> ->. Qed.

Lemma SELECT_pk_vacancy (d : Database) (t : Table VacancyRow.t)
    (l : list VacancyRow.t) (r : VacancyRow.t) (v : Vacancy.t) :
  vacancies d = Some t -> rows t = l ++ [r] ->
  VacancyRow.id r ∉ VacancyRow.id <$> l ->
  Vacancy.id v = Some (VacancyRow.id r) ->
  SELECT_pk (AVacancy v) d = Returned (AVacancy (Vacancy.load r)).
Proof.
  intros Ht Hrows Hnew Hid. cbn. rewrite Ht, Hid, Hrows.
  by rewrite (find_appended VacancyRow.id l r Hnew).
Qed.

Lemma SELECT_pk_candidate (d : Database) (t : Table CandidateRow.t)
    (l : list CandidateRow.t) (r : CandidateRow.t) (c : Candidate.t) :
  candidates d = Some t -> rows t = l ++ [r] ->
  CandidateRow.id r ∉ CandidateRow.id <$> l ->
  Candidate.id c = Some (CandidateRow.id r) ->
  SELECT_pk (ACandidate c) d = Returned (ACandidate (Candidate.load r)).
Proof.
  intros Ht Hrows Hnew Hid. cbn. rewrite Ht, Hid, Hrows.
  by rewrite (find_appended CandidateRow.id l r Hnew).
Qed.

(** What [create_vacancy] under its dependency does when the INSERT stores a
    row, and that nothing else makes it return. *)
Lemma create_vacancy_Returned
    (w w' : World) (vacancy : VacancyCreate.t) (i : Instance) :
  get_db (create_vacancy vacancy) w = (w', Returned i) ->
  exists t r,
    vacancies (database w) = Some t /\
    w' = {| database :=
              {| vacancies := Some {| rows := rows t ++ [r];
                                      serial := serial t + 1 |};
                 candidates := candidates (database w) |};
            sessions := sessions w |} /\
    i = AVacancy (Vacancy.load r) /\
    read_vacancy r =
      {| VacancyRead.id := serial t;
         VacancyRead.title := VacancyCreate.title vacancy;
         VacancyRead.description := VacancyCreate.description vacancy;
         VacancyRead.status :=
           default status_default (VacancyCreate.status vacancy) |} /\
    (serial t ∉ VacancyRow.id <$> rows t) /\
    (serial t <= max_serial)%Z.
Proof.
  rewrite get_db_create_vacancy.
  destruct (INSERT_AVacancy (VacancyCreate.construct vacancy) (database w))
    as [[e ->] | (t & Ht & ->)]; [done|].
  destruct (insert_vacancy _ t) as [t1 [r|e]] eqn:Hins; [|done].
  pose proof (insert_vacancy_Returned (VacancyCreate.construct vacancy) t r) as Hr.
  rewrite Hins in Hr.
  destruct (Hr eq_refl) as (Hrows & Hnew & Hread & _ & Hfresh). cbn in Hrows.
  destruct (Hfresh eq_refl) as (Hid & Hserial & Hleft). cbn in Hserial.
  cbn [fst snd].
  rewrite (SELECT_pk_vacancy _ t1 (rows t) r) by done.
  intros [= <- <-]. exists t, r. rewrite Hid in *.
  split; [done|]. split; [by rewrite (table_eta t1 _ _ Hrows Hserial)|].
  done.
Qed.

Lemma create_candidate_Returned
    (w w' : World) (candidate : CandidateCreate.t) (i : Instance) :
  get_db (create_candidate candidate) w = (w', Returned i) ->
  exists t r,
    candidates (database w) = Some t /\
    w' = {| database :=
              {| vacancies := vacancies (database w);
                 candidates := Some {| rows := rows t ++ [r];
                                       serial := serial t + 1 |} |};
            sessions := sessions w |} /\
    i = ACandidate (Candidate.load r) /\
    read_candidate r =
      {| CandidateRead.id := serial t;
         CandidateRead.full_name := CandidateCreate.full_name candidate;
         CandidateRead.email := CandidateCreate.email candidate;
         CandidateRead.phone := CandidateCreate.phone candidate;
         CandidateRead.city := CandidateCreate.city candidate |} /\
    (serial t ∉ CandidateRow.id <$> rows t) /\
    (CandidateCreate.email candidate ∉ emails t) /\
    (serial t <= max_serial)%Z.
Proof.
  rewrite get_db_create_candidate.
  destruct (Query.select _ _) as [[|x l]|e]; [|done..].
  destruct (INSERT_ACandidate (CandidateCreate.construct candidate) (database w))
    as [[e ->] | (t & Ht & ->)]; [done|].
  destruct (insert_candidate _ t) as [t1 [r|e]] eqn:Hins; [|done].
  pose proof (insert_candidate_Returned (CandidateCreate.construct candidate) t r)
    as Hr.
  rewrite Hins in Hr.
  destruct (Hr eq_refl) as (Hrows & Hnew & Hemail & Hread & _ & Hfresh & Hfits).
  cbn in Hrows. destruct (Hfresh eq_refl) as (Hid & Hserial & Hleft).
  cbn in Hserial. cbn [fst snd].
  rewrite (SELECT_pk_candidate _ t1 (rows t) r) by done.
  intros [= <- <-]. exists t, r. rewrite Hid in *.
  split; [done|]. split; [by rewrite (table_eta t1 _ _ Hrows Hserial)|].
  done.
Qed.

Lemma handle_POST_vacancies_accepted
    (w w' : World) (body : VacancyBody.t) (v : VacancyRead.t) :
  handle (POST_vacancies body) w = (w', Returned (JSON_vacancy v)) ->
  exists vacancy t r,
    VacancyCreate.validate body = Returned vacancy /\
    vacancies (database w) = Some t /\
    w' = {| database :=
              {| vacancies := Some {| rows := rows t ++ [r];
                                      serial := serial t + 1 |};
                 candidates := candidates (database w) |};
            sessions := sessions w |} /\
    read_vacancy r = v /\
    v = {| VacancyRead.id := serial t;
           VacancyRead.title := VacancyCreate.title vacancy;
           VacancyRead.description := VacancyCreate.description vacancy;
           VacancyRead.status :=
             default status_default (VacancyCreate.status vacancy) |} /\
    (serial t ∉ VacancyRow.id <$> rows t) /\
    (serial t <= max_serial)%Z.
Proof.
  rewrite handle_steps. unfold bind, lift, ret.
  destruct (VacancyCreate.validate body) as [vacancy|e]; [|done].
  destruct (get_db (create_vacancy vacancy) w) as [w1 [i|e]] eqn:Hrun; [|done].
  apply create_vacancy_Returned in Hrun
    as (t & r & Ht & -> & -> & Hread & Hnew & Hleft).
  cbn. intros [= <- <-]. exists vacancy, t, r.
  repeat split; done.
Qed.

Lemma handle_POST_vacancies
    (w : World) (t : Table VacancyRow.t)
    (body : VacancyBody.t) (vacancy : VacancyCreate.t) :
  VacancyCreate.validate body = Returned vacancy ->
  vacancies (database w) = Some t ->
  sequence_ahead VacancyRow.id t = true ->
  has_NUL (VacancyCreate.title vacancy) = false ->
  option_has_NUL (VacancyCreate.description vacancy) = false ->
  option_has_NUL (VacancyCreate.status vacancy) = false ->
  (serial t <= max_serial)%Z ->
  exists r,
    handle (POST_vacancies body) w =
    ({| database :=
          {| vacancies := Some {| rows := rows t ++ [r]; serial := serial t + 1 |};
             candidates := candidates (database w) |};
        sessions := sessions w |},
     Returned (JSON_vacancy (read_vacancy r))) /\
    read_vacancy r =
      {| VacancyRead.id := serial t;
         VacancyRead.title := VacancyCreate.title vacancy;
         VacancyRead.description := VacancyCreate.description vacancy;
         VacancyRead.status :=
           default status_default (VacancyCreate.status vacancy) |}.
Proof.
  intros Hval Ht Hseq Hct Hcd Hcs Hleft.
  pose proof (serial_not_stored _ _ Hseq) as Hfresh.
  destruct (insert_vacancy_new (VacancyCreate.construct vacancy) t
              eq_refl Hct Hcd Hcs Hleft Hfresh) as (r & Hins & Hread).
  exists r. split; [|done].
  rewrite handle_steps. unfold bind, lift, ret. rewrite Hval.
  rewrite get_db_create_vacancy.
  destruct (INSERT_AVacancy (VacancyCreate.construct vacancy) (database w))
    as [[e He] | (t' & Ht' & ->)].
  { exfalso. cbn in He. rewrite Ht in He.
    destruct (vacancy_values_clean (VacancyCreate.construct vacancy) Hct Hcd Hcs)
      as [row Hrow].
    rewrite Hrow, Hins in He. discriminate He. }
  assert (t' = t) as -> by congruence. rewrite Hins. cbn [fst snd].
  assert (VacancyRow.id r = serial t) as Hid
    by exact (f_equal VacancyRead.id Hread).
  by rewrite (SELECT_pk_vacancy _
                {| rows := rows t ++ [r]; serial := serial t + 1 |} (rows t) r)
    by (done || by rewrite Hid).
Qed.

Lemma handle_POST_candidates_accepted
    (w w' : World) (body : CandidateBody.t) (c : CandidateRead.t) :
  handle (POST_candidates body) w = (w', Returned (JSON_candidate c)) ->
  exists candidate t r,
    CandidateCreate.validate body = Returned candidate /\
    candidates (database w) = Some t /\
    w' = {| database :=
              {| vacancies := vacancies (database w);
                 candidates := Some {| rows := rows t ++ [r];
                                       serial := serial t + 1 |} |};
            sessions := sessions w |} /\
    read_candidate r = c /\
    c = {| CandidateRead.id := serial t;
           CandidateRead.full_name := CandidateCreate.full_name candidate;
           CandidateRead.email := CandidateCreate.email candidate;
           CandidateRead.phone := CandidateCreate.phone candidate;
           CandidateRead.city := CandidateCreate.city candidate |} /\
    (serial t ∉ CandidateRow.id <$> rows t) /\
    (CandidateCreate.email candidate ∉ emails t) /\
    (serial t <= max_serial)%Z.
Proof.
  rewrite handle_steps. unfold bind, lift, ret.
  destruct (CandidateCreate.validate body) as [candidate|e]; [|done].
  destruct (get_db (create_candidate candidate) w) as [w1 [i|e]] eqn:Hrun; [|done].
  apply create_candidate_Returned in Hrun
    as (t & r & Ht & -> & -> & Hread & Hnew & Hemail & Hleft).
  cbn. intros [= <- <-]. exists candidate, t, r.
  repeat split; done.
Qed.

Lemma handle_POST_candidates
    (w : World) (t : Table CandidateRow.t)
    (body : CandidateBody.t) (candidate : CandidateCreate.t) :
  CandidateCreate.validate body = Returned candidate ->
  candidates (database w) = Some t ->
  sequence_ahead CandidateRow.id t = true ->
  CandidateCreate.email candidate ∉ emails t ->
  has_NUL (CandidateCreate.full_name candidate) = false ->
  has_NUL (CandidateCreate.email candidate) = false ->
  option_has_NUL (CandidateCreate.phone candidate) = false ->
  option_has_NUL (CandidateCreate.city candidate) = false ->
  (serial t <= max_serial)%Z ->
  index_entry_fits (CandidateCreate.email candidate) = true ->
  exists r,
    handle (POST_candidates body) w =
    ({| database :=
          {| vacancies := vacancies (database w);
             candidates := Some {| rows := rows t ++ [r];
                                   serial := serial t + 1 |} |};
        sessions := sessions w |},
     Returned (JSON_candidate (read_candidate r))) /\
    read_candidate r =
      {| CandidateRead.id := serial t;
         CandidateRead.full_name := CandidateCreate.full_name candidate;
         CandidateRead.email := CandidateCreate.email candidate;
         CandidateRead.phone := CandidateCreate.phone candidate;
         CandidateRead.city := CandidateCreate.city candidate |}.
Proof.
  intros Hval Ht Hseq Hnew Hcn Hce Hcp Hcc Hleft Hfits.
  pose proof (serial_not_stored _ _ Hseq) as Hfresh.
  destruct (insert_candidate_new (CandidateCreate.construct candidate) t
              eq_refl Hcn Hce Hcp Hcc Hleft Hfresh Hnew Hfits)
    as (r & Hins & Hread).
  exists r. split; [|done].
  rewrite handle_steps. unfold bind, lift, ret. rewrite Hval.
  rewrite get_db_create_candidate.
  destruct (select_by_email (database w) t _ Hce Ht) as (l & -> & Hl).
  rewrite (proj2 Hl Hnew).
  destruct (INSERT_ACandidate (CandidateCreate.construct candidate) (database w))
    as [[e He] | (t' & Ht' & ->)].
  { exfalso. cbn in He. rewrite Ht in He.
    destruct (candidate_values_clean (CandidateCreate.construct candidate)
                Hcn Hce Hcp Hcc) as [row Hrow].
    rewrite Hrow, Hins in He. discriminate He. }
  assert (t' = t) as -> by congruence. rewrite Hins. cbn [fst snd].
  assert (CandidateRow.id r = serial t) as Hid
    by exact (f_equal CandidateRead.id Hread).
  by rewrite (SELECT_pk_candidate _
                {| rows := rows t ++ [r]; serial := serial t + 1 |} (rows t) r)
    by (done || by rewrite Hid).
Qed.

Lemma handle_POST_candidates_stored
    (w : World) (t : Table CandidateRow.t)
    (body : CandidateBody.t) (candidate : CandidateCreate.t) :
  CandidateCreate.validate body = Returned candidate ->
  candidates (database w) = Some t ->
  CandidateCreate.email candidate ∈ emails t ->
  handle (POST_candidates body) w =
  (w, Raised (HTTPException 400 "Candidate with this email already exists")).
Proof.
  intros Hval Ht Hin. rewrite handle_steps. unfold bind, lift. rewrite Hval.
  rewrite get_db_create_candidate.
  destruct (select_by_email (database w) t (CandidateCreate.email candidate)
              (stored_email_clean t _ Hin) Ht) as (l & -> & Hl).
  destruct l as [|x l]; [|done]. exfalso. by apply Hl.
Qed.

(** ** The history of a run *)

Lemma serve_snoc (rs : list Request) (r : Request) (w : World) :
  serve (rs ++ [r]) w =
  (let '(w1, os) := serve rs w in
   let '(w2, o) := handle r w1 in (w2, os ++ [o])).
Proof.
  revert w. induction rs as [|r0 rs IH]; intros w; cbn.
  - by destruct (handle r w).
  - destruct (handle r0 w) as [w1 o0]. rewrite IH.
    destruct (serve rs w1) as [w2 os]. by destruct (handle r w2).
Qed.

Lemma issued_vacancy_ids_app (os os' : list (Outcome Response)) :
  issued_vacancy_ids (os ++ os') = issued_vacancy_ids os ++ issued_vacancy_ids os'.
Proof.
  induction os as [|[[]|] os IH]; cbn; congruence.
Qed.

(** Only POST /vacancies answers with one vacancy. *)
Lemma handle_JSON_vacancy (r : Request) (w w' : World) (v : VacancyRead.t) :
  handle r w = (w', Returned (JSON_vacancy v)) ->
  exists body vacancy,
    r = POST_vacancies body /\ VacancyCreate.validate body = Returned vacancy.
Proof.
  rewrite handle_steps.
  destruct r as [|skip limit|body|skip limit|body];
    unfold bind, lift, ret, health; intros Hh.
  - cbn in Hh. simplify_eq.
  - rewrite get_db_list_vacancies in Hh.
    destruct (Query.select _ _) as [l|e]; [|cbn in Hh; simplify_eq].
    destruct (each _ l); cbn in Hh; simplify_eq.
  - destruct (VacancyCreate.validate body) as [vc|e] eqn:Hval; [eauto|simplify_eq].
  - rewrite get_db_list_candidates in Hh.
    destruct (Query.select _ _) as [l|e]; [|cbn in Hh; simplify_eq].
    destruct (each _ l); cbn in Hh; simplify_eq.
  - destruct (CandidateCreate.validate body) as [cc|e]; [|simplify_eq].
    rewrite get_db_create_candidate in Hh.
    destruct (Query.select _ _) as [[|x l]|e]; [|cbn in Hh; simplify_eq..].
    destruct (INSERT _ (database w)) as [d1 [i|e]]; [|cbn in Hh; simplify_eq].
    destruct (SELECT_pk i d1) as [i'|e]; [|cbn in Hh; simplify_eq].
    destruct (CandidateRead.from_orm i'); cbn in Hh; simplify_eq.
Qed.

(** All along a run from boot the database is sound, and the identifiers
    the answers have carried are positive, below the sequence of
    [vacancies], and pairwise distinct. *)
Lemma serve_history (rs : list Request) :
  sound (database (serve rs booted).1) /\
  (forall t, vacancies (database (serve rs booted).1) = Some t ->
     Forall (fun i => (0 < i < serial t)%Z)
       (issued_vacancy_ids (serve rs booted).2)) /\
  NoDup (issued_vacancy_ids (serve rs booted).2).
Proof.
  induction rs as [|r rs (Hs & Hi & Hnd)] using rev_ind.
  - split; [apply booted_sound|]. split; [|apply NoDup_nil_2].
    intros t _. cbn. constructor.
  - rewrite serve_snoc.
    destruct (serve rs booted) as [w1 os]. cbn [fst snd] in Hs, Hi, Hnd.
    destruct (handle r w1) as [w2 o] eqn:Hh. cbn [fst snd].
    destruct (handle_sound r w1 Hs) as [Hs2 Hadv]. rewrite Hh in Hs2, Hadv.
    cbn [fst] in Hs2, Hadv. split; [done|].
    destruct Hs as (t1 & tc & Ht1 & Htc & Hseq1 & Hseqc).
    destruct (Hadv t1 Ht1) as (t2 & Ht2 & Hle).
    specialize (Hi t1 Ht1). rewrite issued_vacancy_ids_app.
    assert (Hnew : issued_vacancy_ids [o] = [] \/
                   issued_vacancy_ids [o] = [serial t1] /\
                   (serial t1 < serial t2)%Z).
    { destruct o as [[| |v| |]|e]; cbn; auto. right.
      destruct (handle_JSON_vacancy r w1 w2 v Hh) as (body & vc & -> & Hval).
      apply handle_POST_vacancies_accepted in Hh
        as (vc' & t & r & _ & Ht & -> & _ & -> & _).
      simplify_eq. cbn in Ht2. simplify_eq. cbn. split; [done|lia]. }
    apply sequence_ahead_spec in Hseq1 as [Hpos _].
    split.
    + intros t2' Ht2'. assert (t2' = t2) as -> by congruence.
      apply Forall_app. split.
      * eapply Forall_impl; [exact Hi|]. cbn. intros i. lia.
      * destruct Hnew as [-> | [-> Hlt]]; [constructor|].
        apply Forall_singleton. lia.
    + destruct Hnew as [-> | [-> Hlt]]; [by rewrite app_nil_r|].
      apply NoDup_app. repeat split; [done| |apply NoDup_singleton].
      intros i Hin ->%list_elem_of_singleton.
      rewrite Forall_forall in Hi. apply Hi in Hin. lia.
Qed.

Lemma optional_clean (dflt : option string) (f : Field) :
  option_has_NUL dflt = false -> field_has_NUL f = false ->
  option_has_NUL (optional dflt f) = false.
Proof. by destruct f. Qed.

(** C3. At any point of any run of the server from boot, POST /vacancies
    with a body whose [title] is present, whose strings hold no NUL
    character, and while the sequence of [vacancies] has a value left (its
    next value is at most 2147483647), inserts one row behind the others and
    answers with that record: its identifier is positive, is not the
    identifier of any stored vacancy, was not carried by any earlier answer
    of the run (and those are pairwise distinct); its title is that of the
    body; its description is the one given, and none when the body has none
    or null; its [status] is "open" when the body omits [status] and the
    given text when the body gives one.  The candidates are not touched. *)
Theorem create_vacancy_fresh_id
    (rs : list Request) (title : string) (description status : Field) :
  let w := (serve rs booted).1 in
  let issued := issued_vacancy_ids (serve rs booted).2 in
  let body := {| VacancyBody.title := Str title;
                 VacancyBody.description := description;
                 VacancyBody.status := status |} in
  has_NUL title = false ->
  field_has_NUL description = false ->
  field_has_NUL status = false ->
  (next_id (vacancies (database w)) <= max_serial)%Z ->
  exists t r v w',
    vacancies (database w) = Some t /\
    handle (POST_vacancies body) w = (w', Returned (JSON_vacancy v)) /\
    read_vacancy r = v /\
    vacancies (database w') =
      Some {| rows := rows t ++ [r]; serial := VacancyRead.id v + 1 |} /\
    candidates (database w') = candidates (database w) /\
    (0 < VacancyRead.id v)%Z /\
    (VacancyRead.id v ∉ VacancyRow.id <$> rows t) /\
    (VacancyRead.id v ∉ issued) /\
    NoDup (issued ++ [VacancyRead.id v]) /\
    VacancyRead.title v = title /\
    (description = Missing \/ description = Null ->
     VacancyRead.description v = None) /\
    (forall s, description = Str s -> VacancyRead.description v = Some s) /\
    (status = Missing -> VacancyRead.status v = "open") /\
    (forall s, status = Str s -> VacancyRead.status v = s).
Proof.
  intros w issued body Hct Hcd Hcs Hleft.
  destruct (serve_history rs) as ((t & tc & Ht & Htc & Hseq & Hseqc) & Hi & Hnd).
  fold w in Ht, Htc, Hi. fold issued in Hi, Hnd. specialize (Hi t Ht).
  rewrite Ht in Hleft. cbn in Hleft.
  destruct (handle_POST_vacancies w t body _ eq_refl Ht Hseq) as (r & Hrun & Hread);
    [done | by apply optional_clean | by apply optional_clean | done |].
  cbn in Hread.
  assert (Hfresh : serial t ∉ issued).
  { intros Hin. rewrite Forall_forall in Hi. apply Hi in Hin. lia. }
  eexists t, r, _, _. split; [done|]. split; [exact Hrun|].
  rewrite Hread. cbn. repeat split; try done.
  - by apply sequence_ahead_spec in Hseq as [? _].
  - by apply serial_not_stored.
  - apply NoDup_app. repeat split; [done| |apply NoDup_singleton].
    by intros i Hin ->%list_elem_of_singleton.
  - by intros [-> | ->].
  - by intros s ->.
  - by intros ->.
  - by intros s ->.
Qed.


(** ** A null status *)

(** The INSERT leaves out an attribute that is [None], so the instance made
    from a null [status] and the one made from the status "open" are stored,
    refreshed and answered alike. *)
Lemma create_vacancy_null_status
    (w : World) (title : string) (description : option string) :
  get_db (create_vacancy {| VacancyCreate.title := title;
                            VacancyCreate.description := description;
                            VacancyCreate.status := None |}) w =
  get_db (create_vacancy {| VacancyCreate.title := title;
                            VacancyCreate.description := description;
                            VacancyCreate.status := Some status_default |}) w.
Proof.
  rewrite !get_db_create_vacancy.
  unfold INSERT, insert_vacancy, vacancy_values, VacancyCreate.construct,
    Vacancy.init.
  cbn [VacancyCreate.title VacancyCreate.description VacancyCreate.status
       Vacancy.id Vacancy.title Vacancy.description Vacancy.status default].
  unfold id.
  destruct (adapt title); [|done].
  destruct (adapt_option description); [|done].
  destruct (adapt status_default); [|done].
  destruct (vacancies (database w)) as [t|]; [|done].
  destruct (primary_key None t) as [[i t1]|e]; [|done].
  by destruct (bool_decide _).
Qed.

(** C10, as it is stated, does not hold.  On the freshly booted server,
    POST /vacancies with the body [title = "dev", status = null] validates to
    a payload whose [status] is [None], and still the record stored and
    returned has the status "open": it is not true that a null status is
    never answered with "open". *)
Lemma null_status_is_defaulted :
  VacancyCreate.validate
    {| VacancyBody.title := Str "dev";
       VacancyBody.description := Missing;
       VacancyBody.status := Null |} =
  Returned {| VacancyCreate.title := "dev";
              VacancyCreate.description := None;
              VacancyCreate.status := None |} /\
  (handle (POST_vacancies {| VacancyBody.title := Str "dev";
                             VacancyBody.description := Missing;
                             VacancyBody.status := Null |}) booted).2 =
  Returned (JSON_vacancy {| VacancyRead.id := 1;
                            VacancyRead.title := "dev";
                            VacancyRead.description := None;
                            VacancyRead.status := "open" |}) /\
  vacancies
    (database
       (handle (POST_vacancies {| VacancyBody.title := Str "dev";
                                  VacancyBody.description := Missing;
                                  VacancyBody.status := Null |}) booted).1) =
  Some {| rows := [{| VacancyRow.id := 1;
                      VacancyRow.title := text "dev";
                      VacancyRow.description := None;
                      VacancyRow.status := text "open" |}];
          serial := 2 |} /\
  ~ (forall v,
       (handle (POST_vacancies {| VacancyBody.title := Str "dev";
                                  VacancyBody.description := Missing;
                                  VacancyBody.status := Null |}) booted).2 =
       Returned (JSON_vacancy v) ->
       VacancyRead.status v <> "open").
Proof.
  split; [reflexivity|]. split; [by vm_compute|]. split; [by vm_compute|].
  intros Hclaim. eapply Hclaim; [by vm_compute|]. reflexivity.
Qed.

(** C10, amended.  When the body gives [status] as null, the schema does not
    put "open" in its place: the payload, and the instance the constructor
    makes from it, have the status [None], whereas a body that omits [status]
    validates to the status "open".  The INSERT leaves a [None] attribute out
    and the column default applies: in any world the null body gets the very
    answer, and leaves the very world, that the body without [status] gets;
    and whenever the request is accepted, the record returned has the status
    "open" and is the record stored last. *)
Theorem null_status_takes_column_default
    (w : World) (title : string) (description : Field) :
  let null := {| VacancyBody.title := Str title;
                 VacancyBody.description := description;
                 VacancyBody.status := Null |} in
  let omitted := {| VacancyBody.title := Str title;
                    VacancyBody.description := description;
                    VacancyBody.status := Missing |} in
  exists vacancy vacancy',
    VacancyCreate.validate null = Returned vacancy /\
    VacancyCreate.status vacancy = None /\
    Vacancy.status (VacancyCreate.construct vacancy) = None /\
    VacancyCreate.validate omitted = Returned vacancy' /\
    VacancyCreate.status vacancy' = Some "open" /\
    handle (POST_vacancies null) w = handle (POST_vacancies omitted) w /\
    (forall v w',
       handle (POST_vacancies null) w = (w', Returned (JSON_vacancy v)) ->
       VacancyRead.status v = "open" /\
       exists t r, vacancies (database w') = Some t /\
                   last (rows t) = Some r /\ read_vacancy r = v).
Proof.
  intros null omitted.
  eexists _, _. split; [reflexivity|]. split; [reflexivity|].
  split; [reflexivity|]. split; [reflexivity|]. split; [reflexivity|].
  split.
  - rewrite !handle_steps. unfold bind, lift.
    change (VacancyCreate.validate null) with
      (Returned {| VacancyCreate.title := title;
                   VacancyCreate.description := optional None description;
                   VacancyCreate.status := None |}).
    change (VacancyCreate.validate omitted) with
      (Returned {| VacancyCreate.title := title;
                   VacancyCreate.description := optional None description;
                   VacancyCreate.status := Some status_default |}).
    cbv beta iota. by rewrite create_vacancy_null_status.
  - intros v w' Hrun.
    apply handle_POST_vacancies_accepted in Hrun
      as (vc & t & r & Hval & Ht & -> & Hread & -> & _).
    cbn in Hval. simplify_eq. split; [done|].
    eexists _, r. split; [reflexivity|]. split; [apply last_snoc|done].
Qed.

(** ** The statements at work on the sample world *)

Lemma list_vacancies_page_witness :
  vacancies (database sample_world) = Some sample_vacancies /\
  handle (GET_vacancies (Some 0%Z) (Some 1%Z)) sample_world =
  (sample_world,
   Returned (JSON_vacancies
     [ {| VacancyRead.id := 1; VacancyRead.title := "Engineer";
          VacancyRead.description := None; VacancyRead.status := "open" |} ])).
Proof.
  split; [reflexivity|].
  apply (list_vacancies_page sample_world sample_vacancies 0 1);
    [reflexivity | by vm_compute | by vm_compute].
Defined.

Lemma create_candidate_duplicate_email_witness :
  (CandidateCreate.email (sample_payload "ada@example.org")
     ∈ emails sample_candidates) /\
  get_db (create_candidate (sample_payload "ada@example.org")) sample_world =
  (sample_world,
   Raised (HTTPException 400 "Candidate with this email already exists")).
Proof.
  assert (H : CandidateCreate.email (sample_payload "ada@example.org")
              ∈ emails sample_candidates) by (vm_compute; left).
  split; [exact H|].
  apply (create_candidate_duplicate_email sample_world sample_candidates
           (sample_payload "ada@example.org") eq_refl H).
Defined.

Lemma unique_email_preserved_witness :
  unique_emails (database sample_world) /\
  unique_emails
    (database (handle (POST_candidates (sample_body "grace@example.org"))
                 sample_world).1).
Proof.
  assert (H : unique_emails (database sample_world)).
  { intros t Ht. injection Ht as <-. vm_compute. apply NoDup_singleton. }
  split; [exact H|].
  apply (unique_email_preserved
           (POST_candidates (sample_body "grace@example.org")) sample_world H).
Defined.

Lemma create_vacancy_fresh_id_witness :
  (next_id (vacancies (database (serve [] booted).1)) <= max_serial)%Z /\
  exists v w',
    handle (POST_vacancies {| VacancyBody.title := Str "Engineer";
                              VacancyBody.description := Null;
                              VacancyBody.status := Missing |})
      (serve [] booted).1 = (w', Returned (JSON_vacancy v)) /\
    (0 < VacancyRead.id v)%Z /\
    VacancyRead.title v = "Engineer" /\
    VacancyRead.description v = None /\
    VacancyRead.status v = "open".
Proof.
  assert (H : (next_id (vacancies (database (serve [] booted).1)) <= max_serial)%Z)
    by (by vm_compute).
  split; [exact H|].
  destruct (create_vacancy_fresh_id [] "Engineer" Null Missing
              eq_refl eq_refl eq_refl H)
    as (t & r & v & w' & Ht & Hpost & Hread & Hstored & Hother & Hpos & Hnew
        & Hissued & Hnd & Htitle & Hnone & Hsome & Hopen & Hgiven).
  exists v, w'. split; [exact Hpost|]. split; [exact Hpos|].
  split; [exact Htitle|]. split; [apply Hnone; by right|]. by apply Hopen.
Defined.


(** A run from boot: two vacancies are created, the first page of one is
    read, a candidate is created, the same email is refused, a body without
    title is refused, and so are a title with a NUL character and a page
    beyond the bigint range. *)
Example sample_run :
  (serve
     [ POST_vacancies {| VacancyBody.title := Str "Engineer";
                         VacancyBody.description := Missing;
                         VacancyBody.status := Missing |};
       POST_vacancies {| VacancyBody.title := Str "Recruiter";
                         VacancyBody.description := Str "Sourcing";
                         VacancyBody.status := Str "closed" |};
       GET_vacancies (Some 0%Z) (Some 1%Z);
       POST_candidates (sample_body "ada@example.org");
       POST_candidates (sample_body "ada@example.org");
       POST_vacancies {| VacancyBody.title := Null;
                         VacancyBody.description := Missing;
                         VacancyBody.status := Missing |};
       POST_vacancies {| VacancyBody.title := Str (String Ascii.zero "dev");
                         VacancyBody.description := Missing;
                         VacancyBody.status := Missing |};
       GET_vacancies (Some 0%Z) (Some 9223372036854775808%Z) ]
     booted).2 =
  [ Returned (JSON_vacancy
      {| VacancyRead.id := 1; VacancyRead.title := "Engineer";
         VacancyRead.description := None; VacancyRead.status := "open" |});
    Returned (JSON_vacancy
      {| VacancyRead.id := 2; VacancyRead.title := "Recruiter";
         VacancyRead.description := Some "Sourcing";
         VacancyRead.status := "closed" |});
    Returned (JSON_vacancies
      [ {| VacancyRead.id := 1; VacancyRead.title := "Engineer";
           VacancyRead.description := None; VacancyRead.status := "open" |} ]);
    Returned (JSON_candidate
      {| CandidateRead.id := 1; CandidateRead.full_name := "Ada Lovelace";
         CandidateRead.email := "ada@example.org";
         CandidateRead.phone := None; CandidateRead.city := None |});
    Raised (HTTPException 400 "Candidate with this email already exists");
    Raised (RequestValidationError "title");
    Raised (ValueError "A string literal cannot contain NUL (0x00) characters.");
    Raised (DataError "bigint out of range") ].
Proof. by vm_compute. Qed.

(** * Further properties of the code *)

(** ** Bodies that do not validate *)

(** X1. POST /vacancies with a body whose [title] is absent or null is
    refused with a request validation error on [title], answered 422, a
    client error; the world is unchanged: nothing is stored, no sequence
    moves and no session stays open. *)
Theorem vacancy_without_title_refused
    (w : World) (description status : Field) :
  handle (POST_vacancies {| VacancyBody.title := Missing;
                            VacancyBody.description := description;
                            VacancyBody.status := status |}) w =
    (w, Raised (RequestValidationError "title")) /\
  handle (POST_vacancies {| VacancyBody.title := Null;
                            VacancyBody.description := description;
                            VacancyBody.status := status |}) w =
    (w, Raised (RequestValidationError "title")) /\
  http_status (RequestValidationError "title") = 422%Z /\
  client_error (RequestValidationError "title").
Proof.
  split; [by rewrite handle_steps|]. split; [by rewrite handle_steps|].
  split; [reflexivity|]. unfold client_error. cbn. lia.
Qed.

(** X2. POST /candidates with a body whose [full_name] is absent or null is
    refused with a request validation error on [full_name], whatever the
    email; with a name and an [email] that is absent or null it is refused
    with one on [email].  Both are answered 422 and leave the world
    unchanged, also when the email is that of a stored candidate. *)
Theorem candidate_without_name_or_email_refused
    (w : World) (name : string) (full_name email phone city : Field) :
  (full_name = Missing \/ full_name = Null ->
   handle (POST_candidates {| CandidateBody.full_name := full_name;
                              CandidateBody.email := email;
                              CandidateBody.phone := phone;
                              CandidateBody.city := city |}) w =
     (w, Raised (RequestValidationError "full_name"))) /\
  (email = Missing \/ email = Null ->
   handle (POST_candidates {| CandidateBody.full_name := Str name;
                              CandidateBody.email := email;
                              CandidateBody.phone := phone;
                              CandidateBody.city := city |}) w =
     (w, Raised (RequestValidationError "email"))) /\
  http_status (RequestValidationError "full_name") = 422%Z /\
  http_status (RequestValidationError "email") = 422%Z.
Proof.
  split; [|split; [|done]].
  - intros [-> | ->]; by rewrite handle_steps.
  - intros [-> | ->]; by rewrite handle_steps.
Qed.

(** ** Pages *)

(** X3. On a database whose table [candidates] holds the rows [rows t], and
    for [skip] and [limit] that are non-negative and at most
    9223372036854775807 (a bigint), GET /candidates answers with the page
    [take limit (drop skip (rows t))] and leaves the world unchanged: at
    most [limit] records, [min limit (length - skip)] of them, the record at
    place [i] being the stored candidate at place [skip + i] with all its
    fields; an absent [skip] is 0 and an absent [limit] is 100. *)
Theorem list_candidates_page
    (w : World) (t : Table CandidateRow.t) (skip limit : Z) :
  candidates (database w) = Some t ->
  (0 <= skip <= Query.max_bigint)%Z -> (0 <= limit <= Query.max_bigint)%Z ->
  let page := take (Z.to_nat limit) (drop (Z.to_nat skip) (rows t)) in
  handle (GET_candidates (Some skip) (Some limit)) w =
    (w, Returned (JSON_candidates (read_candidate <$> page))) /\
  length page = Nat.min (Z.to_nat limit) (length (rows t) - Z.to_nat skip) /\
  (forall i, i < length page -> page !! i = rows t !! (Z.to_nat skip + i)) /\
  handle (GET_candidates None None) w =
    handle (GET_candidates (Some 0%Z) (Some 100%Z)) w /\
  handle (GET_candidates None (Some limit)) w =
    handle (GET_candidates (Some 0%Z) (Some limit)) w /\
  handle (GET_candidates (Some skip) None) w =
    handle (GET_candidates (Some skip) (Some 100%Z)) w.
Proof.
  intros Ht Hskip Hlimit page.
  split; [by apply handle_GET_candidates|].
  split; [subst page; by rewrite length_take, length_drop|].
  split; [|done].
  intros i Hi. subst page. rewrite length_take in Hi.
  rewrite lookup_take_lt by lia. apply lookup_drop.
Qed.

Lemma list_candidates_page_witness :
  candidates (database sample_world) = Some sample_candidates /\
  handle (GET_candidates (Some 0%Z) (Some 5%Z)) sample_world =
  (sample_world,
   Returned (JSON_candidates
     [ {| CandidateRead.id := 1; CandidateRead.full_name := "Ada King";
          CandidateRead.email := "ada@example.org";
          CandidateRead.phone := None;
          CandidateRead.city := Some "London" |} ])).
Proof.
  split; [reflexivity|].
  apply (list_candidates_page sample_world sample_candidates 0 5);
    [reflexivity | by vm_compute | by vm_compute].
Defined.

(** X4. Pages fit together.  For non-negative [skip], [a] and [b] with
    [skip + a] and [a + b] at most 9223372036854775807 (so that every
    OFFSET and LIMIT sent is a bigint), the page of [a] records at [skip]
    followed by the page of [b] records at [skip + a] is the page of
    [a + b] records at [skip]: reading page after page neither loses a
    record nor shows one twice.  So it is for GET /vacancies and for
    GET /candidates. *)
Theorem pages_compose
    (w : World) (tv : Table VacancyRow.t) (tc : Table CandidateRow.t)
    (skip a b : Z) :
  vacancies (database w) = Some tv ->
  candidates (database w) = Some tc ->
  (0 <= skip)%Z -> (0 <= a)%Z -> (0 <= b)%Z ->
  (skip + a <= Query.max_bigint)%Z -> (a + b <= Query.max_bigint)%Z ->
  exists v1 v2 c1 c2,
    handle (GET_vacancies (Some skip) (Some a)) w =
      (w, Returned (JSON_vacancies v1)) /\
    handle (GET_vacancies (Some (skip + a)%Z) (Some b)) w =
      (w, Returned (JSON_vacancies v2)) /\
    handle (GET_vacancies (Some skip) (Some (a + b)%Z)) w =
      (w, Returned (JSON_vacancies (v1 ++ v2))) /\
    handle (GET_candidates (Some skip) (Some a)) w =
      (w, Returned (JSON_candidates c1)) /\
    handle (GET_candidates (Some (skip + a)%Z) (Some b)) w =
      (w, Returned (JSON_candidates c2)) /\
    handle (GET_candidates (Some skip) (Some (a + b)%Z)) w =
      (w, Returned (JSON_candidates (c1 ++ c2))).
Proof.
  intros Hv Hc Hskip Ha Hb Hsa Hab. eexists _, _, _, _.
  rewrite !(handle_GET_vacancies w tv), !(handle_GET_candidates w tc)
    by (done || lia).
  rewrite !Z2Nat.inj_add by lia.
  rewrite <- !take_take_drop, <- !drop_drop, !fmap_app.
  repeat split.
Qed.

Lemma pages_compose_witness :
  exists v1 v2,
    handle (GET_vacancies (Some 0%Z) (Some 1%Z)) sample_world =
      (sample_world, Returned (JSON_vacancies v1)) /\
    handle (GET_vacancies (Some 1%Z) (Some 1%Z)) sample_world =
      (sample_world, Returned (JSON_vacancies v2)) /\
    handle (GET_vacancies (Some 0%Z) (Some 2%Z)) sample_world =
      (sample_world, Returned (JSON_vacancies (v1 ++ v2))).
Proof.
  destruct (pages_compose sample_world sample_vacancies sample_candidates
              0 1 1 eq_refl eq_refl ltac:(lia) ltac:(lia) ltac:(lia)
              ltac:(by vm_compute) ltac:(by vm_compute))
    as (v1 & v2 & c1 & c2 & H1 & H2 & H3 & _).
  exists v1, v2. split; [exact H1|]. split; [exact H2 | exact H3].
Defined.

(** X5. For [skip] and [limit] that are non-negative and at most
    9223372036854775807, a page that starts at or behind the last stored
    record, and a page of [limit] 0, are the empty list and not an error,
    for GET /vacancies and for GET /candidates. *)
Theorem page_beyond_the_end_is_empty
    (w : World) (tv : Table VacancyRow.t) (tc : Table CandidateRow.t)
    (skip limit : Z) :
  vacancies (database w) = Some tv ->
  candidates (database w) = Some tc ->
  (0 <= skip <= Query.max_bigint)%Z -> (0 <= limit <= Query.max_bigint)%Z ->
  ((Z.of_nat (length (rows tv)) <= skip)%Z \/ limit = 0%Z ->
   handle (GET_vacancies (Some skip) (Some limit)) w =
     (w, Returned (JSON_vacancies []))) /\
  ((Z.of_nat (length (rows tc)) <= skip)%Z \/ limit = 0%Z ->
   handle (GET_candidates (Some skip) (Some limit)) w =
     (w, Returned (JSON_candidates []))).
Proof.
  intros Hv Hc Hskip Hlimit.
  rewrite (handle_GET_vacancies w tv), (handle_GET_candidates w tc)
    by (done || lia).
  split; intros [Hend | ->].
  - rewrite drop_ge by lia. by rewrite take_nil.
  - done.
  - rewrite drop_ge by lia. by rewrite take_nil.
  - done.
Qed.

Lemma page_beyond_the_end_is_empty_witness :
  handle (GET_vacancies (Some 2%Z) (Some 10%Z)) sample_world =
    (sample_world, Returned (JSON_vacancies [])) /\
  handle (GET_candidates (Some 0%Z) (Some 0%Z)) sample_world =
    (sample_world, Returned (JSON_candidates [])) /\
  handle (GET_vacancies (Some 2%Z) (Some 9223372036854775807%Z)) sample_world =
    (sample_world, Returned (JSON_vacancies [])).
Proof.
  split; [|split].
  - apply (page_beyond_the_end_is_empty sample_world sample_vacancies
             sample_candidates 2 10 eq_refl eq_refl
             ltac:(by vm_compute) ltac:(by vm_compute)).
    left. cbn. lia.
  - apply (page_beyond_the_end_is_empty sample_world sample_vacancies
             sample_candidates 0 0 eq_refl eq_refl
             ltac:(by vm_compute) ltac:(by vm_compute)).
    by right.
  - apply (page_beyond_the_end_is_empty sample_world sample_vacancies
             sample_candidates 2 9223372036854775807 eq_refl eq_refl
             ltac:(by vm_compute) ltac:(by vm_compute)).
    left. cbn. lia.
Defined.

(** What the database does with the OFFSET and LIMIT of a query without
    criteria on a table that exists. *)
Lemma select_refused {R : Type} (q : Query.t R) (d : Database) (tb : Table R) :
  Query.where_ q = [] ->
  Query.from q d = Some tb ->
  Query.select q d =
  if Query.out_of_range (Query.offset_ q) || Query.out_of_range (Query.limit_ q)
  then Raised (DataError "bigint out of range")
  else if Query.negative (Query.offset_ q)
  then Raised (DataError "OFFSET must not be negative")
  else if Query.negative (Query.limit_ q)
  then Raised (DataError "LIMIT must not be negative")
  else Returned (Query.load q <$>
         Query.keep_rows (Query.limit_ q)
           (Query.skip_rows (Query.offset_ q)
              (List.filter (Query.passes q) (rows tb)))).
Proof.
  intros Hw Ht. unfold Query.select, Query.parameters. by rewrite Hw, Ht.
Qed.

Lemma out_of_range_spec (n : Z) :
  Query.out_of_range (Some n) = false <->
  (- Query.max_bigint - 1 <= n <= Query.max_bigint)%Z.
Proof.
  unfold Query.out_of_range, Query.in_bigint.
  rewrite negb_false_iff, andb_true_iff, !Z.leb_le. done.
Qed.

(** X6. [skip] and [limit] are not checked by the routes: any integer
    reaches the database, which refuses the query when one of them is
    negative.  With both values in the bigint range (from
    -9223372036854775808 to 9223372036854775807, an absent one being its
    default), a negative [skip] makes GET /vacancies and GET /candidates
    raise the database error "OFFSET must not be negative", and a negative
    [limit] with a non-negative [skip] the error "LIMIT must not be
    negative"; a [skip] or [limit] outside the bigint range is refused with
    "bigint out of range", whatever the other.  These are answered 500 and
    not as a client error, and the world is unchanged. *)
Theorem negative_page_refused
    (w : World) (tv : Table VacancyRow.t) (tc : Table CandidateRow.t)
    (skip limit : Z) :
  vacancies (database w) = Some tv ->
  candidates (database w) = Some tc ->
  ((- Query.max_bigint - 1 <= skip < 0)%Z ->
   forall limit',
     (- Query.max_bigint - 1 <= default 100 limit' <= Query.max_bigint)%Z ->
     handle (GET_vacancies (Some skip) limit') w =
       (w, Raised (DataError "OFFSET must not be negative")) /\
     handle (GET_candidates (Some skip) limit') w =
       (w, Raised (DataError "OFFSET must not be negative"))) /\
  ((- Query.max_bigint - 1 <= limit < 0)%Z ->
   forall skip',
     (0 <= default 0 skip' <= Query.max_bigint)%Z ->
     handle (GET_vacancies skip' (Some limit)) w =
       (w, Raised (DataError "LIMIT must not be negative")) /\
     handle (GET_candidates skip' (Some limit)) w =
       (w, Raised (DataError "LIMIT must not be negative"))) /\
  ((skip < - Query.max_bigint - 1 \/ Query.max_bigint < skip)%Z ->
   forall limit',
     handle (GET_vacancies (Some skip) limit') w =
       (w, Raised (DataError "bigint out of range")) /\
     handle (GET_candidates (Some skip) limit') w =
       (w, Raised (DataError "bigint out of range"))) /\
  ((limit < - Query.max_bigint - 1 \/ Query.max_bigint < limit)%Z ->
   forall skip',
     handle (GET_vacancies skip' (Some limit)) w =
       (w, Raised (DataError "bigint out of range")) /\
     handle (GET_candidates skip' (Some limit)) w =
       (w, Raised (DataError "bigint out of range"))) /\
  (forall msg, http_status (DataError msg) = 500%Z /\
               ~ client_error (DataError msg)).
Proof.
  intros Hv Hc.
  assert (Hgv : forall skip' limit' e,
    Query.select
      (Query.limit (default 100%Z limit')
         (Query.offset (default 0%Z skip') (Session.query_Vacancy 0)))
      (database w) = Raised e ->
    handle (GET_vacancies skip' limit') w = (w, Raised e)).
  { intros skip' limit' e He. rewrite handle_steps. unfold bind.
    by rewrite get_db_list_vacancies, He. }
  assert (Hgc : forall skip' limit' e,
    Query.select
      (Query.limit (default 100%Z limit')
         (Query.offset (default 0%Z skip') (Session.query_Candidate 0)))
      (database w) = Raised e ->
    handle (GET_candidates skip' limit') w = (w, Raised e)).
  { intros skip' limit' e He. rewrite handle_steps. unfold bind.
    by rewrite get_db_list_candidates, He. }
  split; [|split; [|split; [|split]]].
  - intros Hskip limit' Hlimit.
    pose proof (proj2 (out_of_range_spec skip) ltac:(lia)) as Hs.
    pose proof (proj2 (out_of_range_spec (default 100%Z limit')) ltac:(lia)) as Hl.
    assert (Hneg : (skip <? 0)%Z = true) by (apply Z.ltb_lt; lia).
    split.
    + apply Hgv. rewrite (select_refused _ _ tv) by done.
      cbn [Query.limit Query.offset Query.offset_ Query.limit_ default id].
      rewrite Hs, Hl. cbn [orb Query.negative]. by rewrite Hneg.
    + apply Hgc. rewrite (select_refused _ _ tc) by done.
      cbn [Query.limit Query.offset Query.offset_ Query.limit_ default id].
      rewrite Hs, Hl. cbn [orb Query.negative]. by rewrite Hneg.
  - intros Hlimit skip' Hskip.
    pose proof (proj2 (out_of_range_spec limit) ltac:(lia)) as Hl.
    pose proof (proj2 (out_of_range_spec (default 0%Z skip')) ltac:(lia)) as Hs.
    assert (Hneg : (limit <? 0)%Z = true) by (apply Z.ltb_lt; lia).
    assert (Hpos : (default 0%Z skip' <? 0)%Z = false) by (apply Z.ltb_ge; lia).
    split.
    + apply Hgv. rewrite (select_refused _ _ tv) by done.
      cbn [Query.limit Query.offset Query.offset_ Query.limit_ default id].
      rewrite Hs, Hl. cbn [orb Query.negative]. by rewrite Hpos, Hneg.
    + apply Hgc. rewrite (select_refused _ _ tc) by done.
      cbn [Query.limit Query.offset Query.offset_ Query.limit_ default id].
      rewrite Hs, Hl. cbn [orb Query.negative]. by rewrite Hpos, Hneg.
  - intros Hskip limit'.
    assert (Hout : Query.out_of_range (Some skip) = true).
    { destruct (Query.out_of_range (Some skip)) eqn:Hr; [done|].
      apply out_of_range_spec in Hr. lia. }
    split.
    + apply Hgv. rewrite (select_refused _ _ tv) by done.
      cbn [Query.limit Query.offset Query.offset_ Query.limit_ default id].
      by rewrite Hout.
    + apply Hgc. rewrite (select_refused _ _ tc) by done.
      cbn [Query.limit Query.offset Query.offset_ Query.limit_ default id].
      by rewrite Hout.
  - intros Hlimit skip'.
    assert (Hout : Query.out_of_range (Some limit) = true).
    { destruct (Query.out_of_range (Some limit)) eqn:Hr; [done|].
      apply out_of_range_spec in Hr. lia. }
    split.
    + apply Hgv. rewrite (select_refused _ _ tv) by done.
      cbn [Query.limit Query.offset Query.offset_ Query.limit_ default id].
      by rewrite Hout, orb_true_r.
    + apply Hgc. rewrite (select_refused _ _ tc) by done.
      cbn [Query.limit Query.offset Query.offset_ Query.limit_ default id].
      by rewrite Hout, orb_true_r.
  - intros msg. split; [done|]. unfold client_error. cbn. lia.
Qed.

Lemma negative_page_refused_witness :
  handle (GET_vacancies (Some (-1)%Z) None) sample_world =
    (sample_world, Raised (DataError "OFFSET must not be negative")) /\
  handle (GET_candidates None (Some (-5)%Z)) sample_world =
    (sample_world, Raised (DataError "LIMIT must not be negative")) /\
  handle (GET_vacancies (Some 9223372036854775808%Z) (Some (-5)%Z)) sample_world =
    (sample_world, Raised (DataError "bigint out of range")) /\
  handle (GET_vacancies (Some (-9223372036854775808)%Z) None) sample_world =
    (sample_world, Raised (DataError "OFFSET must not be negative")) /\
  handle (GET_vacancies (Some (-9223372036854775809)%Z) None) sample_world =
    (sample_world, Raised (DataError "bigint out of range")).
Proof.
  destruct (negative_page_refused sample_world sample_vacancies
              sample_candidates (-1) (-5) eq_refl eq_refl)
    as (Hskip & Hlimit & _).
  destruct (negative_page_refused sample_world sample_vacancies
              sample_candidates 9223372036854775808 0 eq_refl eq_refl)
    as (_ & _ & Hout & _).
  destruct (negative_page_refused sample_world sample_vacancies
              sample_candidates (-9223372036854775808) 0 eq_refl eq_refl)
    as (Hleast & _).
  destruct (negative_page_refused sample_world sample_vacancies
              sample_candidates (-9223372036854775809) 0 eq_refl eq_refl)
    as (_ & _ & Hbelow & _).
  split; [|split; [|split; [|split]]].
  - apply (Hskip ltac:(by vm_compute) None). by vm_compute.
  - apply (Hlimit ltac:(by vm_compute) None). by vm_compute.
  - apply (Hout ltac:(right; by vm_compute) (Some (-5)%Z)).
  - apply (Hleast ltac:(by vm_compute) None). by vm_compute.
  - apply (Hbelow ltac:(left; by vm_compute) None).
Defined.

(** ** The two tables *)

Lemma rollback_table_same {R : Type} (o : option (Table R)) :
  rollback_table o o = o.
Proof. by destruct o as [[? ?]|]. Qed.

Lemma rollback_same (d : Database) : rollback d d = d.
Proof. destruct d. unfold rollback. cbn. by rewrite !rollback_table_same. Qed.

Lemma INSERT_other_table (i : Instance) (d : Database) :
  match i with
  | AVacancy _ => candidates (INSERT i d).1 = candidates d
  | ACandidate _ => vacancies (INSERT i d).1 = vacancies d
  end.
Proof.
  destruct i as [v|c].
  - destruct (INSERT_AVacancy v d) as [[e ->] | (t & Ht & ->)]; done.
  - destruct (INSERT_ACandidate c d) as [[e ->] | (t & Ht & ->)]; done.
Qed.

Lemma POST_vacancies_keeps_candidates (w : World) (body : VacancyBody.t) :
  candidates (database (handle (POST_vacancies body) w).1) =
  candidates (database w).
Proof.
  rewrite handle_steps. unfold bind, lift, ret.
  destruct (VacancyCreate.validate body) as [vc|e]; [|done].
  rewrite get_db_create_vacancy.
  pose proof (INSERT_other_table (AVacancy (VacancyCreate.construct vc))
                (database w)) as Hother.
  destruct (INSERT _ (database w)) as [d1 [i|e]]; cbn in Hother.
  - destruct (SELECT_pk i d1) as [i'|e]; [|done].
    by destruct (VacancyRead.from_orm i').
  - cbn. rewrite Hother. apply rollback_table_same.
Qed.

Lemma POST_candidates_keeps_vacancies (w : World) (body : CandidateBody.t) :
  vacancies (database (handle (POST_candidates body) w).1) =
  vacancies (database w).
Proof.
  rewrite handle_steps. unfold bind, lift, ret.
  destruct (CandidateCreate.validate body) as [cc|e]; [|done].
  rewrite get_db_create_candidate.
  destruct (Query.select _ _) as [[|x l]|e]; [|done..].
  pose proof (INSERT_other_table (ACandidate (CandidateCreate.construct cc))
                (database w)) as Hother.
  destruct (INSERT _ (database w)) as [d1 [i|e]]; cbn in Hother.
  - destruct (SELECT_pk i d1) as [i'|e]; [|done].
    by destruct (CandidateRead.from_orm i').
  - cbn. rewrite Hother. apply rollback_table_same.
Qed.

(** X7. The two resources do not touch each other.  In every world and for
    every body, POST /vacancies leaves the table [candidates] exactly as it
    was, rows and sequence, and POST /candidates leaves the table
    [vacancies] exactly as it was, whether the request returns or raises. *)
Theorem creating_one_resource_leaves_the_other
    (w : World) (vacancy : VacancyBody.t) (candidate : CandidateBody.t) :
  candidates (database (handle (POST_vacancies vacancy) w).1) =
    candidates (database w) /\
  vacancies (database (handle (POST_candidates candidate) w).1) =
    vacancies (database w).
Proof.
  split.
  - apply POST_vacancies_keeps_candidates.
  - apply POST_candidates_keeps_vacancies.
Qed.

(** ** Requests the driver or the sequence refuses *)

Lemma adapt_NUL (s : string) :
  has_NUL s = true ->
  adapt s = Raised (ValueError "A string literal cannot contain NUL (0x00) characters.").
Proof.
  intros Hs. destruct (adapt s) as [x|e] eqn:Hx.
  - apply adapt_Returned in Hx. pose proof (stored_text_clean x) as Hc.
    rewrite Hx in Hc. congruence.
  - by apply adapt_Raised in Hx as [_ ->].
Qed.

Lemma vacancy_values_stored (v : Vacancy.t) (row : Z -> VacancyRow.t) :
  vacancy_values v = Returned row ->
  has_NUL (Vacancy.title v) = false /\
  option_has_NUL (Vacancy.description v) = false /\
  option_has_NUL (Vacancy.status v) = false.
Proof.
  intros Hrow.
  destruct (has_NUL (Vacancy.title v)) eqn:Ht.
  { unfold vacancy_values in Hrow. by rewrite (adapt_NUL _ Ht) in Hrow. }
  destruct (option_has_NUL (Vacancy.description v)) eqn:Hd.
  { unfold vacancy_values in Hrow.
    destruct (adapt (Vacancy.title v)); [|done].
    destruct (adapt_option (Vacancy.description v)) as [x|] eqn:Hx; [|done].
    apply adapt_option_Returned in Hx. rewrite <- Hx in Hd.
    destruct x as [y|]; [|done].
    change (has_NUL (Text.chars y) = true) in Hd.
    by rewrite stored_text_clean in Hd. }
  destruct (option_has_NUL (Vacancy.status v)) eqn:Hs; [|done].
  unfold vacancy_values in Hrow.
  destruct (adapt (Vacancy.title v)); [|done].
  destruct (adapt_option (Vacancy.description v)); [|done].
  destruct (Vacancy.status v) as [s|]; [|done]. cbn in Hs, Hrow.
  by rewrite (adapt_NUL _ Hs) in Hrow.
Qed.

Lemma candidate_values_stored (c : Candidate.t) (row : Z -> CandidateRow.t) :
  candidate_values c = Returned row ->
  has_NUL (Candidate.full_name c) = false /\
  has_NUL (Candidate.email c) = false /\
  option_has_NUL (Candidate.phone c) = false /\
  option_has_NUL (Candidate.city c) = false.
Proof.
  unfold candidate_values. intros Hrow.
  destruct (adapt (Candidate.full_name c)) as [x|] eqn:Hx; [|done].
  destruct (adapt (Candidate.email c)) as [y|] eqn:Hy; [|done].
  destruct (adapt_option (Candidate.phone c)) as [z|] eqn:Hz; [|done].
  destruct (adapt_option (Candidate.city c)) as [u|] eqn:Hu; [|done].
  apply adapt_Returned in Hx, Hy. apply adapt_option_Returned in Hz, Hu.
  rewrite <- Hx, <- Hy, <- Hz, <- Hu.
  rewrite !stored_text_clean.
  destruct z, u; cbn; by rewrite ?stored_text_clean.
Qed.

(** A value the driver refuses: the INSERT is not sent. *)
Lemma create_vacancy_not_adapted (w : World) (vacancy : VacancyCreate.t) (e : Exn) :
  vacancy_values (VacancyCreate.construct vacancy) = Raised e ->
  get_db (create_vacancy vacancy) w = (w, Raised e).
Proof.
  intros He. rewrite get_db_create_vacancy. unfold INSERT. rewrite He.
  by rewrite rollback_same, world_eta.
Qed.

(** The sequence has ended: the INSERT fails and is rolled back. *)
Lemma create_vacancy_exhausted
    (w : World) (t : Table VacancyRow.t) (vacancy : VacancyCreate.t)
    (row : Z -> VacancyRow.t) :
  vacancies (database w) = Some t ->
  vacancy_values (VacancyCreate.construct vacancy) = Returned row ->
  (max_serial < serial t)%Z ->
  get_db (create_vacancy vacancy) w =
  (w, Raised (DataError "nextval: reached maximum value of sequence")).
Proof.
  intros Ht Hrow Hend. rewrite get_db_create_vacancy.
  unfold INSERT, insert_vacancy. rewrite Hrow, Ht.
  unfold primary_key, nextval. cbn [VacancyCreate.construct Vacancy.init Vacancy.id].
  rewrite (proj2 (Z.ltb_lt _ _) Hend). rewrite <- Ht.
  replace {| vacancies := vacancies (database w);
             candidates := candidates (database w) |} with (database w)
    by by destruct (database w).
  by rewrite rollback_same, world_eta.
Qed.

Lemma create_candidate_not_adapted
    (w : World) (t : Table CandidateRow.t) (candidate : CandidateCreate.t)
    (e : Exn) :
  candidates (database w) = Some t ->
  has_NUL (CandidateCreate.email candidate) = false ->
  CandidateCreate.email candidate ∉ emails t ->
  candidate_values (CandidateCreate.construct candidate) = Raised e ->
  get_db (create_candidate candidate) w = (w, Raised e).
Proof.
  intros Ht Hclean Hnew He. rewrite get_db_create_candidate.
  destruct (select_by_email (database w) t _ Hclean Ht) as (l & -> & Hl).
  rewrite (proj2 Hl Hnew). unfold INSERT. rewrite He.
  by rewrite rollback_same, world_eta.
Qed.

Lemma create_candidate_exhausted
    (w : World) (t : Table CandidateRow.t) (candidate : CandidateCreate.t)
    (row : Z -> CandidateRow.t) :
  candidates (database w) = Some t ->
  CandidateCreate.email candidate ∉ emails t ->
  candidate_values (CandidateCreate.construct candidate) = Returned row ->
  (max_serial < serial t)%Z ->
  get_db (create_candidate candidate) w =
  (w, Raised (DataError "nextval: reached maximum value of sequence")).
Proof.
  intros Ht Hnew Hrow Hend. rewrite get_db_create_candidate.
  destruct (candidate_values_stored _ _ Hrow) as (_ & Hclean & _).
  destruct (select_by_email (database w) t (CandidateCreate.email candidate)
              Hclean Ht) as (l & -> & Hl).
  rewrite (proj2 Hl Hnew).
  unfold INSERT, insert_candidate. rewrite Hrow, Ht.
  unfold primary_key, nextval.
  cbn [CandidateCreate.construct Candidate.init Candidate.id].
  rewrite (proj2 (Z.ltb_lt _ _) Hend). rewrite <- Ht.
  replace {| vacancies := vacancies (database w);
             candidates := candidates (database w) |} with (database w)
    by by destruct (database w).
  by rewrite rollback_same, world_eta.
Qed.

(** An address that does not fit in the index: the INSERT fails after the
    sequence has handed out its value, and is rolled back. *)
Lemma create_candidate_too_long
    (w : World) (t : Table CandidateRow.t) (candidate : CandidateCreate.t)
    (row : Z -> CandidateRow.t) :
  candidates (database w) = Some t ->
  sequence_ahead CandidateRow.id t = true ->
  CandidateCreate.email candidate ∉ emails t ->
  candidate_values (CandidateCreate.construct candidate) = Returned row ->
  (serial t <= max_serial)%Z ->
  index_entry_fits (CandidateCreate.email candidate) = false ->
  get_db (create_candidate candidate) w =
  ({| database :=
        {| vacancies := vacancies (database w);
           candidates := Some {| rows := rows t; serial := serial t + 1 |} |};
      sessions := sessions w |},
   Raised (OperationalError "index row size exceeds btree maximum")).
Proof.
  intros Ht Hseq Hnew Hrow Hleft Hfits. rewrite get_db_create_candidate.
  destruct (candidate_values_stored _ _ Hrow) as (_ & Hclean & _).
  destruct (select_by_email (database w) t (CandidateCreate.email candidate)
              Hclean Ht) as (l & -> & Hl).
  rewrite (proj2 Hl Hnew).
  unfold INSERT, insert_candidate. rewrite Hrow, Ht.
  cbn [CandidateCreate.construct Candidate.init Candidate.id Candidate.email].
  rewrite (primary_key_new t Hleft). cbn [rows].
  rewrite bool_decide_eq_false_2 by by apply serial_not_stored.
  rewrite bool_decide_eq_false_2 by done.
  rewrite Hfits. unfold rollback. cbn [vacancies candidates]. rewrite Ht.
  by rewrite rollback_table_same.
Qed.

(** ** The answers of a booted server *)

Lemma validate_vacancy_Raised (body : VacancyBody.t) (e : Exn) :
  VacancyCreate.validate body = Raised e -> e = RequestValidationError "title".
Proof.
  unfold VacancyCreate.validate, required.
  destruct (VacancyBody.title body); by intros [= <-].
Qed.

Lemma validate_candidate_Raised (body : CandidateBody.t) (e : Exn) :
  CandidateCreate.validate body = Raised e ->
  e = RequestValidationError "full_name" \/ e = RequestValidationError "email".
Proof.
  unfold CandidateCreate.validate, required.
  destruct (CandidateBody.full_name body), (CandidateBody.email body);
    intros [= <-]; auto.
Qed.

Lemma handle_foreseen (r : Request) (w : World) :
  sound (database w) -> foreseen (handle r w).2.
Proof.
  intros (tv & tc & Hv & Hc & Hsv & Hsc).
  destruct r as [|skip limit|body|skip limit|body].
  - done.
  - rewrite handle_steps. unfold bind, lift, ret.
    rewrite get_db_list_vacancies.
    rewrite (select_refused _ _ tv) by done.
    destruct (_ || _); [cbn; auto|].
    destruct (Query.negative _); [cbn; auto|].
    destruct (Query.negative _); [cbn; auto|].
    cbn [Query.load Query.limit Query.offset Session.query_Vacancy].
    by rewrite each_vacancy_rows.
  - destruct (VacancyCreate.validate body) as [vc|e] eqn:Hval.
    2:{ rewrite handle_steps. unfold bind, lift. rewrite Hval. cbn.
        apply validate_vacancy_Raised in Hval as ->. cbn. auto. }
    destruct (vacancy_values (VacancyCreate.construct vc)) as [row|e] eqn:Hrow.
    2:{ rewrite handle_steps. unfold bind, lift. rewrite Hval.
        rewrite (create_vacancy_not_adapted w vc e Hrow).
        by apply vacancy_values_Raised in Hrow as [-> _]. }
    destruct (Z.le_gt_cases (serial tv) max_serial) as [Hleft|Hend].
    + destruct (vacancy_values_stored _ _ Hrow) as (Hct & Hcd & Hcs).
      by destruct (handle_POST_vacancies w tv body vc Hval Hv Hsv Hct Hcd Hcs Hleft)
        as (r & -> & _).
    + rewrite handle_steps. unfold bind, lift. rewrite Hval.
      rewrite (create_vacancy_exhausted w tv vc row Hv Hrow Hend). cbn. auto.
  - rewrite handle_steps. unfold bind, lift, ret.
    rewrite get_db_list_candidates.
    rewrite (select_refused _ _ tc) by done.
    destruct (_ || _); [cbn; auto|].
    destruct (Query.negative _); [cbn; auto|].
    destruct (Query.negative _); [cbn; auto|].
    cbn [Query.load Query.limit Query.offset Session.query_Candidate].
    by rewrite each_candidate_rows.
  - destruct (CandidateCreate.validate body) as [cc|e] eqn:Hval.
    2:{ rewrite handle_steps. unfold bind, lift. rewrite Hval. cbn.
        apply validate_candidate_Raised in Hval as [-> | ->]; cbn; auto. }
    destruct (has_NUL (CandidateCreate.email cc)) eqn:Hce.
    { rewrite handle_steps. unfold bind, lift. rewrite Hval.
      rewrite get_db_create_candidate.
      by rewrite (select_by_email_NUL (database w) _ Hce). }
    destruct (decide (CandidateCreate.email cc ∈ emails tc)) as [Hin|Hnew].
    { by rewrite (handle_POST_candidates_stored w tc body cc Hval Hc Hin). }
    destruct (candidate_values (CandidateCreate.construct cc)) as [row|e] eqn:Hrow.
    2:{ rewrite handle_steps. unfold bind, lift. rewrite Hval.
        rewrite (create_candidate_not_adapted w tc cc e Hc Hce Hnew Hrow).
        by apply candidate_values_Raised in Hrow as [-> _]. }
    destruct (Z.le_gt_cases (serial tc) max_serial) as [Hleft|Hend].
    + destruct (candidate_values_stored _ _ Hrow) as (Hcn & _ & Hcp & Hcc).
      destruct (index_entry_fits (CandidateCreate.email cc)) eqn:Hfits.
      * by destruct (handle_POST_candidates w tc body cc Hval Hc Hsc Hnew
                       Hcn Hce Hcp Hcc Hleft Hfits) as (r & -> & _).
      * rewrite handle_steps. unfold bind, lift. rewrite Hval.
        by rewrite (create_candidate_too_long w tc cc row Hc Hsc Hnew Hrow
                      Hleft Hfits).
    + rewrite handle_steps. unfold bind, lift. rewrite Hval.
      rewrite (create_candidate_exhausted w tc cc row Hc Hnew Hrow Hend).
      cbn. auto.
Qed.

Lemma serve_answers (rs : list Request) (r : Request) (w : World) :
  (serve (rs ++ [r]) w).2 = (serve rs w).2 ++ [(handle r (serve rs w).1).2].
Proof.
  rewrite serve_snoc. destruct (serve rs w) as [w1 os]. cbn [fst snd].
  by destruct (handle r w1).
Qed.

(** X8. A server that has booted answers every request, in every run of
    requests served one after the other, with a value, or with one of these
    refusals: of a stored email (400, "Candidate with this email already
    exists"); of a body that does not validate, on [title], [full_name] or
    [email] (422); of a string that holds a NUL character (the driver's
    [ValueError]); of a [skip] or [limit] that is no bigint or is negative;
    of an INSERT when the sequence has reached its maximum, or when the
    email does not fit in an entry of the unique index.  It never
    answers with an integrity error, a missing relation, an instance that
    cannot be refreshed, or a record its response model rejects: the check
    in [create_candidate] comes before the unique index, and what is stored
    always fits the response schemas. *)
Theorem answers_are_foreseen (rs : list Request) :
  Forall foreseen (serve rs booted).2 /\
  (forall e, Raised e ∈ (serve rs booted).2 ->
     (forall c, e <> IntegrityError c) /\
     (forall n, e <> ProgrammingError n) /\
     (forall m, e <> InvalidRequestError m) /\
     (forall f, e <> ResponseValidationError f)).
Proof.
  assert (Hall : Forall foreseen (serve rs booted).2).
  { induction rs as [|r rs IH] using rev_ind; [constructor|].
    rewrite serve_answers. apply Forall_app. split; [done|].
    apply Forall_singleton, handle_foreseen, serve_history. }
  split; [done|]. intros e Hin.
  rewrite Forall_forall in Hall. apply Hall in Hin.
  by destruct e.
Qed.

(** ** An email, once stored *)

Lemma stored_email_stays (rs : list Request) (w : World)
    (t : Table CandidateRow.t) (e : string) :
  candidates (database w) = Some t -> e ∈ emails t ->
  exists t', candidates (database (serve rs w).1) = Some t' /\ e ∈ emails t'.
Proof.
  intros Ht Hin. destruct (serve_kept rs w) as [_ Hc].
  destruct (Hc t Ht) as (t' & added & Ht' & Hrows).
  exists t'. split; [done|]. unfold emails in *. rewrite Hrows, fmap_app.
  apply elem_of_app. by left.
Qed.

(** X9. Once POST /candidates has stored an email, the email is taken for
    good.  In any world, hence at any point of any run, when a
    POST /candidates has been accepted and answered with a record, every
    later POST /candidates that carries the email of that record, whatever
    its name, phone and city and whatever requests were served one after
    the other in between, is refused with 400 "Candidate with this email
    already exists" and changes nothing. *)
Theorem stored_email_is_taken_for_good
    (w w' : World) (first : CandidateBody.t) (c : CandidateRead.t)
    (rs : list Request) (full_name : string) (phone city : Field) :
  let again := {| CandidateBody.full_name := Str full_name;
                  CandidateBody.email := Str (CandidateRead.email c);
                  CandidateBody.phone := phone;
                  CandidateBody.city := city |} in
  handle (POST_candidates first) w = (w', Returned (JSON_candidate c)) ->
  handle (POST_candidates again) (serve rs w').1 =
    ((serve rs w').1,
     Raised (HTTPException 400 "Candidate with this email already exists")).
Proof.
  intros again Hfirst.
  apply handle_POST_candidates_accepted in Hfirst
    as (cc & t & r & Hval & Ht & -> & Hread & Hc & _).
  set (w' := {| database := _; sessions := _ |}).
  destruct (stored_email_stays rs w' _ (CandidateRead.email c) eq_refl)
    as (t' & Ht' & Hin).
  { unfold emails. cbn [rows]. rewrite fmap_app. apply elem_of_app. right.
    apply list_elem_of_singleton. by rewrite <- Hread. }
  by apply (handle_POST_candidates_stored _ t' again _ eq_refl Ht').
Qed.

Lemma stored_email_is_taken_for_good_witness :
  exists w',
    (handle (POST_candidates (sample_body "ada@example.org")) booted).1 = w' /\
    handle (POST_candidates
              {| CandidateBody.full_name := Str "Someone Else";
                 CandidateBody.email := Str "ada@example.org";
                 CandidateBody.phone := Str "555";
                 CandidateBody.city := Missing |})
      (serve [GET_health; GET_candidates None None] w').1 =
      ((serve [GET_health; GET_candidates None None] w').1,
       Raised (HTTPException 400 "Candidate with this email already exists")).
Proof.
  eexists. split; [reflexivity|].
  apply (stored_email_is_taken_for_good booted
           (handle (POST_candidates (sample_body "ada@example.org")) booted).1
           (sample_body "ada@example.org")
           {| CandidateRead.id := 1; CandidateRead.full_name := "Ada Lovelace";
              CandidateRead.email := "ada@example.org";
              CandidateRead.phone := None; CandidateRead.city := None |}
           [GET_health; GET_candidates None None] "Someone Else" (Str "555")
           Missing).
  by vm_compute.
Defined.

(** ** The unique index *)

Lemma select_not_integrity {R : Type} (q : Query.t R) (d : Database) (c : string) :
  Query.select q d <> Raised (IntegrityError c).
Proof. unfold Query.select. by repeat case_match. Qed.

Lemma each_vacancy_not_integrity (l : list Instance) (c : string) :
  each VacancyRead.from_orm l <> Raised (IntegrityError c).
Proof.
  induction l as [|i l IH]; cbn; [done|].
  destruct (VacancyRead.from_orm i) as [v|e] eqn:Hv.
  - by destruct (each VacancyRead.from_orm l).
  - unfold VacancyRead.from_orm in Hv. repeat case_match; by simplify_eq.
Qed.

Lemma each_candidate_not_integrity (l : list Instance) (c : string) :
  each CandidateRead.from_orm l <> Raised (IntegrityError c).
Proof.
  induction l as [|i l IH]; cbn; [done|].
  destruct (CandidateRead.from_orm i) as [v|e] eqn:Hv.
  - by destruct (each CandidateRead.from_orm l).
  - unfold CandidateRead.from_orm in Hv. repeat case_match; by simplify_eq.
Qed.

Lemma SELECT_pk_not_integrity (i : Instance) (d : Database) (c : string) :
  SELECT_pk i d <> Raised (IntegrityError c).
Proof. unfold SELECT_pk. by repeat case_match. Qed.

Lemma primary_key_not_integrity {R : Type} (given : option Z) (t : Table R)
    (c : string) :
  primary_key given t <> Raised (IntegrityError c).
Proof. unfold primary_key, nextval. by repeat case_match. Qed.

Lemma insert_vacancy_not_unique (v : Vacancy.t) (t : Table VacancyRow.t) :
  (insert_vacancy v t).2 <> Raised (IntegrityError "ix_candidates_email").
Proof.
  unfold insert_vacancy.
  destruct (vacancy_values v) as [row|e] eqn:Hrow.
  2:{ by apply vacancy_values_Raised in Hrow as [-> _]. }
  pose proof (primary_key_not_integrity (Vacancy.id v) t "ix_candidates_email").
  destruct (primary_key _ t) as [[i t1]|e]; [|cbn; congruence].
  by destruct (bool_decide _).
Qed.

Lemma insert_candidate_not_unique (c : Candidate.t) (t : Table CandidateRow.t) :
  Candidate.email c ∉ emails t ->
  (insert_candidate c t).2 <> Raised (IntegrityError "ix_candidates_email").
Proof.
  intros Hnew. unfold insert_candidate.
  destruct (candidate_values c) as [row|e] eqn:Hrow.
  2:{ by apply candidate_values_Raised in Hrow as [-> _]. }
  pose proof (primary_key_not_integrity (Candidate.id c) t "ix_candidates_email").
  destruct (primary_key _ t) as [[i t1]|e] eqn:Hpk; [|cbn; congruence].
  apply primary_key_Returned in Hpk as (Hrows & _).
  destruct (bool_decide (i ∈ _)); [done|].
  rewrite bool_decide_eq_false_2; [by destruct (index_entry_fits _)|].
  unfold emails. by rewrite Hrows.
Qed.

Lemma handle_not_unique (r : Request) (w : World) :
  (handle r w).2 <> Raised (IntegrityError "ix_candidates_email").
Proof.
  rewrite handle_steps.
  destruct r as [|skip limit|body|skip limit|body];
    unfold bind, lift, ret, health.
  - done.
  - rewrite get_db_list_vacancies.
    pose proof (select_not_integrity
      (Query.limit (default 100%Z limit)
         (Query.offset (default 0%Z skip) (Session.query_Vacancy 0)))
      (database w) "ix_candidates_email") as Hs.
    destruct (Query.select _ _) as [l|e]; [|cbn; congruence].
    pose proof (each_vacancy_not_integrity l "ix_candidates_email") as He.
    destruct (each _ l); cbn; congruence.
  - destruct (VacancyCreate.validate body) as [vc|e] eqn:Hval.
    2:{ by apply validate_vacancy_Raised in Hval as ->. }
    rewrite get_db_create_vacancy.
    destruct (INSERT_AVacancy (VacancyCreate.construct vc) (database w))
      as [[e He] | (t & Ht & ->)].
    { rewrite He. cbn. unfold INSERT in He.
      destruct (vacancy_values _) as [row|e'] eqn:Hrow.
      - destruct (vacancies (database w)); [|by simplify_eq].
        pose proof (insert_vacancy_not_unique (VacancyCreate.construct vc) t) as Hi.
        destruct (insert_vacancy _ t) as [t1 [r|e']]; simplify_eq.
        cbn in Hi. congruence.
      - apply vacancy_values_Raised in Hrow as [-> _]. by simplify_eq. }
    pose proof (insert_vacancy_not_unique (VacancyCreate.construct vc) t) as Hi.
    destruct (insert_vacancy _ t) as [t1 [r|e]]; cbn [fst snd] in *.
    + pose proof (SELECT_pk_not_integrity
        (AVacancy {| Vacancy.id := Some (VacancyRow.id r);
                     Vacancy.title := Vacancy.title (VacancyCreate.construct vc);
                     Vacancy.description :=
                       Vacancy.description (VacancyCreate.construct vc);
                     Vacancy.status := Vacancy.status (VacancyCreate.construct vc) |})
        {| vacancies := Some t1; candidates := candidates (database w) |}
        "ix_candidates_email") as Hs.
      destruct (SELECT_pk _ _) as [i|e]; [|cbn; congruence].
      destruct (VacancyRead.from_orm i) as [v|e] eqn:Hv; [done|].
      unfold VacancyRead.from_orm in Hv. repeat case_match; by simplify_eq.
    + cbn. congruence.
  - rewrite get_db_list_candidates.
    pose proof (select_not_integrity
      (Query.limit (default 100%Z limit)
         (Query.offset (default 0%Z skip) (Session.query_Candidate 0)))
      (database w) "ix_candidates_email") as Hs.
    destruct (Query.select _ _) as [l|e]; [|cbn; congruence].
    pose proof (each_candidate_not_integrity l "ix_candidates_email") as He.
    destruct (each _ l); cbn; congruence.
  - destruct (CandidateCreate.validate body) as [cc|e] eqn:Hval.
    2:{ by apply validate_candidate_Raised in Hval as [-> | ->]. }
    rewrite get_db_create_candidate.
    destruct (has_NUL (CandidateCreate.email cc)) eqn:Hce.
    { by rewrite (select_by_email_NUL (database w) _ Hce). }
    destruct (candidates (database w)) as [t|] eqn:Ht.
    2:{ unfold Query.select, Query.parameters. cbn. by rewrite Hce, Ht. }
    destruct (select_by_email (database w) t (CandidateCreate.email cc) Hce Ht)
      as (l & -> & Hl).
    destruct l as [|x l]; [|done].
    assert (Hnew : CandidateCreate.email cc ∉ emails t) by by apply Hl.
    destruct (INSERT_ACandidate (CandidateCreate.construct cc) (database w))
      as [[e He] | (t' & Ht' & ->)].
    { rewrite He. cbn. unfold INSERT in He. rewrite Ht in He.
      destruct (candidate_values _) as [row|e'] eqn:Hrow.
      - pose proof (insert_candidate_not_unique
                      (CandidateCreate.construct cc) t Hnew) as Hi.
        destruct (insert_candidate _ t) as [t1 [r|e']]; simplify_eq.
        cbn in Hi. congruence.
      - apply candidate_values_Raised in Hrow as [-> _]. by simplify_eq. }
    assert (t' = t) as -> by congruence.
    pose proof (insert_candidate_not_unique
                  (CandidateCreate.construct cc) t Hnew) as Hi.
    destruct (insert_candidate _ t) as [t1 [r|e]]; cbn [fst snd] in *.
    + pose proof (SELECT_pk_not_integrity
        (ACandidate
           {| Candidate.id := Some (CandidateRow.id r);
              Candidate.full_name := Candidate.full_name (CandidateCreate.construct cc);
              Candidate.email := Candidate.email (CandidateCreate.construct cc);
              Candidate.phone := Candidate.phone (CandidateCreate.construct cc);
              Candidate.city := Candidate.city (CandidateCreate.construct cc) |})
        {| vacancies := vacancies (database w); candidates := Some t1 |}
        "ix_candidates_email") as Hs.
      destruct (SELECT_pk _ _) as [i|e]; [|cbn; congruence].
      destruct (CandidateRead.from_orm i) as [v|e] eqn:Hv; [done|].
      unfold CandidateRead.from_orm in Hv. repeat case_match; by simplify_eq.
    + cbn. congruence.
Qed.

(** X10. When the requests are served one after the other, each to its end
    before the next begins, no request raises the integrity error of the
    unique index on [email], from whatever world the run starts:
    [create_candidate] looks the email up first and answers 400 itself, and
    when the look-up finds nothing the INSERT that follows in the same
    request passes the index. *)
Theorem unique_index_is_never_hit (w : World) (rs : list Request) :
  Raised (IntegrityError "ix_candidates_email") ∉ (serve rs w).2.
Proof.
  induction rs as [|r rs IH] using rev_ind; [apply not_elem_of_nil|].
  rewrite serve_answers. rewrite elem_of_app, list_elem_of_singleton.
  intros [Hin | Heq]; [done|]. symmetry in Heq. by apply handle_not_unique in Heq.
Qed.

(** ** Primary keys *)

Lemma ascending_rows {R : Type} (key : R -> Z) (t t' : Table R) :
  rows t' = rows t -> ascending key t -> ascending key t'.
Proof. unfold ascending. by intros ->. Qed.

Lemma ascending_append {R : Type} (key : R -> Z) (t t' : Table R) (r : R) :
  sequence_ahead key t = true -> ascending key t ->
  key r = serial t -> rows t' = rows t ++ [r] ->
  ascending key t'.
Proof.
  intros [_ Hbelow]%sequence_ahead_spec Hasc Hkey Hrows i j ri rj Hij.
  rewrite Hrows, !lookup_app_Some. rewrite Forall_forall in Hbelow.
  intros [Hi | [Hlen Hi]] [Hj | [Hlen' Hj]].
  - by apply (Hasc i j).
  - apply list_lookup_singleton_Some in Hj as [_ <-].
    apply list_elem_of_lookup_2, Hbelow in Hi. lia.
  - apply lookup_lt_Some in Hj. lia.
  - apply list_lookup_singleton_Some in Hi as [Hi _].
    apply list_lookup_singleton_Some in Hj as [Hj _]. lia.
Qed.

Lemma ascending_NoDup {R : Type} (key : R -> Z) (t : Table R) :
  ascending key t -> NoDup (key <$> rows t).
Proof.
  intros Hasc. apply NoDup_alt. intros i j k.
  intros (ri & -> & Hi)%list_lookup_fmap_Some (rj & Hk & Hj)%list_lookup_fmap_Some.
  destruct (Nat.lt_trichotomy i j) as [Hlt | [-> | Hlt]]; [|done|].
  - pose proof (Hasc i j ri rj Hlt Hi Hj). lia.
  - pose proof (Hasc j i rj ri Hlt Hj Hi). lia.
Qed.

Lemma insert_vacancy_ascending (v : Vacancy.t) (t : Table VacancyRow.t) :
  Vacancy.id v = None ->
  sequence_ahead VacancyRow.id t = true ->
  ascending VacancyRow.id t ->
  ascending VacancyRow.id (insert_vacancy v t).1.
Proof.
  intros Hid Hseq Hasc.
  destruct (insert_vacancy v t).2 as [r|e] eqn:Hout.
  - apply insert_vacancy_Returned in Hout as (Hrows & _ & _ & _ & Hnew).
    destruct (Hnew Hid) as (Hkey & _).
    by apply (ascending_append _ t _ r).
  - apply insert_vacancy_Raised in Hout as [Hrows _].
    by apply (ascending_rows _ t).
Qed.

Lemma insert_candidate_ascending (c : Candidate.t) (t : Table CandidateRow.t) :
  Candidate.id c = None ->
  sequence_ahead CandidateRow.id t = true ->
  ascending CandidateRow.id t ->
  ascending CandidateRow.id (insert_candidate c t).1.
Proof.
  intros Hid Hseq Hasc.
  destruct (insert_candidate c t).2 as [r|e] eqn:Hout.
  - apply insert_candidate_Returned in Hout as (Hrows & _ & _ & _ & _ & Hnew & _).
    destruct (Hnew Hid) as (Hkey & _).
    by apply (ascending_append _ t _ r).
  - apply insert_candidate_Raised in Hout as [Hrows _].
    by apply (ascending_rows _ t).
Qed.

Lemma INSERT_ascending (i : Instance) (d : Database) :
  transient i -> sound d -> ids_ascending d ->
  ids_ascending (INSERT i d).1 /\ ids_ascending (rollback d (INSERT i d).1).
Proof.
  intros Hi (tv & tc & Hv & Hc & Hsv & Hsc) [Hav Hac].
  specialize (Hav tv Hv). specialize (Hac tc Hc).
  assert (Hsame : ids_ascending d /\ ids_ascending (rollback d d)).
  { rewrite rollback_same. split; split; intros t Ht; by simplify_eq. }
  destruct i as [v|c]; cbn in Hi.
  - destruct (INSERT_AVacancy v d) as [[e ->] | (t & Ht & ->)]; [done|].
    assert (t = tv) as -> by congruence.
    pose proof (insert_vacancy_ascending v tv Hi Hsv Hav) as Hnew.
    cbn [fst]. set (t1 := (insert_vacancy v tv).1) in *.
    unfold ids_ascending, rollback. cbn. rewrite Hv, Hc. cbn.
    repeat split; intros t [= <-]; try done;
      by eapply ascending_rows; [|eassumption].
  - destruct (INSERT_ACandidate c d) as [[e ->] | (t & Ht & ->)]; [done|].
    assert (t = tc) as -> by congruence.
    pose proof (insert_candidate_ascending c tc Hi Hsc Hac) as Hnew.
    cbn [fst]. set (t1 := (insert_candidate c tc).1) in *.
    unfold ids_ascending, rollback. cbn. rewrite Hv, Hc. cbn.
    repeat split; intros t [= <-]; try done;
      by eapply ascending_rows; [|eassumption].
Qed.

Lemma handle_ascending (r : Request) (w : World) :
  sound (database w) /\ ids_ascending (database w) ->
  sound (database (handle r w).1) /\ ids_ascending (database (handle r w).1).
Proof.
  intros [Hs Ha]. split; [by apply handle_sound|].
  destruct (handle_effect r w) as [_ [-> | [i [Hi [-> | ->]]]]]; [done|..];
    by apply INSERT_ascending.
Qed.

(** X11. Primary keys are assigned in storage order.  At any point of any
    run from boot, in both tables the identifiers are positive, pairwise
    distinct, and strictly larger for a record stored later; so
    GET /vacancies and GET /candidates list records by ascending id, and an
    id names at most one record. *)
Theorem ids_are_assigned_in_order (rs : list Request) :
  exists tv tc,
    vacancies (database (serve rs booted).1) = Some tv /\
    candidates (database (serve rs booted).1) = Some tc /\
    ascending VacancyRow.id tv /\
    ascending CandidateRow.id tc /\
    NoDup (VacancyRow.id <$> rows tv) /\
    NoDup (CandidateRow.id <$> rows tc) /\
    Forall (fun r => (0 < VacancyRow.id r)%Z) (rows tv) /\
    Forall (fun r => (0 < CandidateRow.id r)%Z) (rows tc).
Proof.
  destruct (serve_invariant
              (fun w => sound (database w) /\ ids_ascending (database w)))
    with (rs := rs) as [(tv & tc & Hv & Hc & Hsv & Hsc) [Hav Hac]].
  { split; [apply booted_sound|].
    split; intros t [= <-] i j ri rj _ Hi; by cbn in Hi. }
  { apply handle_ascending. }
  exists tv, tc. specialize (Hav tv Hv). specialize (Hac tc Hc).
  apply sequence_ahead_spec in Hsv as [_ Hpv].
  apply sequence_ahead_spec in Hsc as [_ Hpc].
  repeat split; try done; try by apply ascending_NoDup.
  - eapply Forall_impl; [exact Hpv|]. cbn. intros r. lia.
  - eapply Forall_impl; [exact Hpc|]. cbn. intros r. lia.
Qed.

(** ** What is answered and what is stored *)

Lemma serve_ascending (rs : list Request) :
  sound (database (serve rs booted).1) /\
  ids_ascending (database (serve rs booted).1).
Proof.
  apply (serve_invariant
           (fun w => sound (database w) /\ ids_ascending (database w))).
  - split; [apply booted_sound|].
    split; intros t [= <-] i j ri rj _ Hi; by cbn in Hi.
  - apply handle_ascending.
Qed.

Lemma ascending_index {R : Type} (key : R -> Z) (t : Table R) (i : nat) (r : R) :
  ascending key t ->
  Forall (fun r => (0 < key r)%Z) (rows t) ->
  rows t !! i = Some r -> (Z.of_nat i < key r)%Z.
Proof.
  intros Hasc Hpos. revert r. induction i as [|i IH]; intros r Hi.
  - rewrite Forall_forall in Hpos.
    apply list_elem_of_lookup_2, Hpos in Hi. lia.
  - destruct (lookup_lt_is_Some_2 (rows t) i) as [r' Hi'].
    { apply lookup_lt_Some in Hi. lia. }
    pose proof (IH r' Hi'). pose proof (Hasc i (S i) r' r ltac:(lia) Hi' Hi). lia.
Qed.

(** A table holds fewer rows than its sequence has handed out values. *)
Lemma rows_below_serial {R : Type} (key : R -> Z) (t : Table R) :
  sequence_ahead key t = true -> ascending key t ->
  (Z.of_nat (length (rows t)) < serial t)%Z.
Proof.
  intros [Hpos Hbelow]%sequence_ahead_spec Hasc.
  destruct (length (rows t)) as [|n] eqn:Hlen; [lia|].
  destruct (lookup_lt_is_Some_2 (rows t) n) as [r Hn]; [lia|].
  assert (Z.of_nat n < key r)%Z.
  { apply (ascending_index key t n r Hasc); [|done].
    eapply Forall_impl; [exact Hbelow|]. cbn. intros x. lia. }
  rewrite Forall_forall in Hbelow.
  apply list_elem_of_lookup_2, Hbelow in Hn. lia.
Qed.

(** X12. What POST /vacancies answers is what GET /vacancies then shows.  At
    any point of any run from boot, when POST /vacancies has been accepted
    and answered with a record, the full list (read with [skip] 0 and a
    [limit] above the number of vacancies, and at most 9223372036854775807)
    is the list there was before followed by the record that was answered,
    and the page of one record at the place of the number of vacancies
    stored before is that record alone. *)
Theorem created_vacancy_is_listed_last
    (rs : list Request) (body : VacancyBody.t) (v : VacancyRead.t) (w' : World) :
  let w := (serve rs booted).1 in
  handle (POST_vacancies body) w = (w', Returned (JSON_vacancy v)) ->
  exists t,
    vacancies (database w) = Some t /\
    (forall limit,
       (Z.of_nat (length (rows t)) < limit <= Query.max_bigint)%Z ->
       handle (GET_vacancies (Some 0%Z) (Some limit)) w =
         (w, Returned (JSON_vacancies (read_vacancy <$> rows t))) /\
       handle (GET_vacancies (Some 0%Z) (Some limit)) w' =
         (w', Returned (JSON_vacancies ((read_vacancy <$> rows t) ++ [v])))) /\
    handle (GET_vacancies (Some (Z.of_nat (length (rows t)))) (Some 1%Z)) w' =
      (w', Returned (JSON_vacancies [v])).
Proof.
  intros w Hrun.
  destruct (serve_ascending rs) as [(tv & tc & Hv & _ & Hseq & _) [Hasc _]].
  apply handle_POST_vacancies_accepted in Hrun
    as (vc & t & r & _ & Ht & -> & Hread & _ & _ & Hleft).
  fold w in Hv. assert (tv = t) as -> by congruence.
  pose proof (rows_below_serial _ t Hseq (Hasc t Hv)) as Hlen.
  exists t. split; [done|].
  set (w' := {| database := _; sessions := _ |}).
  split.
  - intros limit Hlimit.
    rewrite (handle_GET_vacancies w t 0 limit Ht)
      by (unfold Query.max_bigint in *; lia).
    rewrite (handle_GET_vacancies w' _ 0 limit eq_refl)
      by (unfold Query.max_bigint in *; lia).
    cbn [rows]. rewrite !drop_0, !take_ge, ?fmap_app; [by rewrite <- Hread|..].
    + rewrite length_app. cbn. lia.
    + lia.
  - rewrite (handle_GET_vacancies w' _ _ 1 eq_refl)
      by (unfold Query.max_bigint, max_serial in *; lia).
    cbn [rows]. rewrite Nat2Z.id, drop_app_length. by rewrite <- Hread.
Qed.

Lemma created_vacancy_is_listed_last_witness :
  handle (GET_vacancies (Some 0%Z) (Some 1%Z))
    (handle (POST_vacancies {| VacancyBody.title := Str "Engineer";
                               VacancyBody.description := Missing;
                               VacancyBody.status := Missing |})
       (serve [] booted).1).1 =
  ((handle (POST_vacancies {| VacancyBody.title := Str "Engineer";
                              VacancyBody.description := Missing;
                              VacancyBody.status := Missing |})
      (serve [] booted).1).1,
   Returned (JSON_vacancies
     [ {| VacancyRead.id := 1; VacancyRead.title := "Engineer";
          VacancyRead.description := None; VacancyRead.status := "open" |} ])).
Proof.
  destruct (created_vacancy_is_listed_last []
              {| VacancyBody.title := Str "Engineer";
                 VacancyBody.description := Missing;
                 VacancyBody.status := Missing |}
              {| VacancyRead.id := 1; VacancyRead.title := "Engineer";
                 VacancyRead.description := None; VacancyRead.status := "open" |}
              (handle (POST_vacancies {| VacancyBody.title := Str "Engineer";
                                         VacancyBody.description := Missing;
                                         VacancyBody.status := Missing |})
                 (serve [] booted).1).1)
    as (t & Ht & _ & Hlast); [by vm_compute|].
  vm_compute in Ht. injection Ht as <-. exact Hlast.
Defined.

Lemma handle_vacancy_ids (r : Request) (w : World) (t : Table VacancyRow.t) :
  sound (database w) ->
  vacancies (database w) = Some t ->
  exists t',
    vacancies (database (handle r w).1) = Some t' /\
    VacancyRow.id <$> rows t' =
    (VacancyRow.id <$> rows t) ++ issued_vacancy_ids [(handle r w).2].
Proof.
  intros Hs Ht.
  assert (Hseq : sequence_ahead VacancyRow.id t = true).
  { destruct Hs as (tv & tc & Hv & _ & Hsv & _). by simplify_eq. }
  assert (Hsame : (handle r w).1 = w \/
                  vacancies (database (handle r w).1) = vacancies (database w) ->
                  issued_vacancy_ids [(handle r w).2] = [] ->
                  exists t',
                    vacancies (database (handle r w).1) = Some t' /\
                    VacancyRow.id <$> rows t' =
                    (VacancyRow.id <$> rows t) ++ issued_vacancy_ids [(handle r w).2]).
  { intros Hw ->. exists t. rewrite app_nil_r. split; [|done].
    destruct Hw as [-> | ->]; done. }
  destruct r as [|skip limit|body|skip limit|body].
  - apply Hsame; [by left|done].
  - apply Hsame; [left; apply handle_GET_world|].
    destruct (handle _ w) as [w' o] eqn:Hh. cbn.
    destruct o as [[| |v| |]|e]; try done.
    by destruct (handle_JSON_vacancy _ _ _ _ Hh) as (? & ? & ? & _).
  - destruct (VacancyCreate.validate body) as [vc|e] eqn:Hval.
    2:{ apply Hsame; rewrite handle_steps; unfold bind, lift; rewrite Hval;
          [by left | done]. }
    destruct (vacancy_values (VacancyCreate.construct vc)) as [row|e] eqn:Hrow.
    2:{ apply Hsame; rewrite handle_steps; unfold bind, lift; rewrite Hval;
          rewrite (create_vacancy_not_adapted w vc e Hrow); [by left | done]. }
    destruct (Z.le_gt_cases (serial t) max_serial) as [Hleft|Hend].
    + destruct (vacancy_values_stored _ _ Hrow) as (Hct & Hcd & Hcs).
      destruct (handle_POST_vacancies w t body vc Hval Ht Hseq Hct Hcd Hcs Hleft)
        as (r & -> & Hread).
      eexists. split; [reflexivity|]. cbn [fst snd rows issued_vacancy_ids].
      by rewrite fmap_app.
    + apply Hsame; rewrite handle_steps; unfold bind, lift; rewrite Hval;
        rewrite (create_vacancy_exhausted w t vc row Ht Hrow Hend);
        [by left | done].
  - apply Hsame; [left; apply handle_GET_world|].
    destruct (handle _ w) as [w' o] eqn:Hh. cbn.
    destruct o as [[| |v| |]|e]; try done.
    by destruct (handle_JSON_vacancy _ _ _ _ Hh) as (? & ? & ? & _).
  - apply Hsame; [right; apply POST_candidates_keeps_vacancies|].
    destruct (handle _ w) as [w' o] eqn:Hh. cbn.
    destruct o as [[| |v| |]|e]; try done.
    by destruct (handle_JSON_vacancy _ _ _ _ Hh) as (? & ? & ? & _).
Qed.

(** X13. The identifiers stored are the identifiers answered.  At any point
    of any run from boot, the ids of the stored vacancies, in storage order,
    are exactly the ids that the answers to POST /vacancies have carried, in
    the order of the requests: every vacancy that was answered is stored,
    and nothing is stored that was not answered. *)
Theorem stored_ids_are_the_answered_ids (rs : list Request) :
  exists t,
    vacancies (database (serve rs booted).1) = Some t /\
    VacancyRow.id <$> rows t = issued_vacancy_ids (serve rs booted).2 /\
    length (rows t) = length (issued_vacancy_ids (serve rs booted).2).
Proof.
  assert (exists t,
    vacancies (database (serve rs booted).1) = Some t /\
    VacancyRow.id <$> rows t = issued_vacancy_ids (serve rs booted).2)
    as (t & Ht & Hids).
  { induction rs as [|r rs (t & Ht & Hids)] using rev_ind.
    - by exists empty_table.
    - destruct (serve_history rs) as (Hs & _).
      destruct (handle_vacancy_ids r _ t Hs Ht) as (t' & Ht' & Hids').
      exists t'. rewrite serve_app, serve_answers, issued_vacancy_ids_app.
      split; [done|]. by rewrite Hids', Hids. }
  exists t. split; [done|]. split; [done|].
  by rewrite <- Hids, length_fmap.
Qed.

(** X14. The identifier of a new candidate is new.  At any point of any run
    from boot, when POST /candidates has been accepted and answered with a
    record, the id of that record is positive, is larger than the id of
    every candidate stored before, and so is the id of no candidate stored
    before; the record is stored behind the others, and the vacancies are
    left alone. *)
Theorem create_candidate_fresh_id
    (rs : list Request) (body : CandidateBody.t) (c : CandidateRead.t)
    (w' : World) :
  let w := (serve rs booted).1 in
  handle (POST_candidates body) w = (w', Returned (JSON_candidate c)) ->
  exists t r,
    candidates (database w) = Some t /\
    candidates (database w') =
      Some {| rows := rows t ++ [r]; serial := CandidateRead.id c + 1 |} /\
    read_candidate r = c /\
    (0 < CandidateRead.id c)%Z /\
    Forall (fun r => (CandidateRow.id r < CandidateRead.id c)%Z) (rows t) /\
    (CandidateRead.id c ∉ CandidateRow.id <$> rows t) /\
    vacancies (database w') = vacancies (database w).
Proof.
  intros w Hrun.
  destruct (serve_history rs) as ((tv & tc & _ & Hc & _ & Hseq) & _).
  apply handle_POST_candidates_accepted in Hrun
    as (cc & t & r & _ & Ht & -> & Hread & -> & Hnew & _).
  fold w in Hc. assert (tc = t) as -> by congruence.
  apply sequence_ahead_spec in Hseq as [Hpos Hbelow].
  exists t, r. cbn. repeat split; try done.
  eapply Forall_impl; [exact Hbelow|]. cbn. intros x. lia.
Qed.

Lemma create_candidate_fresh_id_witness :
  exists t r,
    candidates
      (database (serve [POST_candidates (sample_body "ada@example.org")] booted).1) =
      Some t /\
    read_candidate r =
      {| CandidateRead.id := 2; CandidateRead.full_name := "Ada Lovelace";
         CandidateRead.email := "grace@example.org";
         CandidateRead.phone := None; CandidateRead.city := None |} /\
    Forall (fun r => (CandidateRow.id r < 2)%Z) (rows t).
Proof.
  destruct (create_candidate_fresh_id
              [POST_candidates (sample_body "ada@example.org")]
              (sample_body "grace@example.org")
              {| CandidateRead.id := 2; CandidateRead.full_name := "Ada Lovelace";
                 CandidateRead.email := "grace@example.org";
                 CandidateRead.phone := None; CandidateRead.city := None |}
              (handle (POST_candidates (sample_body "grace@example.org"))
                 (serve [POST_candidates (sample_body "ada@example.org")]
                    booted).1).1)
    as (t & r & Ht & _ & Hread & _ & Hbelow & _); [by vm_compute|].
  exists t, r. split; [exact Ht|]. split; [exact Hread | exact Hbelow].
Defined.

(** X15. Vacancies carry no uniqueness.  At any point of any run from boot,
    the same body with a title can be posted twice when its strings hold no
    NUL character and the sequence of [vacancies] has two values left: both
    requests are accepted, the two records have the same title, description
    and status, and the second has the larger id; both are stored, the
    second behind the first. *)
Theorem same_vacancy_twice
    (rs : list Request) (title : string) (description status : Field) :
  let w := (serve rs booted).1 in
  let body := {| VacancyBody.title := Str title;
                 VacancyBody.description := description;
                 VacancyBody.status := status |} in
  has_NUL title = false ->
  field_has_NUL description = false ->
  field_has_NUL status = false ->
  (next_id (vacancies (database w)) + 1 <= max_serial)%Z ->
  exists t r1 r2 v1 v2 w1 w2,
    vacancies (database w) = Some t /\
    handle (POST_vacancies body) w = (w1, Returned (JSON_vacancy v1)) /\
    handle (POST_vacancies body) w1 = (w2, Returned (JSON_vacancy v2)) /\
    (VacancyRead.id v1 < VacancyRead.id v2)%Z /\
    VacancyRead.title v2 = VacancyRead.title v1 /\
    VacancyRead.description v2 = VacancyRead.description v1 /\
    VacancyRead.status v2 = VacancyRead.status v1 /\
    read_vacancy r1 = v1 /\ read_vacancy r2 = v2 /\
    (exists t2, vacancies (database w2) = Some t2 /\
                rows t2 = rows t ++ [r1; r2]).
Proof.
  intros w body Hct Hcd Hcs Hleft.
  destruct (serve_history (rs ++ [POST_vacancies body]))
    as ((t1 & tc1 & Ht1 & _ & Hseq1 & _) & _).
  destruct (serve_history rs) as ((t & tc & Ht & _ & Hseq & _) & _).
  rewrite serve_app in Ht1. fold w in Ht, Ht1.
  rewrite Ht in Hleft. cbn in Hleft.
  destruct (handle_POST_vacancies w t body _ eq_refl Ht Hseq)
    as (r1 & Hrun & Hread1);
    [done | by apply optional_clean | by apply optional_clean | lia |].
  rewrite Hrun in Ht1. cbn in Ht1. injection Ht1 as <-.
  set (w1 := {| database := _; sessions := _ |}) in Hrun.
  destruct (handle_POST_vacancies w1 _ body _ eq_refl eq_refl Hseq1)
    as (r2 & Hrun1 & Hread2);
    [done | by apply optional_clean | by apply optional_clean | cbn; lia |].
  eexists t, r1, r2, _, _, _, _. split; [done|]. split; [exact Hrun|].
  split; [exact Hrun1|]. rewrite Hread1, Hread2. cbn.
  repeat split; [lia|].
  eexists. split; [reflexivity|]. cbn. by rewrite <- app_assoc.
Qed.

Lemma same_vacancy_twice_witness :
  exists v1 v2 w1 w2,
    handle (POST_vacancies {| VacancyBody.title := Str "Engineer";
                              VacancyBody.description := Str "Backend";
                              VacancyBody.status := Null |})
      (serve [] booted).1 = (w1, Returned (JSON_vacancy v1)) /\
    handle (POST_vacancies {| VacancyBody.title := Str "Engineer";
                              VacancyBody.description := Str "Backend";
                              VacancyBody.status := Null |})
      w1 = (w2, Returned (JSON_vacancy v2)) /\
    (VacancyRead.id v1 < VacancyRead.id v2)%Z /\
    VacancyRead.title v2 = VacancyRead.title v1.
Proof.
  destruct (same_vacancy_twice [] "Engineer" (Str "Backend") Null
              eq_refl eq_refl eq_refl ltac:(by vm_compute))
    as (t & r1 & r2 & v1 & v2 & w1 & w2 & _ & H1 & H2 & Hlt & Htitle & _).
  exists v1, v2, w1, w2. split; [exact H1|]. split; [exact H2|].
  split; [exact Hlt | exact Htitle].
Defined.

(** X16. A vacancy, once created, stays where it is.  At any point of any
    run from boot, when POST /vacancies has been accepted and answered with
    a record, then after any further requests whatever, served one after the
    other, the page of one record at the place the record was stored at is
    still that record, with the id and the fields that were answered. *)
Theorem created_vacancy_stays_in_place
    (rs rs' : list Request) (body : VacancyBody.t) (v : VacancyRead.t)
    (w' : World) :
  let w := (serve rs booted).1 in
  handle (POST_vacancies body) w = (w', Returned (JSON_vacancy v)) ->
  exists t,
    vacancies (database w) = Some t /\
    handle (GET_vacancies (Some (Z.of_nat (length (rows t)))) (Some 1%Z))
      (serve rs' w').1 =
      ((serve rs' w').1, Returned (JSON_vacancies [v])).
Proof.
  intros w Hrun.
  destruct (serve_ascending rs) as [(tv & tc & Hv & _ & Hseq & _) [Hasc _]].
  apply handle_POST_vacancies_accepted in Hrun
    as (vc & t & r & _ & Ht & -> & Hread & _ & _ & Hleft).
  fold w in Hv. assert (tv = t) as -> by congruence.
  pose proof (rows_below_serial _ t Hseq (Hasc t Hv)) as Hlen.
  exists t. split; [done|].
  set (w' := {| database := _; sessions := _ |}).
  destruct (serve_kept rs' w') as [Hkept _].
  destruct (Hkept _ eq_refl) as (t' & added & Ht' & Hrows).
  rewrite (handle_GET_vacancies _ t' _ 1 Ht')
    by (unfold Query.max_bigint, max_serial in *; lia).
  rewrite Hrows. cbn [rows]. rewrite Nat2Z.id.
  rewrite <- app_assoc, drop_app_length. by rewrite <- Hread.
Qed.

Lemma created_vacancy_stays_in_place_witness :
  handle (GET_vacancies (Some 0%Z) (Some 1%Z))
    (serve [POST_candidates (sample_body "ada@example.org");
            POST_vacancies {| VacancyBody.title := Str "Recruiter";
                              VacancyBody.description := Missing;
                              VacancyBody.status := Missing |}]
       (handle (POST_vacancies {| VacancyBody.title := Str "Engineer";
                                  VacancyBody.description := Missing;
                                  VacancyBody.status := Missing |})
          (serve [] booted).1).1).1 =
  ((serve [POST_candidates (sample_body "ada@example.org");
           POST_vacancies {| VacancyBody.title := Str "Recruiter";
                             VacancyBody.description := Missing;
                             VacancyBody.status := Missing |}]
      (handle (POST_vacancies {| VacancyBody.title := Str "Engineer";
                                 VacancyBody.description := Missing;
                                 VacancyBody.status := Missing |})
         (serve [] booted).1).1).1,
   Returned (JSON_vacancies
     [ {| VacancyRead.id := 1; VacancyRead.title := "Engineer";
          VacancyRead.description := None; VacancyRead.status := "open" |} ])).
Proof.
  destruct (created_vacancy_stays_in_place []
              [POST_candidates (sample_body "ada@example.org");
               POST_vacancies {| VacancyBody.title := Str "Recruiter";
                                 VacancyBody.description := Missing;
                                 VacancyBody.status := Missing |}]
              {| VacancyBody.title := Str "Engineer";
                 VacancyBody.description := Missing;
                 VacancyBody.status := Missing |}
              {| VacancyRead.id := 1; VacancyRead.title := "Engineer";
                 VacancyRead.description := None; VacancyRead.status := "open" |}
              (handle (POST_vacancies {| VacancyBody.title := Str "Engineer";
                                         VacancyBody.description := Missing;
                                         VacancyBody.status := Missing |})
                 (serve [] booted).1).1)
    as (t & Ht & Hlast); [by vm_compute|].
  vm_compute in Ht. injection Ht as <-. exact Hlast.
Defined.

(** ** Strings with NUL, and the end of a sequence *)

Lemma optional_NUL (dflt : option string) (f : Field) :
  field_has_NUL f = true -> option_has_NUL (optional dflt f) = true.
Proof. by destruct f. Qed.

(** X17. A string that holds a NUL character is not stored.
    POST /vacancies with a title, and with a NUL character in the title,
    the description or the status, raises the driver's [ValueError] in any
    world; so does POST /candidates with a NUL character in the email.
    POST /candidates with a clean email that is not stored, on a database
    that has the table, and with a NUL character in the name, the phone or
    the city, raises it as well.  The error is answered 500, not as a
    client error, and the world is unchanged: nothing is stored and no
    sequence moves. *)
Theorem string_with_NUL_refused
    (w : World) (title full_name email : string)
    (description status phone city : Field) :
  let vacancy := {| VacancyBody.title := Str title;
                    VacancyBody.description := description;
                    VacancyBody.status := status |} in
  let candidate := {| CandidateBody.full_name := Str full_name;
                      CandidateBody.email := Str email;
                      CandidateBody.phone := phone;
                      CandidateBody.city := city |} in
  let refusal :=
    ValueError "A string literal cannot contain NUL (0x00) characters." in
  (has_NUL title = true \/ field_has_NUL description = true \/
   field_has_NUL status = true ->
   handle (POST_vacancies vacancy) w = (w, Raised refusal)) /\
  (has_NUL email = true ->
   handle (POST_candidates candidate) w = (w, Raised refusal)) /\
  (forall t,
     candidates (database w) = Some t ->
     has_NUL email = false -> email ∉ emails t ->
     has_NUL full_name = true \/ field_has_NUL phone = true \/
     field_has_NUL city = true ->
     handle (POST_candidates candidate) w = (w, Raised refusal)) /\
  http_status refusal = 500%Z /\ ~ client_error refusal.
Proof.
  intros vacancy candidate refusal. split; [|split; [|split]].
  - intros HNUL. rewrite handle_steps. unfold bind, lift.
    change (VacancyCreate.validate vacancy) with
      (Returned {| VacancyCreate.title := title;
                   VacancyCreate.description := optional None description;
                   VacancyCreate.status := optional (Some "open") status |}).
    cbv beta iota.
    destruct (vacancy_values (VacancyCreate.construct
                {| VacancyCreate.title := title;
                   VacancyCreate.description := optional None description;
                   VacancyCreate.status := optional (Some "open") status |}))
      as [row|e] eqn:Hrow.
    + exfalso. apply vacancy_values_stored in Hrow as (Hct & Hcd & Hcs).
      cbn in Hct, Hcd, Hcs.
      destruct HNUL as [H | [H | H]]; [congruence|..].
      * apply (optional_NUL None) in H. congruence.
      * apply (optional_NUL (Some "open")) in H. congruence.
    + rewrite (create_vacancy_not_adapted w _ e Hrow).
      by apply vacancy_values_Raised in Hrow as [-> _].
  - intros HNUL. rewrite handle_steps. unfold bind, lift.
    change (CandidateCreate.validate candidate) with
      (Returned {| CandidateCreate.full_name := full_name;
                   CandidateCreate.email := email;
                   CandidateCreate.phone := optional None phone;
                   CandidateCreate.city := optional None city |}).
    cbv beta iota. rewrite get_db_create_candidate.
    cbn [CandidateCreate.email].
    by rewrite (select_by_email_NUL (database w) _ HNUL).
  - intros t Ht Hclean Hnew HNUL. rewrite handle_steps. unfold bind, lift.
    change (CandidateCreate.validate candidate) with
      (Returned {| CandidateCreate.full_name := full_name;
                   CandidateCreate.email := email;
                   CandidateCreate.phone := optional None phone;
                   CandidateCreate.city := optional None city |}).
    cbv beta iota.
    destruct (candidate_values (CandidateCreate.construct
                {| CandidateCreate.full_name := full_name;
                   CandidateCreate.email := email;
                   CandidateCreate.phone := optional None phone;
                   CandidateCreate.city := optional None city |}))
      as [row|e] eqn:Hrow.
    + exfalso. apply candidate_values_stored in Hrow as (Hcn & _ & Hcp & Hcc).
      cbn in Hcn, Hcp, Hcc.
      destruct HNUL as [H | [H | H]]; [congruence|..];
        apply (optional_NUL None) in H; congruence.
    + rewrite (create_candidate_not_adapted w t
                 {| CandidateCreate.full_name := full_name;
                   CandidateCreate.email := email;
                   CandidateCreate.phone := optional None phone;
                   CandidateCreate.city := optional None city |}
                 e Ht Hclean Hnew Hrow).
      by apply candidate_values_Raised in Hrow as [-> _].
  - split; [done|]. unfold client_error. cbn. lia.
Qed.

(** X18. The sequences end.  The sequence behind an [id] column hands out
    values up to 2147483647.  In a world where the next value of the
    sequence of [vacancies] is beyond it, POST /vacancies with a title and
    strings without NUL raises a database error, and so does
    POST /candidates, with a clean body and an email that is not stored,
    when the sequence of [candidates] has ended.  The error is answered 500
    and the world is unchanged. *)
Theorem sequence_end_refused
    (w : World) (title full_name email : string)
    (description status phone city : Field) :
  let vacancy := {| VacancyBody.title := Str title;
                    VacancyBody.description := description;
                    VacancyBody.status := status |} in
  let candidate := {| CandidateBody.full_name := Str full_name;
                      CandidateBody.email := Str email;
                      CandidateBody.phone := phone;
                      CandidateBody.city := city |} in
  let refusal := DataError "nextval: reached maximum value of sequence" in
  (forall t,
     vacancies (database w) = Some t -> (max_serial < serial t)%Z ->
     has_NUL title = false -> field_has_NUL description = false ->
     field_has_NUL status = false ->
     handle (POST_vacancies vacancy) w = (w, Raised refusal)) /\
  (forall t,
     candidates (database w) = Some t -> (max_serial < serial t)%Z ->
     email ∉ emails t ->
     has_NUL full_name = false -> has_NUL email = false ->
     field_has_NUL phone = false -> field_has_NUL city = false ->
     handle (POST_candidates candidate) w = (w, Raised refusal)) /\
  http_status refusal = 500%Z.
Proof.
  intros vacancy candidate refusal. split; [|split; [|done]].
  - intros t Ht Hend Hct Hcd Hcs. rewrite handle_steps. unfold bind, lift.
    change (VacancyCreate.validate vacancy) with
      (Returned {| VacancyCreate.title := title;
                   VacancyCreate.description := optional None description;
                   VacancyCreate.status := optional (Some "open") status |}).
    cbv beta iota.
    destruct (vacancy_values_clean (VacancyCreate.construct
                {| VacancyCreate.title := title;
                   VacancyCreate.description := optional None description;
                   VacancyCreate.status := optional (Some "open") status |}))
      as [row Hrow]; [done | by apply optional_clean | by apply optional_clean |].
    by rewrite (create_vacancy_exhausted w t _ row Ht Hrow Hend).
  - intros t Ht Hend Hnew Hcn Hce Hcp Hcc. rewrite handle_steps.
    unfold bind, lift.
    change (CandidateCreate.validate candidate) with
      (Returned {| CandidateCreate.full_name := full_name;
                   CandidateCreate.email := email;
                   CandidateCreate.phone := optional None phone;
                   CandidateCreate.city := optional None city |}).
    cbv beta iota.
    destruct (candidate_values_clean (CandidateCreate.construct
                {| CandidateCreate.full_name := full_name;
                   CandidateCreate.email := email;
                   CandidateCreate.phone := optional None phone;
                   CandidateCreate.city := optional None city |}))
      as [row Hrow];
      [done | done | by apply optional_clean | by apply optional_clean |].
    by rewrite (create_candidate_exhausted w t
                  {| CandidateCreate.full_name := full_name;
                   CandidateCreate.email := email;
                   CandidateCreate.phone := optional None phone;
                   CandidateCreate.city := optional None city |}
                  row Ht Hnew Hrow Hend).
Qed.

Lemma string_with_NUL_refused_witness :
  handle (POST_vacancies
            {| VacancyBody.title := Str "dev";
               VacancyBody.description := Str (String Ascii.zero "x");
               VacancyBody.status := Missing |}) sample_world =
    (sample_world,
     Raised (ValueError "A string literal cannot contain NUL (0x00) characters.")) /\
  handle (POST_candidates
            {| CandidateBody.full_name := Str (String Ascii.zero "Ada");
               CandidateBody.email := Str "grace@example.org";
               CandidateBody.phone := Missing;
               CandidateBody.city := Missing |}) sample_world =
    (sample_world,
     Raised (ValueError "A string literal cannot contain NUL (0x00) characters.")).
Proof.
  destruct (string_with_NUL_refused sample_world "dev"
              (String Ascii.zero "Ada") "grace@example.org"
              (Str (String Ascii.zero "x")) Missing Missing Missing)
    as (Hvacancy & _ & Hcandidate & _).
  split.
  - apply Hvacancy. right. by left.
  - apply (Hcandidate sample_candidates eq_refl eq_refl).
    + vm_compute. intros Hin. inversion Hin as [|? ? ? Hnil]; inversion Hnil.
    + by left.
Defined.

Lemma sequence_end_refused_witness :
  handle (POST_vacancies {| VacancyBody.title := Str "dev";
                            VacancyBody.description := Missing;
                            VacancyBody.status := Missing |})
    {| database := {| vacancies := Some {| rows := []; serial := 2147483647 |};
                      candidates := Some empty_table |};
       sessions := ∅ |} =
  ({| database :=
        {| vacancies :=
             Some {| rows := [ {| VacancyRow.id := 2147483647;
                                  VacancyRow.title := text "dev";
                                  VacancyRow.description := None;
                                  VacancyRow.status := text "open" |} ];
                     serial := 2147483648 |};
           candidates := Some empty_table |};
      sessions := ∅ |},
   Returned (JSON_vacancy
     {| VacancyRead.id := 2147483647; VacancyRead.title := "dev";
        VacancyRead.description := None; VacancyRead.status := "open" |})) /\
  handle (POST_vacancies {| VacancyBody.title := Str "dev";
                            VacancyBody.description := Missing;
                            VacancyBody.status := Missing |})
    {| database := {| vacancies := Some {| rows := []; serial := 2147483648 |};
                      candidates := Some empty_table |};
       sessions := ∅ |} =
  ({| database := {| vacancies := Some {| rows := []; serial := 2147483648 |};
                     candidates := Some empty_table |};
      sessions := ∅ |},
   Raised (DataError "nextval: reached maximum value of sequence")).
Proof.
  split; [by vm_compute|].
  destruct (sequence_end_refused
              {| database :=
                   {| vacancies := Some {| rows := []; serial := 2147483648 |};
                      candidates := Some empty_table |};
                 sessions := ∅ |}
              "dev" "Ada" "ada@example.org" Missing Missing Missing Missing)
    as (Hvacancy & _).
  apply (Hvacancy {| rows := []; serial := 2147483648 |} eq_refl);
    [by vm_compute | done..].
Defined.

(** ** A sequence behind its table *)

(** X19. A sequence value is not given back.  In a world where the next
    value of the sequence of [vacancies] is the id of a stored vacancy (rows
    were stored with ids the sequence had not handed out), POST /vacancies
    with a title and strings without NUL draws that value, the primary key
    index refuses the row, and the request raises the integrity error of
    the primary key: no row is stored, the candidates are as they were, and
    the sequence has moved on by one, so that a later request can pass. *)
Theorem primary_key_collision_consumes_a_value
    (w : World) (t : Table VacancyRow.t) (title : string)
    (description status : Field) :
  let body := {| VacancyBody.title := Str title;
                 VacancyBody.description := description;
                 VacancyBody.status := status |} in
  vacancies (database w) = Some t ->
  serial t ∈ VacancyRow.id <$> rows t ->
  (serial t <= max_serial)%Z ->
  has_NUL title = false ->
  field_has_NUL description = false ->
  field_has_NUL status = false ->
  handle (POST_vacancies body) w =
  ({| database :=
        {| vacancies := Some {| rows := rows t; serial := serial t + 1 |};
           candidates := candidates (database w) |};
      sessions := sessions w |},
   Raised (IntegrityError "vacancies_pkey")).
Proof.
  intros body Ht Hstored Hleft Hct Hcd Hcs.
  rewrite handle_steps. unfold bind, lift.
  change (VacancyCreate.validate body) with
    (Returned {| VacancyCreate.title := title;
                 VacancyCreate.description := optional None description;
                 VacancyCreate.status := optional (Some "open") status |}).
  cbv beta iota. rewrite get_db_create_vacancy.
  destruct (vacancy_values_clean (VacancyCreate.construct
              {| VacancyCreate.title := title;
                 VacancyCreate.description := optional None description;
                 VacancyCreate.status := optional (Some "open") status |}))
    as [row Hrow]; [done | by apply optional_clean | by apply optional_clean |].
  unfold INSERT, insert_vacancy. rewrite Hrow, Ht.
  cbn [VacancyCreate.construct Vacancy.init Vacancy.id].
  rewrite (primary_key_new t Hleft). cbn [rows].
  rewrite bool_decide_eq_true_2 by done.
  unfold rollback. cbn [vacancies candidates]. rewrite Ht.
  by rewrite rollback_table_same.
Qed.

Lemma primary_key_collision_consumes_a_value_witness :
  handle (POST_vacancies {| VacancyBody.title := Str "dev";
                            VacancyBody.description := Missing;
                            VacancyBody.status := Missing |})
    {| database :=
         {| vacancies := Some {| rows := rows sample_vacancies; serial := 2 |};
            candidates := Some sample_candidates |};
       sessions := ∅ |} =
  ({| database :=
        {| vacancies := Some {| rows := rows sample_vacancies; serial := 3 |};
           candidates := Some sample_candidates |};
      sessions := ∅ |},
   Raised (IntegrityError "vacancies_pkey")).
Proof.
  apply (primary_key_collision_consumes_a_value
           {| database :=
                {| vacancies :=
                     Some {| rows := rows sample_vacancies; serial := 2 |};
                   candidates := Some sample_candidates |};
              sessions := ∅ |}
           {| rows := rows sample_vacancies; serial := 2 |}
           "dev" Missing Missing eq_refl);
    [vm_compute; right; left | by vm_compute | done..].
Defined.
